(** * cloud_harvester.py: the harvest session controller

    A shallow embedding of [CloudHarvester] (src/cloud_harvester.py) and the
    properties of its session-health state machine.

    The coroutines of the class are written in a small monad that threads
    the attributes of [self] and the state of the outside world (browser
    engine, credential sink, clock), can raise a Python exception, and
    records every action the code performs: prints, engine calls with their
    results, attribute assignments, and the callbacks the event loop ran
    while the coroutine was suspended. *)

From Stdlib Require Import ZArith List String Bool Lia.
Import ListNotations.
Open Scope Z_scope.
Open Scope string_scope.
Open Scope list_scope.

Set Warnings "-register-all".

(** ** Python values used by the class *)

(** Exceptions deriving from [Exception]: the ones [except Exception] and the
    bare [except:] of the source both catch.  Task cancellation and
    interpreter exit derive from [BaseException] only and are not modelled. *)
Inductive exn : Type :=
| JSONDecodeError
| TypeError
| EngineError (what : string).

Inductive PyResult (A : Type) : Type :=
| Ok (a : A)
| Err (e : exn).
Arguments Ok {A} a.
Arguments Err {A} e.

Definition is_JSONDecodeError (e : exn) : bool :=
  match e with JSONDecodeError => true | _ => false end.

(** [needle in hay] on Python strings. *)
Definition contains (needle hay : string) : bool :=
  match String.index 0 needle hay with
  | Some _ => true
  | None => false
  end.
Arguments contains : simpl never.

(** Truthiness of [self.current_cookies]: [None] and the empty string are
    false. *)
Definition truthy (o : option string) : bool :=
  match o with
  | Some s => negb (s =? "")
  | None => false
  end.

(** What [json.loads] returns. *)
Inductive JSON : Type :=
| JNull
| JBool (b : bool)
| JNumber (literal : string)
| JString (s : string)
| JArray (items : list JSON)
| JObject (members : list (string * JSON)).

(** [len(cookies)]: a [TypeError] for values without a length. *)
Definition py_len (j : JSON) : PyResult nat :=
  match j with
  | JString s => Ok (String.length s)
  | JArray items => Ok (List.length items)
  | JObject members => Ok (List.length members)
  | _ => Err TypeError
  end.

(** ** Configuration *)

Definition VERTEX_URL : string :=
  "https://console.cloud.google.com/vertex-ai/studio/multimodal?mode=prompt&model=gemini-2.5-flash-lite-preview-09-2025".

(** The endpoint and body markers the two callbacks look for, the
    identity-provider domain and the sign-in title of the liveness loop. *)
Definition ENDPOINT : string := "batchGraphql".
Definition MARKER_STREAM : string := "StreamGenerateContent".
Definition MARKER_GENERATE : string := "generateContent".
Definition LOGIN_DOMAIN : string := "accounts.google.com".
Definition LOGIN_TITLE : string := "Sign in".

(** Seconds: the login-retry cooldown and the harvest interval. *)
Definition LOGIN_COOLDOWN : Z := 60.
Definition HARVEST_INTERVAL : Z := 2700.

(** ** The browser control surface *)

(** The CSS selectors of [perform_harvest]. *)
Inductive selector : Type :=
| dialog_content      (* div.mat-mdc-dialog-content *)
| popup_close         (* button[aria-label=Close] *)
| popup_got_it        (* button:has-text(Got it) *)
| popup_ok            (* button:has-text(OK) *)
| editor_selector.    (* div[contenteditable=true] *)

Definition popup_selectors : list selector := [popup_close; popup_got_it; popup_ok].

(** The script fragments [perform_harvest] evaluates in the page. *)
Inductive script : Type :=
| js_scroll_dialog    (* scrollTop = scrollHeight on the dialog content *)
| js_check_terms      (* click the accept-terms checkbox input *)
| js_click_agree      (* enable and click every Agree button *)
| js_clear_editor.    (* innerText = '' on the editor *)

Inductive selector_state : Type := Visible | Hidden.

(** The keyword overrides of [route.continue_]; the source passes none. *)
Record Overrides : Type := {
  ov_url : option string;
  ov_method : option string;
  ov_headers : option (list (string * string));
  ov_post_data : option string
}.

Definition no_overrides : Overrides :=
  {| ov_url := None; ov_method := None; ov_headers := None; ov_post_data := None |}.

(** What a handler can do with an intercepted route. *)
Inductive route_call : Type :=
| rc_continue (ov : Overrides)
| rc_abort
| rc_fulfill
| rc_fallback.

(** Engine calls that return nothing of interest or raise.  Timeouts are in
    milliseconds, as Playwright takes them. *)
Inductive call : Type :=
| playwright_start                      (* async_playwright().__aenter__ *)
| playwright_stop                       (* async_playwright().__aexit__ *)
| chromium_launch
| new_context
| add_cookies (cookies : JSON)
| new_page
| page_route                            (* page.route(all urls, handle_route) *)
| page_goto (url : string) (timeout : option Z)
| page_reload
| browser_close
| page_evaluate (js : script)
| page_wait_for_selector (sel : selector) (state : selector_state) (timeout : Z)
| page_click (sel : selector) (force : bool)
| page_fill (sel : selector) (text : string)
| page_press (sel : selector) (key : string)
| route_api (rc : route_call).

(** ** Requests, responses and the harvested artifact *)

(** [request.post_data] decodes the body and may raise on a binary one. *)
Record Request : Type := {
  req_url : string;
  req_method : string;
  req_headers : list (string * string);
  req_post_data : PyResult (option string)
}.

Record Response : Type := {
  resp_url : string;
  resp_status : Z
}.

(** The [harvest_data] dictionary, keys url, method, headers, body. *)
Record Artifact : Type := {
  art_url : string;
  art_method : string;
  art_headers : list (string * string);
  art_body : string
}.

(** ** The attributes of [self] *)

Record SessionState : Type := {
  is_running : bool;
  last_harvest_time : Z;
  current_cookies : option string;
  restart_requested : bool;
  refresh_needed : bool;
  last_login_retry_time : Z;
  page : bool                        (* [self.page] is a page, not [None] *)
}.

(** [CloudHarvester.__init__], given the value of the GOOGLE_COOKIES
    environment variable. *)
Definition init (env_cookies : option string) : SessionState :=
  {| is_running := false;
     last_harvest_time := 0;
     current_cookies := env_cookies;
     restart_requested := false;
     refresh_needed := false;
     last_login_retry_time := 0;
     page := false |}.

(** An assignment [self.field = value]. *)
Inductive write : Type :=
| w_is_running (b : bool)
| w_last_harvest_time (t : Z)
| w_current_cookies (c : option string)
| w_restart_requested (b : bool)
| w_refresh_needed (b : bool)
| w_last_login_retry_time (t : Z)
| w_page (b : bool).

Definition apply_write (w : write) (s : SessionState) : SessionState :=
  match w with
  | w_is_running b =>
      {| is_running := b; last_harvest_time := last_harvest_time s;
         current_cookies := current_cookies s; restart_requested := restart_requested s;
         refresh_needed := refresh_needed s; last_login_retry_time := last_login_retry_time s;
         page := page s |}
  | w_last_harvest_time t =>
      {| is_running := is_running s; last_harvest_time := t;
         current_cookies := current_cookies s; restart_requested := restart_requested s;
         refresh_needed := refresh_needed s; last_login_retry_time := last_login_retry_time s;
         page := page s |}
  | w_current_cookies c =>
      {| is_running := is_running s; last_harvest_time := last_harvest_time s;
         current_cookies := c; restart_requested := restart_requested s;
         refresh_needed := refresh_needed s; last_login_retry_time := last_login_retry_time s;
         page := page s |}
  | w_restart_requested b =>
      {| is_running := is_running s; last_harvest_time := last_harvest_time s;
         current_cookies := current_cookies s; restart_requested := b;
         refresh_needed := refresh_needed s; last_login_retry_time := last_login_retry_time s;
         page := page s |}
  | w_refresh_needed b =>
      {| is_running := is_running s; last_harvest_time := last_harvest_time s;
         current_cookies := current_cookies s; restart_requested := restart_requested s;
         refresh_needed := b; last_login_retry_time := last_login_retry_time s;
         page := page s |}
  | w_last_login_retry_time t =>
      {| is_running := is_running s; last_harvest_time := last_harvest_time s;
         current_cookies := current_cookies s; restart_requested := restart_requested s;
         refresh_needed := refresh_needed s; last_login_retry_time := t;
         page := page s |}
  | w_page b =>
      {| is_running := is_running s; last_harvest_time := last_harvest_time s;
         current_cookies := current_cookies s; restart_requested := restart_requested s;
         refresh_needed := refresh_needed s; last_login_retry_time := last_login_retry_time s;
         page := b |}
  end.

(** ** Log lines and the recorded actions *)

(** The lines the class prints, one constructor per [print]. *)
Inductive message : Type :=
| msg_received_cookies
| msg_no_cookies
| msg_starting
| msg_loaded_cookies (n : nat)
| msg_invalid_json
| msg_navigating
| msg_navigation_failed (e : exn)
| msg_refreshing
| msg_page_reloaded
| msg_refresh_failed (e : exn)
| msg_redirected_retry
| msg_cookies_expired
| msg_export_fresh
| msg_restarting
| msg_error (e : exn)
| msg_stopped
| msg_api_returned (status : Z)
| msg_captured
| msg_error_analyzing (e : exn)
| msg_attempting
| msg_terms_dialog
| msg_waiting_editor
| msg_editor_not_found
| msg_sending_hello
| msg_interaction_failed (e : exn).

(** What the event loop can run while a coroutine of the class is
    suspended: the two page callbacks, a caller of [update_cookies], and the
    owner of the object assigning [is_running = False] (the class has no
    method for it; the loops only read the attribute). *)
Inductive callback : Type :=
| cb_route (request : Request)
| cb_response (response : Response)
| cb_update_cookies (new_cookies_json : string)
| cb_stop.

(** One entry of the record of a run. *)
Inductive action : Type :=
| a_print (m : message)
| a_call (c : call) (r : PyResult unit)
| a_sleep (ms : Z)
| a_on_response                                  (* page.on(response, handle_response) *)
| a_is_visible (sel : selector) (r : PyResult bool)
| a_title (r : PyResult string)
| a_url (u : string)
| a_time (t : Z)
| a_latest_harvest (b : bool)
| a_update (data : Artifact) (r : PyResult unit)  (* cred_manager.update(harvest_data) *)
| a_assign (w : write)
| a_callback (cb : callback) (inner : list action).

(** ** The outside world *)

(** The answers of everything the class does not own.  Each operation may
    change the world; [dispatch] gives the callbacks the event loop runs
    during one suspension of the running coroutine.  [time_time] is the
    reading of [time.time()], in seconds and taken as an integer: the class
    only subtracts two readings and compares the difference with 60 and
    2700.  The pauses of [asyncio.sleep] are recorded in milliseconds. *)
Class Engine (W : Type) : Type := {
  dispatch : W -> list callback * W;
  perform : call -> W -> PyResult unit * W;
  is_visible : selector -> W -> PyResult bool * W;
  title : W -> PyResult string * W;
  url : W -> string * W;
  time_time : W -> Z * W;
  latest_harvest : W -> bool * W;                 (* truth of cred_manager.latest_harvest *)
  update : Artifact -> W -> PyResult unit * W;    (* cred_manager.update *)
  json_loads : string -> PyResult JSON
}.

(** ** The monad of the coroutines *)

Inductive Outcome (A : Type) : Type :=
| Normal (a : A)
| Raised (e : exn)
| Starved.                                       (* a loop ran out of fuel *)
Arguments Normal {A} a.
Arguments Raised {A} e.
Arguments Starved {A}.

Record Machine (W : Type) : Type := {
  st : SessionState;
  world : W
}.
Arguments Build_Machine {W} _ _.
Arguments st {W} _.
Arguments world {W} _.

Record Run (W A : Type) : Type := {
  outcome : Outcome A;
  final : Machine W;
  trace : list action
}.
Arguments Build_Run {W A} _ _ _.
Arguments outcome {W A} _.
Arguments final {W A} _.
Arguments trace {W A} _.

Definition M (W A : Type) : Type := Machine W -> Run W A.

(** Statement-level control flow of a loop body. *)
Inductive flow : Type :=
| Fallthrough       (* go on with the next statement *)
| Continue          (* continue *)
| Break.            (* break *)

Section Monad.
Context {W : Type}.

Definition ret {A} (a : A) : M W A :=
  fun m => Build_Run (Normal a) m [].

Definition raise {A} (e : exn) : M W A :=
  fun m => Build_Run (Raised e) m [].

Definition starve {A} : M W A :=
  fun m => Build_Run Starved m [].

(** A run with more actions recorded in front. *)
Definition prefixed {A} (tr : list action) (r : Run W A) : Run W A :=
  match r with
  | Build_Run o m tr' => Build_Run o m (tr ++ tr')
  end.

Definition bind {A B} (p : M W A) (f : A -> M W B) : M W B :=
  fun m =>
    match p m with
    | Build_Run (Normal a) m' tr => prefixed tr (f a m')
    | Build_Run (Raised e) m' tr => Build_Run (Raised e) m' tr
    | Build_Run Starved m' tr => Build_Run Starved m' tr
    end.

(** [try: p / except ...: handler] for the exceptions [catches] selects. *)
Definition try_except_if {A} (catches : exn -> bool) (p : M W A) (handler : exn -> M W A) : M W A :=
  fun m =>
    match p m with
    | Build_Run (Raised e) m' tr =>
        if catches e then prefixed tr (handler e m')
        else Build_Run (Raised e) m' tr
    | r => r
    end.

(** [except Exception] and the bare [except:]. *)
Definition try_except {A} (p : M W A) (handler : exn -> M W A) : M W A :=
  try_except_if (fun _ => true) p handler.

(** [async with]: the exit runs however the body ends; an exception of the
    exit replaces the body's outcome. *)
Definition finally {A} (p : M W A) (exit : M W unit) : M W A :=
  fun m =>
    match p m with
    | Build_Run Starved m' tr => Build_Run Starved m' tr
    | Build_Run o m' tr =>
        match exit m' with
        | Build_Run (Normal _) m'' tr' => Build_Run o m'' (tr ++ tr')
        | Build_Run (Raised e) m'' tr' => Build_Run (Raised e) m'' (tr ++ tr')
        | Build_Run Starved m'' tr' => Build_Run Starved m'' (tr ++ tr')
        end
    end.

Definition get : M W SessionState :=
  fun m => Build_Run (Normal (st m)) m [].

Definition emit (a : action) : M W unit :=
  fun m => Build_Run (Normal tt) m [a].

Definition print (msg : message) : M W unit := emit (a_print msg).

Definition assign (w : write) : M W unit :=
  fun m => Build_Run (Normal tt) (Build_Machine (apply_write w (st m)) (world m)) [a_assign w].

Definition lift {A} (r : PyResult A) : M W A :=
  match r with
  | Ok a => ret a
  | Err e => raise e
  end.
End Monad.

Declare Scope py_scope.
Delimit Scope py_scope with py.
Notation "x <- p ;; q" := (bind p (fun x => q))
  (at level 61, p at next level, right associativity) : py_scope.
Notation "p ;; q" := (bind p (fun _ => q))
  (at level 61, right associativity) : py_scope.
Open Scope py_scope.

(** ** The class *)

Section CloudHarvester.
Context {W : Type} {E : Engine W}.

(** *** Calls that do not suspend the coroutine *)

Definition time : M W Z :=
  fun m =>
    let (t, w) := time_time (world m) in
    Build_Run (Normal t) (Build_Machine (st m) w) [a_time t].

Definition page_url : M W string :=
  fun m =>
    let (u, w) := url (world m) in
    Build_Run (Normal u) (Build_Machine (st m) w) [a_url u].

Definition cred_manager_latest_harvest : M W bool :=
  fun m =>
    let (b, w) := latest_harvest (world m) in
    Build_Run (Normal b) (Build_Machine (st m) w) [a_latest_harvest b].

Definition cred_manager_update (data : Artifact) : M W unit :=
  fun m =>
    let (r, w) := update data (world m) in
    Build_Run (match r with Ok _ => Normal tt | Err e => Raised e end)
              (Build_Machine (st m) w) [a_update data r].

(** The engine call itself, once the event loop resumes the coroutine. *)
Definition engine_call (c : call) : M W unit :=
  fun m =>
    let (r, w) := perform c (world m) in
    Build_Run (match r with Ok _ => Normal tt | Err e => Raised e end)
              (Build_Machine (st m) w) [a_call c r].

(** *** The callbacks *)

(** [update_cookies], lines 25-29. *)
Definition update_cookies (new_cookies_json : string) : M W unit :=
  print msg_received_cookies ;;
  assign (w_current_cookies (Some new_cookies_json)) ;;
  assign (w_restart_requested true).

(** [handle_response], lines 129-137. *)
Definition handle_response (response : Response) : M W unit :=
  try_except
    (if contains ENDPOINT (resp_url response) then
       if (resp_status response =? 401)%Z || (resp_status response =? 403)%Z then
         print (msg_api_returned (resp_status response)) ;;
         assign (w_refresh_needed true)
       else ret tt
     else ret tt)
    (fun _ => ret tt).

(** [handle_route], lines 139-158.  Its only suspension is the final
    [route.continue_()], after every assignment, so the callback is one
    atomic step for the rest of the class. *)
Definition handle_route (request : Request) : M W unit :=
  (if contains ENDPOINT (req_url request) && (req_method request =? "POST")%string then
     try_except
       (post_data <- lift (req_post_data request) ;;
        match post_data with
        | Some body =>
            if negb (body =? "")%string
               && (contains MARKER_STREAM body || contains MARKER_GENERATE body) then
              print msg_captured ;;
              let harvest_data :=
                {| art_url := req_url request;
                   art_method := req_method request;
                   art_headers := req_headers request;
                   art_body := body |} in
              cred_manager_update harvest_data ;;
              now <- time ;;
              assign (w_last_harvest_time now) ;;
              assign (w_last_login_retry_time 0)
            else ret tt
        | None => ret tt
        end)
       (fun e => print (msg_error_analyzing e))
   else ret tt) ;;
  engine_call (route_api (rc_continue no_overrides)).

Definition run_callback (cb : callback) : M W unit :=
  match cb with
  | cb_route request => handle_route request
  | cb_response response => handle_response response
  | cb_update_cookies c => update_cookies c
  | cb_stop => assign (w_is_running false)
  end.

(** The event loop runs one callback to its end; an exception of the
    callback stays with the event loop. *)
Definition deliver (cb : callback) : M W unit :=
  fun m =>
    match run_callback cb m with
    | Build_Run _ m' inner => Build_Run (Normal tt) m' [a_callback cb inner]
    end.

Fixpoint deliver_all (cbs : list callback) : M W unit :=
  match cbs with
  | [] => ret tt
  | cb :: rest => deliver cb ;; deliver_all rest
  end.

(** *** Suspension points *)

(** While the coroutine waits, the event loop runs the pending callbacks. *)
Definition suspend : M W unit :=
  fun m =>
    let (cbs, w) := dispatch (world m) in
    deliver_all cbs (Build_Machine (st m) w).

(** [await] of an engine call. *)
Definition await (c : call) : M W unit :=
  suspend ;; engine_call c.

(** [await asyncio.sleep(...)], in milliseconds. *)
Definition sleep (ms : Z) : M W unit :=
  suspend ;; emit (a_sleep ms).

Definition page_is_visible (sel : selector) : M W bool :=
  suspend ;;
  fun m =>
    let (r, w) := is_visible sel (world m) in
    Build_Run (match r with Ok b => Normal b | Err e => Raised e end)
              (Build_Machine (st m) w) [a_is_visible sel r].

Definition page_title : M W string :=
  suspend ;;
  fun m =>
    let (r, w) := title (world m) in
    Build_Run (match r with Ok t => Normal t | Err e => Raised e end)
              (Build_Machine (st m) w) [a_title r].

(** [for x in xs: body]. *)
Fixpoint for_each {A} (xs : list A) (body : A -> M W unit) : M W unit :=
  match xs with
  | [] => ret tt
  | x :: rest => body x ;; for_each rest body
  end.

(** *** The interaction procedure *)

(** [perform_harvest], lines 160-226. *)
Definition perform_harvest : M W unit :=
  print msg_attempting ;;
  self <- get ;;
  if negb (page self) then ret tt
  else
    try_except
      ((* 1. the terms dialog *)
       shown <- page_is_visible dialog_content ;;
       (if shown then
          print msg_terms_dialog ;;
          try_except (await (page_evaluate js_scroll_dialog)) (fun _ => ret tt) ;;
          await (page_evaluate js_check_terms) ;;
          sleep 1000 ;;
          await (page_evaluate js_click_agree) ;;
          try_except (await (page_wait_for_selector dialog_content Hidden 3000))
                     (fun _ => ret tt)
        else ret tt) ;;
       (* the other popups *)
       for_each popup_selectors
         (fun sel =>
            try_except
              (shown <- page_is_visible sel ;;
               if shown then await (page_click sel false) else ret tt)
              (fun _ => ret tt)) ;;
       (* 2. send the text *)
       print msg_waiting_editor ;;
       found <- try_except
                  (await (page_wait_for_selector editor_selector Visible 5000) ;; ret true)
                  (fun _ => print msg_editor_not_found ;; ret false) ;;
       if found then
         await (page_click editor_selector true) ;;
         await (page_evaluate js_clear_editor) ;;
         await (page_fill editor_selector "Hello") ;;
         sleep 500 ;;
         print msg_sending_hello ;;
         await (page_press editor_selector "Enter") ;;
         sleep 3000
       else ret tt (* return *))
      (fun e => print (msg_interaction_failed e)).

(** *** The liveness loop *)

(** Case A, lines 82-91: the body of [if self.refresh_needed]. *)
Definition case_refresh : M W flow :=
  print msg_refreshing ;;
  try_except
    (await page_reload ;;
     print msg_page_reloaded ;;
     assign (w_refresh_needed false) ;;
     sleep 5000 ;;
     perform_harvest)
    (fun e => print (msg_refresh_failed e)) ;;
  ret Continue.

(** The condition of case B, line 94; the title is fetched only when the
    URL does not already decide. *)
Definition on_login_page : M W bool :=
  u <- page_url ;;
  if contains LOGIN_DOMAIN u then ret true
  else
    t <- page_title ;;
    ret (contains LOGIN_TITLE t).

(** Case B, lines 95-110: the body of the login-page test. *)
Definition case_login : M W flow :=
  current_time <- time ;;
  self <- get ;;
  if current_time - last_login_retry_time self >? LOGIN_COOLDOWN then
    print msg_redirected_retry ;;
    assign (w_last_login_retry_time current_time) ;;
    try_except
      (await (page_goto VERTEX_URL None) ;;
       sleep 5000 ;;
       ret Continue)
      (fun _ => ret Fallthrough)
  else
    print msg_cookies_expired ;;
    print msg_export_fresh ;;
    ret Break.

(** Case C, lines 113-114. *)
Definition case_harvest : M W unit :=
  now <- time ;;
  self <- get ;;
  due <- (if now - last_harvest_time self >? HARVEST_INTERVAL then ret true
          else
            latest <- cred_manager_latest_harvest ;;
            ret (negb latest)) ;;
  if due then perform_harvest else ret tt.

(** One pass of the inner [while] body, lines 80-116. *)
Definition liveness_tick : M W flow :=
  self <- get ;;
  if refresh_needed self then case_refresh
  else
    login <- on_login_page ;;
    f <- (if login then case_login else ret Fallthrough) ;;
    match f with
    | Fallthrough =>
        case_harvest ;;
        sleep 5000 ;;
        ret Fallthrough
    | Continue => ret Continue
    | Break => ret Break
    end.

(** The inner [while self.is_running and not self.restart_requested],
    line 78. *)
Fixpoint liveness_loop (fuel : nat) : M W unit :=
  match fuel with
  | O => starve
  | S fuel' =>
      self <- get ;;
      if is_running self && negb (restart_requested self) then
        f <- liveness_tick ;;
        match f with
        | Break => ret tt
        | _ => liveness_loop fuel'
        end
      else ret tt
  end.

(** *** The session loop *)

(** The cookie injection, lines 50-59; [false] stands for the [continue]
    of the handler. *)
Definition load_cookies : M W bool :=
  self <- get ;;
  if truthy (current_cookies self) then
    try_except_if is_JSONDecodeError
      (cookies <- lift (json_loads (match current_cookies self with
                                    | Some c => c
                                    | None => ""
                                    end)) ;;
       await (add_cookies cookies) ;;
       n <- lift (py_len cookies) ;;
       print (msg_loaded_cookies n) ;;
       ret true)
      (fun _ =>
         print msg_invalid_json ;;
         assign (w_current_cookies None) ;;
         sleep 10000 ;;
         ret false)
  else ret true.

(** The session once the cookies are in, lines 61-120: the page, its two
    callbacks, the first navigation, the liveness loop and the teardown. *)
Definition live_session (fuel : nat) : M W unit :=
  await new_page ;;
  assign (w_page true) ;;
  await page_route ;;
  emit a_on_response ;;
  print msg_navigating ;;
  try_except (await (page_goto VERTEX_URL (Some 60000)))
             (fun e => print (msg_navigation_failed e)) ;;
  assign (w_restart_requested false) ;;
  assign (w_refresh_needed false) ;;
  liveness_loop fuel ;;
  await browser_close ;;
  self <- get ;;
  if restart_requested self then print msg_restarting else ret tt.

(** The body of the [async with], lines 45-120. *)
Definition session (fuel : nat) : M W unit :=
  await chromium_launch ;;
  await new_context ;;
  loaded <- load_cookies ;;
  if loaded then live_session fuel else ret tt (* continue *).

(** The [try] block of the outer loop, lines 44-120. *)
Definition session_block (fuel : nat) : M W unit :=
  await playwright_start ;;
  finally (session fuel) (await playwright_stop).

(** The handler of the outer [try], lines 122-124. *)
Definition on_error (e : exn) : M W unit :=
  print (msg_error e) ;;
  sleep 10000.

(** One pass of the outer [while] body, lines 43-124. *)
Definition session_iteration (fuel : nat) : M W unit :=
  try_except (session_block fuel) on_error.

(** The outer [while self.is_running], line 42. *)
Fixpoint session_loop (fuel : nat) : M W unit :=
  match fuel with
  | O => starve
  | S fuel' =>
      self <- get ;;
      if is_running self then
        session_iteration fuel' ;;
        session_loop fuel'
      else ret tt
  end.

(** [start], lines 31-126. *)
Definition start (fuel : nat) : M W unit :=
  self <- get ;;
  if is_running self then ret tt
  else
    (if negb (truthy (current_cookies self)) then print msg_no_cookies else ret tt) ;;
    print msg_starting ;;
    assign (w_is_running true) ;;
    session_loop fuel ;;
    print msg_stopped.

End CloudHarvester.

(** ** Reading a recorded run *)

(** The effect of the recorded assignments on the attributes of [self],
    those of the dispatched callbacks included. *)
Fixpoint replay_action (a : action) (s : SessionState) : SessionState :=
  match a with
  | a_assign w => apply_write w s
  | a_callback _ inner => fold_left (fun s' a' => replay_action a' s') inner s
  | _ => s
  end.

Definition replay (tr : list action) (s : SessionState) : SessionState :=
  fold_left (fun s' a' => replay_action a' s') tr s.

Definition is_callback (a : action) : bool :=
  match a with a_callback _ _ => true | _ => false end.

(** The actions of the running coroutine itself, without the callbacks that
    ran during its suspensions. *)
Definition own (tr : list action) : list action :=
  filter (fun a => negb (is_callback a)) tr.

(** The callbacks that ran during the suspensions. *)
Definition callbacks (tr : list action) : list action :=
  filter is_callback tr.

(** Actions that are neither assignments nor callbacks: they leave [self]
    alone. *)
Definition inert (a : action) : bool :=
  match a with
  | a_assign _ | a_callback _ _ => false
  | _ => true
  end.

(** The first line of [perform_harvest], printed on every call of it and
    nowhere else. *)
Definition enters_harvest (a : action) : bool :=
  match a with a_print msg_attempting => true | _ => false end.

(** How often the interaction procedure was entered. *)
Definition invocations (tr : list action) : nat :=
  List.length (filter enters_harvest tr).

(** The calls made on intercepted routes. *)
Definition route_calls (tr : list action) : list route_call :=
  flat_map (fun a => match a with a_call (route_api rc) _ => [rc] | _ => [] end) tr.

(** Typing into the editor and pressing a key: the submission of
    [perform_harvest]. *)
Definition submits (a : action) : bool :=
  match a with
  | a_call (page_fill _ _) _ | a_call (page_press _ _) _ => true
  | _ => false
  end.

(** The bounded wait for the editor, line 208. *)
Definition editor_wait (a : action) : bool :=
  match a with
  | a_call (page_wait_for_selector editor_selector Visible 5000) _ => true
  | _ => false
  end.

(** What only cases B and C of the liveness loop do: reading the URL, the
    title, the clock and the sink, and navigating. *)
Definition later_branch (a : action) : bool :=
  match a with
  | a_url _ | a_title _ | a_time _ | a_latest_harvest _ => true
  | a_call (page_goto _ _) _ => true
  | _ => false
  end.

Definition navigates (a : action) : bool :=
  match a with a_call (page_goto _ _) _ => true | _ => false end.

(** What opens a page and starts a liveness loop in the session loop. *)
Definition opens_page (a : action) : bool :=
  match a with a_call new_page _ => true | _ => false end.

(** What the page test of case B records. *)
Definition page_test_action (a : action) : bool :=
  match a with a_url _ | a_title _ => true | _ => false end.

(** The log line of the handler of line 55. *)
Definition reports_invalid_json (a : action) : bool :=
  match a with a_print msg_invalid_json => true | _ => false end.

(** The injection of the cookies into the context, line 53. *)
Definition injects_cookies (a : action) : bool :=
  match a with a_call (add_cookies _) _ => true | _ => false end.

(** What the session does apart from reporting malformed cookies. *)
Definition session_action (a : action) : bool := negb (reports_invalid_json a).

(** Everything the callbacks can do. *)
Definition callback_action (a : action) : bool :=
  match a with
  | a_print (msg_received_cookies | msg_api_returned _ | msg_captured
            | msg_error_analyzing _) => true
  | a_update _ _ | a_time _ => true
  | a_assign (w_current_cookies (Some _) | w_restart_requested true
             | w_refresh_needed true | w_last_harvest_time _
             | w_last_login_retry_time 0 | w_is_running false) => true
  | a_call (route_api (rc_continue _)) _ => true
  | _ => false
  end.

(** Everything [perform_harvest] can do. *)
Definition harvest_action (a : action) : bool :=
  match a with
  | a_print (msg_attempting | msg_terms_dialog | msg_waiting_editor
            | msg_editor_not_found | msg_sending_hello | msg_interaction_failed _) => true
  | a_is_visible _ _ | a_sleep _ => true
  | a_call (page_evaluate _ | page_wait_for_selector _ _ _ | page_click _ _
           | page_fill _ _ | page_press _ _) _ => true
  | _ => false
  end.

(** What [perform_harvest] does before it waits for the editor. *)
Definition prelude_action (a : action) : bool :=
  harvest_action a && negb (submits a) && negb (editor_wait a)
  && negb (enters_harvest a).

(** A capture by the interceptor: a callback that assigned
    [last_harvest_time]. *)
Definition captures (a : action) : bool :=
  match a with
  | a_callback (cb_route _) inner =>
      existsb (fun i => match i with a_assign (w_last_harvest_time _) => true | _ => false end)
              inner
  | _ => false
  end.

(** The login-redirect detections of a run of the liveness loop, oldest
    first: case B reads the clock and then prints either its retry line or
    its expiry line.  [true] is a retry, [false] the terminal expiry. *)
Fixpoint detections (tr : list action) : list (Z * bool) :=
  match tr with
  | a_time t :: ((a_print msg_redirected_retry :: _) as rest) => (t, true) :: detections rest
  | a_time t :: ((a_print msg_cookies_expired :: _) as rest) => (t, false) :: detections rest
  | _ :: rest => detections rest
  | [] => []
  end.

(** The parts of the [try] block of [perform_harvest]: the dialogs
    (lines 165-200), the typing (lines 214-223), and the wait for the editor
    with what follows it (lines 202-223). *)
Section HarvestParts.
Context {W : Type} {E : Engine W}.

Definition harvest_prelude : M W unit :=
  shown <- page_is_visible dialog_content ;;
  (if shown then
     print msg_terms_dialog ;;
     try_except (await (page_evaluate js_scroll_dialog)) (fun _ => ret tt) ;;
     await (page_evaluate js_check_terms) ;;
     sleep 1000 ;;
     await (page_evaluate js_click_agree) ;;
     try_except (await (page_wait_for_selector dialog_content Hidden 3000))
                (fun _ => ret tt)
   else ret tt) ;;
  for_each popup_selectors
    (fun sel =>
       try_except
         (shown <- page_is_visible sel ;;
          if shown then await (page_click sel false) else ret tt)
         (fun _ => ret tt)).

Definition harvest_submit : M W unit :=
  await (page_click editor_selector true) ;;
  await (page_evaluate js_clear_editor) ;;
  await (page_fill editor_selector "Hello") ;;
  sleep 500 ;;
  print msg_sending_hello ;;
  await (page_press editor_selector "Enter") ;;
  sleep 3000.

Definition harvest_editor : M W unit :=
  print msg_waiting_editor ;;
  found <- try_except
             (await (page_wait_for_selector editor_selector Visible 5000) ;; ret true)
             (fun _ => print msg_editor_not_found ;; ret false) ;;
  if found then harvest_submit else ret tt.
End HarvestParts.

Section Sound.
Context {W : Type} {E : Engine W}.

(** A computation is sound for [P] when, from every machine, its own
    actions all satisfy [P], the attributes of [self] at its end are the
    replay of its record (nothing changes [self] off the record), and it
    does not run out of fuel. *)
Definition sound (P : action -> bool) {A} (p : M W A) : Prop :=
  forall m : Machine W,
    forallb (fun a => is_callback a || P a) (trace (p m)) = true
    /\ st (final (p m)) = replay (trace (p m)) (st m)
    /\ outcome (p m) <> Starved.

(** Soundness without the fuel clause, for the loops. *)
Definition recorded (P : action -> bool) {A} (p : M W A) : Prop :=
  forall m : Machine W,
    forallb (fun a => is_callback a || P a) (trace (p m)) = true
    /\ st (final (p m)) = replay (trace (p m)) (st m).
End Sound.

(** ** A scripted world, for concrete runs *)

(** The head of a script; the last entry repeats. *)
Definition next {A} (default : A) (script : list A) : A * list A :=
  match script with
  | [] => (default, [])
  | [x] => (x, [x])
  | x :: rest => (x, rest)
  end.

Record Sim : Type := {
  sim_clock : list Z;                    (* successive readings of time.time() *)
  sim_urls : list string;                (* successive values of page.url *)
  sim_title : PyResult string;           (* what page.title() gives *)
  sim_pending : list (list callback);    (* callbacks of the successive suspensions *)
  sim_raises : call -> bool;             (* the engine calls that raise *)
  sim_visible : selector -> bool;
  sim_sink_full : bool;                  (* cred_manager.latest_harvest is set *)
  sim_sink_raises : bool                 (* cred_manager.update raises *)
}.

Definition sim_with_clock (c : list Z) (w : Sim) : Sim :=
  {| sim_clock := c; sim_urls := sim_urls w; sim_title := sim_title w;
     sim_pending := sim_pending w; sim_raises := sim_raises w;
     sim_visible := sim_visible w; sim_sink_full := sim_sink_full w;
     sim_sink_raises := sim_sink_raises w |}.

Definition sim_with_urls (u : list string) (w : Sim) : Sim :=
  {| sim_clock := sim_clock w; sim_urls := u; sim_title := sim_title w;
     sim_pending := sim_pending w; sim_raises := sim_raises w;
     sim_visible := sim_visible w; sim_sink_full := sim_sink_full w;
     sim_sink_raises := sim_sink_raises w |}.

Definition sim_with_pending (p : list (list callback)) (w : Sim) : Sim :=
  {| sim_clock := sim_clock w; sim_urls := sim_urls w; sim_title := sim_title w;
     sim_pending := p; sim_raises := sim_raises w;
     sim_visible := sim_visible w; sim_sink_full := sim_sink_full w;
     sim_sink_raises := sim_sink_raises w |}.

Definition sim_with_sink_full (b : bool) (w : Sim) : Sim :=
  {| sim_clock := sim_clock w; sim_urls := sim_urls w; sim_title := sim_title w;
     sim_pending := sim_pending w; sim_raises := sim_raises w;
     sim_visible := sim_visible w; sim_sink_full := b;
     sim_sink_raises := sim_sink_raises w |}.

(** [json.loads] on the documents the concrete runs use: an empty array, a
    number, and text that is not JSON. *)
Definition sim_json_loads (s : string) : PyResult JSON :=
  if s =? "[]" then Ok (JArray [])
  else if s =? "5" then Ok (JNumber "5")
  else Err JSONDecodeError.

#[export] Instance sim_engine : Engine Sim := {|
  dispatch w :=
    match sim_pending w with
    | [] => ([], w)
    | cbs :: rest => (cbs, sim_with_pending rest w)
    end;
  perform c w :=
    (if sim_raises w c then Err (EngineError "engine") else Ok tt, w);
  is_visible sel w := (Ok (sim_visible w sel), w);
  title w := (sim_title w, w);
  url w := let (u, rest) := next "about:blank" (sim_urls w) in (u, sim_with_urls rest w);
  time_time w := let (t, rest) := next 0 (sim_clock w) in (t, sim_with_clock rest w);
  latest_harvest w := (sim_sink_full w, w);
  update data w :=
    if sim_sink_raises w then (Err (EngineError "sink"), w)
    else (Ok tt, sim_with_sink_full true w);
  json_loads := sim_json_loads
|}.

(** A world where every call succeeds, nothing is pending, the page is the
    console and the editor is there. *)
Definition calm : Sim :=
  {| sim_clock := [1700000000];
     sim_urls := [VERTEX_URL];
     sim_title := Ok "Vertex AI";
     sim_pending := [];
     sim_raises := fun _ => false;
     sim_visible := fun sel => match sel with editor_selector => true | _ => false end;
     sim_sink_full := false;
     sim_sink_raises := false |}.

Definition LOGIN_URL : string := "https://accounts.google.com/v3/signin/identifier".

(** A request the interceptor captures. *)
Definition generate_request : Request :=
  {| req_url := "https://console.cloud.google.com/m/batchGraphql";
     req_method := "POST";
     req_headers := [("authorization", "SAPISIDHASH 1")];
     req_post_data := Ok (Some "{StreamGenerateContent}") |}.

(** The controller while a session is live. *)
Definition live : SessionState :=
  {| is_running := true;
     last_harvest_time := 0;
     current_cookies := Some "[]";
     restart_requested := false;
     refresh_needed := false;
     last_login_retry_time := 0;
     page := true |}.

Definition sim_with_raises (f : call -> bool) (w : Sim) : Sim :=
  {| sim_clock := sim_clock w; sim_urls := sim_urls w; sim_title := sim_title w;
     sim_pending := sim_pending w; sim_raises := f;
     sim_visible := sim_visible w; sim_sink_full := sim_sink_full w;
     sim_sink_raises := sim_sink_raises w |}.

Definition sim_with_sink_raises (b : bool) (w : Sim) : Sim :=
  {| sim_clock := sim_clock w; sim_urls := sim_urls w; sim_title := sim_title w;
     sim_pending := sim_pending w; sim_raises := sim_raises w;
     sim_visible := sim_visible w; sim_sink_full := sim_sink_full w;
     sim_sink_raises := b |}.

Definition is_goto (c : call) : bool :=
  match c with page_goto _ _ => true | _ => false end.

Definition is_launch (c : call) : bool :=
  match c with chromium_launch => true | _ => false end.

Definition is_editor_wait (c : call) : bool :=
  match c with
  | page_wait_for_selector editor_selector Visible 5000 => true
  | _ => false
  end.

(** The page sits on the login page; the clock is read at second
    1700000000 and thirty seconds later. *)
Definition on_login : Sim :=
  sim_with_urls [LOGIN_URL] (sim_with_clock [1700000000; 1700000030] calm).

(** The same page when navigating away from it raises. *)
Definition stuck_on_login : Sim := sim_with_raises is_goto on_login.

(** A session that is redirected, recovers, harvests, and is redirected
    again: the page is on the login page in the first tick, on the console
    in the second and on the login page in the third; the request sent by
    the interaction of the second tick is intercepted during its last sleep
    (the fourteenth suspension of the run); the clock reads 1700000000 in
    the first tick, ten seconds later in the second, three more at the
    capture and 1700000025 in the third tick. *)
Definition redirected_twice : Sim :=
  sim_with_pending
    (repeat [] 13 ++ [[cb_route generate_request]])
    (sim_with_urls [LOGIN_URL; VERTEX_URL; LOGIN_URL]
       (sim_with_clock [1700000000; 1700000010; 1700000013; 1700000025] calm)).

(** The controller with a pending refresh. *)
Definition stale : SessionState := apply_write (w_refresh_needed true) live.

(** The controller holding cookies that are not JSON. *)
Definition bad_cookies : SessionState :=
  apply_write (w_current_cookies (Some "{not json")) live.

(** The controller that retried a login redirect at second 1699999990. *)
Definition retried : SessionState :=
  apply_write (w_last_login_retry_time 1699999990) live.

(** A world whose browser does not launch, and where the owner stops the
    harvester during the backoff (the fourth suspension). *)
Definition no_browser : Sim :=
  sim_with_pending [[]; []; []; [cb_stop]] (sim_with_raises is_launch calm).

(** ** Signals the callbacks raise *)

(** The callbacks by what they ask of the loops: [update_cookies] asks for
    a restart, the owner's stop ends both loops, and a response that
    [handle_response] marks (lines 132-133) asks for a refresh. *)
Definition is_update (cb : callback) : bool :=
  match cb with cb_update_cookies _ => true | _ => false end.

Definition is_stop (cb : callback) : bool :=
  match cb with cb_stop => true | _ => false end.

Definition is_rejection (cb : callback) : bool :=
  match cb with
  | cb_response response =>
      contains ENDPOINT (resp_url response)
      && ((resp_status response =? 401)%Z || (resp_status response =? 403)%Z)
  | _ => false
  end.

(** A recorded dispatch of a callback that [T] selects. *)
Definition dispatched (T : callback -> bool) (a : action) : bool :=
  match a with a_callback cb _ => T cb | _ => false end.

(** [not self.is_running], the exit condition of both loops, and the exit
    condition of the liveness loop, line 78. *)
Definition stopped (s : SessionState) : bool := negb (is_running s).

Definition loop_over (s : SessionState) : bool :=
  negb (is_running s && negb (restart_requested s)).

Definition ends_loop (cb : callback) : bool := is_update cb || is_stop cb.

Section Signals.
Context {W : Type} {E : Engine W}.

(** [G] is a signal of the callbacks [T] selects: each of them raises it
    and no callback lowers it. *)
Definition Signal (G : SessionState -> bool) (T : callback -> bool) : Prop :=
  (forall (cb : callback) (m : Machine W),
      G (st m) = true -> G (st (final (run_callback cb m))) = true)
  /\ (forall (cb : callback) (m : Machine W),
         T cb = true -> G (st (final (run_callback cb m))) = true).

(** A computation latches the signal when the signal is up at its end
    whenever it was up at its start or one of its suspensions dispatched a
    callback that raises it. *)
Definition latches (G : SessionState -> bool) (T : callback -> bool) {A}
    (p : M W A) : Prop :=
  forall m : Machine W,
    G (st m) = true \/ existsb (dispatched T) (trace (p m)) = true ->
    G (st (final (p m))) = true.

(** [G] holds through a computation unless one of its suspensions
    dispatched a callback that [T] selects. *)
Definition keeps (G : SessionState -> bool) (T : callback -> bool) {A}
    (p : M W A) : Prop :=
  forall m : Machine W,
    G (st m) = true -> existsb (dispatched T) (trace (p m)) = false ->
    G (st (final (p m))) = true.

(** Only the callbacks [T] selects can end [G]. *)
Definition Guarded (G : SessionState -> bool) (T : callback -> bool) : Prop :=
  forall (cb : callback) (m : Machine W),
    T cb = false -> G (st m) = true -> G (st (final (run_callback cb m))) = true.

(** Every exception a computation raises is the one of a recorded action
    that [Q] selects. *)
Definition blames (Q : exn -> action -> Prop) {A} (p : M W A) : Prop :=
  forall (m : Machine W) (e : exn),
    outcome (p m) = Raised e ->
    exists a, In a (trace (p m)) /\ Q e a.
End Signals.

(** ** More readings of a recorded run *)

(** The test of lines 141-144 as one condition on the request: it goes to
    the endpoint, by POST, and its body can be read, is not empty and holds
    a generation marker. *)
Definition qualifies (request : Request) : bool :=
  contains ENDPOINT (req_url request) && (req_method request =? "POST")%string
  && match req_post_data request with
     | Ok (Some body) =>
         negb (body =? "")%string
         && (contains MARKER_STREAM body || contains MARKER_GENERATE body)
     | _ => false
     end.

(** The interception of a request that qualifies. *)
Definition is_capture (cb : callback) : bool :=
  match cb with cb_route request => qualifies request | _ => false end.

(** The condition of the liveness loop, line 78. *)
Definition loop_on (s : SessionState) : bool :=
  is_running s && negb (restart_requested s).

(** The [harvest_data] of lines 146-151 for a request with body [body]. *)
Definition harvest_data_of (request : Request) (body : string) : Artifact :=
  {| art_url := req_url request;
     art_method := req_method request;
     art_headers := req_headers request;
     art_body := body |}.

(** Passing an artifact to the sink. *)
Definition forwards (a : action) : bool :=
  match a with a_update _ _ => true | _ => false end.

(** Entering and leaving the [async with] of line 44. *)
Definition enters_playwright (a : action) : bool :=
  match a with a_call playwright_start _ => true | _ => false end.

Definition leaves_playwright (a : action) : bool :=
  match a with a_call playwright_stop _ => true | _ => false end.

(** Everything the body of the [async with] may do: anything but entering
    or leaving it. *)
Definition inside_playwright (a : action) : bool :=
  negb (enters_playwright a) && negb (leaves_playwright a).

(** The key press of line 220. *)
Definition presses (a : action) : bool :=
  match a with a_call (page_press _ _) _ => true | _ => false end.

(** What can make the terms dialog part of [perform_harvest] raise: the
    visibility test of line 170 and the two scripts of lines 177 and 184,
    none of which has a handler of its own. *)
Definition terms_failure (e : exn) (a : action) : Prop :=
  a = a_is_visible dialog_content (Err e)
  \/ a = a_call (page_evaluate js_check_terms) (Err e)
  \/ a = a_call (page_evaluate js_click_agree) (Err e).

Section SessionParts.
Context {W : Type} {E : Engine W}.

(** Lines 93-116 of [start]: cases B and C of the liveness loop. *)
Definition later_cases : M W flow :=
  login <- on_login_page ;;
  f <- (if login then case_login else ret Fallthrough) ;;
  match f with
  | Fallthrough =>
      case_harvest ;;
      sleep 5000 ;;
      ret Fallthrough
  | Continue => ret Continue
  | Break => ret Break
  end.

(** Lines 78-120 of [start]: the liveness loop and the teardown. *)
Definition live_loop (fuel : nat) : M W unit :=
  liveness_loop fuel ;;
  await browser_close ;;
  self <- get ;;
  if restart_requested self then print msg_restarting else ret tt.
End SessionParts.

(** ** More scripted worlds *)

(** A response the observer marks for refresh. *)
Definition rejected_response : Response :=
  {| resp_url := "https://console.cloud.google.com/m/batchGraphql";
     resp_status := 401 |}.

(** The calm world with one callback pending for the first suspension. *)
Definition arriving (cb : callback) : Sim := sim_with_pending [[cb]] calm.

Definition sim_with_title (t : PyResult string) (w : Sim) : Sim :=
  {| sim_clock := sim_clock w; sim_urls := sim_urls w; sim_title := t;
     sim_pending := sim_pending w; sim_raises := sim_raises w;
     sim_visible := sim_visible w; sim_sink_full := sim_sink_full w;
     sim_sink_raises := sim_sink_raises w |}.

(** A page whose title cannot be read. *)
Definition no_title : Sim := sim_with_title (Err (EngineError "title")) calm.

(** The controller holding cookies that are JSON but no list. *)
Definition numeric_cookies : SessionState :=
  apply_write (w_current_cookies (Some "5")) live.

(** The controller as [__init__] leaves it, with cookies in the
    environment. *)
Definition fresh : SessionState := init (Some "[]").

(** ** Passes of the liveness loop *)

Section Passes.
Context {W : Type} {E : Engine W}.

(** The test of line 94 on what the page answers: the URL holds the
    identity-provider domain, or the title, which is read after one
    suspension, says sign in. *)
Definition shows_login (m : Machine W) : bool :=
  contains LOGIN_DOMAIN (fst (url (world m)))
  || match fst (title (world (final (suspend (Build_Machine (st m)
                                                (snd (url (world m))))))))
     with
     | Ok t => contains LOGIN_TITLE t
     | Err _ => false
     end.

(** A pass that reaches the body of case B: no refresh is pending and the
    page is the login page. *)
Definition detects (m : Machine W) : bool :=
  negb (refresh_needed (st m)) && shows_login m.

(** The controller after [n] passes of the loop body. *)
Fixpoint after_passes (n : nat) (m : Machine W) : Machine W :=
  match n with
  | O => m
  | S k => after_passes k (final (liveness_tick m))
  end.

(** [n] passes from [m] on, in none of which the login page is detected
    or a request captured. *)
Fixpoint uneventful (n : nat) (m : Machine W) : bool :=
  match n with
  | O => true
  | S k =>
      negb (detects m)
      && negb (existsb captures (trace (liveness_tick m)))
      && uneventful k (final (liveness_tick m))
  end.

(** [last_login_retry_time] is [v]. *)
Definition retry_at (v : Z) (s : SessionState) : bool :=
  (last_login_retry_time s =? v)%Z.

(** [G] holds through a computation unless its record has an action that
    [Q] selects. *)
Definition lasts (G : SessionState -> bool) (Q : action -> bool) {A}
    (p : M W A) : Prop :=
  forall m : Machine W,
    G (st m) = true -> existsb Q (trace (p m)) = false ->
    G (st (final (p m))) = true.

(** Only a callback whose record [Q] selects can end [G]. *)
Definition Lasting (G : SessionState -> bool) (Q : action -> bool) : Prop :=
  forall (cb : callback) (m : Machine W),
    Q (a_callback cb (trace (run_callback cb m))) = false ->
    G (st m) = true -> G (st (final (run_callback cb m))) = true.
End Passes.

(** ** Worlds for the branches *)

(** The scripted world behind a sink that accepts every artifact and holds
    none when it is asked, having passed it on or dropped it: [update]
    returns and [latest_harvest] is unset. *)
Record Forgetful : Type := { behind : Sim }.

#[export] Instance forgetful_engine : Engine Forgetful | 10 := {|
  dispatch w := let (cbs, w') := dispatch (behind w) in (cbs, Build_Forgetful w');
  perform c w := let (r, w') := perform c (behind w) in (r, Build_Forgetful w');
  is_visible sel w :=
    let (r, w') := is_visible sel (behind w) in (r, Build_Forgetful w');
  title w := let (r, w') := title (behind w) in (r, Build_Forgetful w');
  url w := let (u, w') := url (behind w) in (u, Build_Forgetful w');
  time_time w := let (t, w') := time_time (behind w) in (t, Build_Forgetful w');
  latest_harvest w := (false, w);
  update data w := (Ok tt, w);
  json_loads := sim_json_loads
|}.

(** A session on the console whose first interaction is answered: the
    request it sends is intercepted during its last sleep (the twelfth
    suspension of the run); the clock reads 1700000000 in the first pass,
    three seconds more at the capture and 1700000010 in the second pass. *)
Definition answered : Sim :=
  sim_with_pending
    (repeat [] 11 ++ [[cb_route generate_request]])
    (sim_with_clock [1700000000; 1700000003; 1700000010] calm).

(** A sink that holds a harvest from before the run, on a machine whose
    clock was never set: it reads 100. *)
Definition unset_clock : Sim :=
  sim_with_sink_full true (sim_with_clock [100] calm).

(** The page is on the login page in the first pass, on the console in the
    second and on the login page again in the third; the clock reads
    1700000000, ten seconds later and 1700000030. *)
Definition redirected_again : Sim :=
  sim_with_urls [LOGIN_URL; VERTEX_URL; LOGIN_URL]
    (sim_with_clock [1700000000; 1700000010; 1700000030] calm).

(** A reload that raises. *)
Definition is_reload (c : call) : bool :=
  match c with page_reload => true | _ => false end.

Definition no_reload : Sim := sim_with_raises is_reload calm.

(** The controller that captured a request at second 1699999000, and a
    sink that holds the harvest. *)
Definition harvested : SessionState :=
  apply_write (w_last_harvest_time 1699999000) live.

Definition stocked_sink : Sim := sim_with_sink_full true calm.

(** * Properties *)

(** ** Recorded runs account for every change of the attributes *)

Lemma replay_app (t1 t2 : list action) (s : SessionState) :
  replay (t1 ++ t2) s = replay t2 (replay t1 s).
Proof. unfold replay. apply fold_left_app. Qed.

Lemma own_app (t1 t2 : list action) : own (t1 ++ t2) = own t1 ++ own t2.
Proof. unfold own. apply filter_app. Qed.

Lemma callbacks_app (t1 t2 : list action) :
  callbacks (t1 ++ t2) = callbacks t1 ++ callbacks t2.
Proof. unfold callbacks. apply filter_app. Qed.

Lemma invocations_app (t1 t2 : list action) :
  invocations (t1 ++ t2) = (invocations t1 + invocations t2)%nat.
Proof. unfold invocations. rewrite filter_app, length_app. reflexivity. Qed.

Lemma route_calls_app (t1 t2 : list action) :
  route_calls (t1 ++ t2) = route_calls t1 ++ route_calls t2.
Proof. unfold route_calls. apply flat_map_app. Qed.

Lemma replay_inert (a : action) (s : SessionState) :
  inert a = true -> replay_action a s = s.
Proof. destruct a; simpl; intros H; try reflexivity; discriminate. Qed.

(** Own actions that are all inert: only the callbacks changed [self]. *)
Lemma replay_callbacks (tr : list action) (s : SessionState) :
  forallb (fun a => is_callback a || inert a) tr = true ->
  replay tr s = replay (callbacks tr) s.
Proof.
  revert s. induction tr as [|a tr IH]; intros s H; [reflexivity|].
  simpl in H. apply andb_prop in H. destruct H as [Ha Htr].
  unfold callbacks. simpl. unfold replay in *. simpl.
  destruct (is_callback a) eqn:Hc; simpl in *.
  - apply IH, Htr.
  - rewrite (replay_inert a s Ha). apply IH, Htr.
Qed.

(** A run without the actions [Q] forbids has none of them among its own. *)
Lemma own_none (Q : action -> bool) (tr : list action) :
  forallb (fun a => is_callback a || negb (Q a)) tr = true ->
  (forall cb inner, Q (a_callback cb inner) = false) ->
  filter Q tr = [].
Proof.
  intros H HQ. induction tr as [|a tr IH]; [reflexivity|].
  simpl in H. apply andb_prop in H. destruct H as [Ha Htr]. simpl.
  destruct (Q a) eqn:Hq.
  - destruct a; simpl in Ha; try discriminate. now rewrite HQ in Hq.
  - apply IH, Htr.
Qed.

Lemma forallb_weaken {A} (P Q : A -> bool) (l : list A) :
  (forall a, P a = true -> Q a = true) -> forallb P l = true -> forallb Q l = true.
Proof.
  intros HPQ H. rewrite forallb_forall in *. intros a Ha. apply HPQ, H, Ha.
Qed.

Lemma callbacks_only_own (tr : list action) :
  forallb is_callback tr = true -> own tr = [].
Proof.
  intros H. induction tr as [|a tr IH]; [reflexivity|].
  simpl in H. apply andb_prop in H. destruct H as [Ha Htr].
  unfold own. simpl. rewrite Ha. simpl. apply IH, Htr.
Qed.

Lemma callbacks_only_filter (Q : action -> bool) (tr : list action) :
  (forall cb inner, Q (a_callback cb inner) = false) ->
  forallb is_callback tr = true -> filter Q tr = [].
Proof.
  intros HQ H. induction tr as [|a tr IH]; [reflexivity|].
  simpl in H. apply andb_prop in H. destruct H as [Ha Htr]. simpl.
  destruct a; try discriminate. rewrite HQ. apply IH, Htr.
Qed.

Lemma callbacks_only_callbacks (tr : list action) :
  forallb is_callback tr = true -> callbacks tr = tr.
Proof.
  intros H. induction tr as [|a tr IH]; [reflexivity|].
  simpl in H. apply andb_prop in H. destruct H as [Ha Htr].
  unfold callbacks. simpl. rewrite Ha. f_equal. apply IH, Htr.
Qed.

(** ** Equations for running a coroutine *)

Section RunBasics.
Context {W : Type}.

Lemma run_eta {A} (r : Run W A) : Build_Run (outcome r) (final r) (trace r) = r.
Proof. destruct r; reflexivity. Qed.

Lemma outcome_prefixed {A} (tr : list action) (r : Run W A) :
  outcome (prefixed tr r) = outcome r.
Proof. destruct r; reflexivity. Qed.

Lemma final_prefixed {A} (tr : list action) (r : Run W A) :
  final (prefixed tr r) = final r.
Proof. destruct r; reflexivity. Qed.

Lemma trace_prefixed {A} (tr : list action) (r : Run W A) :
  trace (prefixed tr r) = tr ++ trace r.
Proof. destruct r; reflexivity. Qed.

Lemma prefixed_nil {A} (r : Run W A) : prefixed [] r = r.
Proof. destruct r; reflexivity. Qed.

Lemma prefixed_prefixed {A} (t1 t2 : list action) (r : Run W A) :
  prefixed t1 (prefixed t2 r) = prefixed (t1 ++ t2) r.
Proof. destruct r; simpl. now rewrite app_assoc. Qed.

Lemma bind_run {A B} (p : M W A) (f : A -> M W B) (m : Machine W) :
  bind p f m
  = match outcome (p m) with
    | Normal a => prefixed (trace (p m)) (f a (final (p m)))
    | Raised e => Build_Run (Raised e) (final (p m)) (trace (p m))
    | Starved => Build_Run Starved (final (p m)) (trace (p m))
    end.
Proof. unfold bind. destruct (p m) as [[a|e|] m' tr]; reflexivity. Qed.

Lemma try_except_if_run {A} (catches : exn -> bool) (p : M W A)
    (h : exn -> M W A) (m : Machine W) :
  try_except_if catches p h m
  = match outcome (p m) with
    | Raised e =>
        if catches e then prefixed (trace (p m)) (h e (final (p m))) else p m
    | _ => p m
    end.
Proof. unfold try_except_if. destruct (p m) as [[a|e|] m' tr]; reflexivity. Qed.

Lemma try_except_run {A} (p : M W A) (h : exn -> M W A) (m : Machine W) :
  try_except p h m
  = match outcome (p m) with
    | Raised e => prefixed (trace (p m)) (h e (final (p m)))
    | _ => p m
    end.
Proof. unfold try_except. now rewrite try_except_if_run. Qed.
End RunBasics.

Section SoundFacts.
Context {W : Type} {E : Engine W}.
Variable P : action -> bool.

Lemma sound_ret {A} (a : A) : sound P (@ret W A a).
Proof. intros m. repeat split; simpl; congruence. Qed.

Lemma sound_raise {A} (e : exn) : sound P (@raise W A e).
Proof. intros m. repeat split; simpl; congruence. Qed.

Lemma sound_get : sound P (@get W).
Proof. intros m. repeat split; simpl; congruence. Qed.

Lemma sound_lift {A} (r : PyResult A) : sound P (@lift W A r).
Proof. destruct r; [apply sound_ret | apply sound_raise]. Qed.

Lemma sound_emit (a : action) : inert a = true -> P a = true -> sound P (@emit W a).
Proof.
  intros Hi HP m. simpl. rewrite HP, orb_true_r. repeat split; try congruence.
  unfold replay. simpl. now rewrite replay_inert.
Qed.

Lemma sound_print (msg : message) : P (a_print msg) = true -> sound P (@print W msg).
Proof. intros HP. apply sound_emit; [reflexivity | exact HP]. Qed.

Lemma sound_assign (w : write) : P (a_assign w) = true -> sound P (@assign W w).
Proof. intros HP m. simpl. rewrite HP. repeat split; congruence. Qed.

Lemma sound_bind {A B} (p : M W A) (f : A -> M W B) :
  sound P p -> (forall a, sound P (f a)) -> sound P (bind p f).
Proof.
  intros Hp Hf m. rewrite bind_run. destruct (Hp m) as (H1 & H2 & H3).
  destruct (outcome (p m)) as [a|e|]; simpl; [|repeat split; auto; congruence|congruence].
  destruct (Hf a (final (p m))) as (H4 & H5 & H6).
  rewrite outcome_prefixed, final_prefixed, trace_prefixed.
  rewrite forallb_app, H1, H4, replay_app, <- H2. auto.
Qed.

Lemma sound_try_except_if {A} (catches : exn -> bool) (p : M W A) (h : exn -> M W A) :
  sound P p -> (forall e, sound P (h e)) -> sound P (try_except_if catches p h).
Proof.
  intros Hp Hh m. rewrite try_except_if_run. destruct (Hp m) as (H1 & H2 & H3).
  destruct (outcome (p m)) as [a|e|] eqn:Ho; [auto| |auto].
  destruct (catches e); [|auto].
  destruct (Hh e (final (p m))) as (H4 & H5 & H6).
  rewrite outcome_prefixed, final_prefixed, trace_prefixed.
  rewrite forallb_app, H1, H4, replay_app, <- H2. auto.
Qed.

Lemma sound_try_except {A} (p : M W A) (h : exn -> M W A) :
  sound P p -> (forall e, sound P (h e)) -> sound P (try_except p h).
Proof. apply sound_try_except_if. Qed.

Lemma sound_finally {A} (p : M W A) (q : M W unit) :
  sound P p -> sound P q -> sound P (finally p q).
Proof.
  intros Hp Hq m. unfold finally. destruct (Hp m) as (H1 & H2 & H3).
  destruct (Hq (final (p m))) as (H4 & H5 & H6).
  destruct (p m) as [o m' tr]. simpl in *.
  destruct (q m') as [o' m'' tr']. simpl in *.
  destruct o as [a|e|]; [| |congruence];
    destruct o' as [[]|e'|]; simpl; try congruence;
    rewrite forallb_app, H1, H4, replay_app, <- H2; repeat split; auto; congruence.
Qed.

Lemma sound_time : (forall t, P (a_time t) = true) -> sound P time.
Proof.
  intros HP m. unfold time. destruct (time_time (world m)) as [t w]. simpl.
  rewrite HP. repeat split; congruence.
Qed.

Lemma sound_page_url : (forall u, P (a_url u) = true) -> sound P page_url.
Proof.
  intros HP m. unfold page_url. destruct (url (world m)) as [u w]. simpl.
  rewrite HP. repeat split; congruence.
Qed.

Lemma sound_latest_harvest :
  (forall b, P (a_latest_harvest b) = true) -> sound P cred_manager_latest_harvest.
Proof.
  intros HP m. unfold cred_manager_latest_harvest.
  destruct (latest_harvest (world m)) as [b w]. simpl.
  rewrite HP. repeat split; congruence.
Qed.

Lemma sound_update (data : Artifact) :
  (forall r, P (a_update data r) = true) -> sound P (cred_manager_update data).
Proof.
  intros HP m. unfold cred_manager_update.
  destruct (update data (world m)) as [[[]|e] w]; simpl;
    rewrite HP; repeat split; congruence.
Qed.

Lemma sound_engine_call (c : call) :
  (forall r, P (a_call c r) = true) -> sound P (engine_call c).
Proof.
  intros HP m. unfold engine_call.
  destruct (perform c (world m)) as [[[]|e] w]; simpl;
    rewrite HP; repeat split; congruence.
Qed.
End SoundFacts.

(** Soundness is monotone in the predicate. *)
Lemma sound_weaken {W : Type} {E : Engine W} (P Q : action -> bool) {A} (p : M W A) :
  (forall a, P a = true -> Q a = true) -> sound P p -> sound Q p.
Proof.
  intros HPQ Hp m. destruct (Hp m) as (H1 & H2 & H3). repeat split; auto.
  revert H1. apply forallb_weaken. intros a Ha.
  destruct (is_callback a); simpl in *; auto.
Qed.

(** One step of a soundness proof: follow the shape of the program. *)
Ltac sound_step :=
  match goal with
  | |- sound _ (bind _ _) => apply sound_bind; [|intros]
  | |- sound _ (try_except _ _) => apply sound_try_except; [|intros]
  | |- sound _ (try_except_if _ _ _) => apply sound_try_except_if; [|intros]
  | |- sound _ (finally _ _) => apply sound_finally
  | |- sound _ (ret _) => apply sound_ret
  | |- sound _ (raise _) => apply sound_raise
  | |- sound _ get => apply sound_get
  | |- sound _ (lift _) => apply sound_lift
  | |- sound _ (print _) => apply sound_print; reflexivity
  | |- sound _ (emit _) => apply sound_emit; reflexivity
  | |- sound _ (assign _) => apply sound_assign; reflexivity
  | |- sound _ time => apply sound_time; intros; reflexivity
  | |- sound _ page_url => apply sound_page_url; intros; reflexivity
  | |- sound _ cred_manager_latest_harvest => apply sound_latest_harvest; intros; reflexivity
  | |- sound _ (cred_manager_update _) => apply sound_update; intros; reflexivity
  | |- sound _ (engine_call _) => apply sound_engine_call; intros; reflexivity
  | |- sound _ (if ?b then _ else _) => destruct b
  | |- sound _ (match ?x with _ => _ end) => destruct x
  | |- sound _ (let _ := _ in _) => cbv zeta
  end.

(** ** Tactics for running a coroutine on an arbitrary world *)

Ltac settled w := first [is_var w | match w with world ?m => is_var m end].

(** Name the answer of the outermost pending question to the world. *)
Ltac answer :=
  match goal with
  | |- context [update ?d ?w] =>
      settled w; destruct (update d w) as [[[]|?err] ?w'] eqn:?
  | |- context [time_time ?w] =>
      settled w; destruct (time_time w) as [?t ?w'] eqn:?
  | |- context [perform ?c ?w] =>
      settled w; destruct (perform c w) as [[[]|?err] ?w'] eqn:?
  | |- context [url ?w] =>
      settled w; destruct (url w) as [?u ?w'] eqn:?
  | |- context [title ?w] =>
      settled w; destruct (title w) as [[?t|?err] ?w'] eqn:?
  | |- context [latest_harvest ?w] =>
      settled w; destruct (latest_harvest w) as [?b ?w'] eqn:?
  | |- context [is_visible ?s ?w] =>
      settled w; destruct (is_visible s w) as [[?b|?err] ?w'] eqn:?
  end.

Ltac unfold_py :=
  unfold bind, try_except, try_except_if, finally, lift, cred_manager_update,
    cred_manager_latest_harvest, time, page_url, engine_call, print, emit,
    assign, get, ret, raise, starve.

(** Decide the outermost open condition. *)
Ltac branch :=
  match goal with
  | |- context [if ?c then _ else _] =>
      match type of c with bool => destruct c eqn:? end
  end.

Ltac run_py := unfold_py; simpl; repeat (first [answer | branch]; simpl).

Section Suspension.
Context {W : Type} {E : Engine W}.

Lemma sound_update_cookies (c : string) : sound callback_action (@update_cookies W c).
Proof. unfold update_cookies. repeat sound_step. Qed.

Lemma sound_handle_response (r : Response) : sound callback_action (@handle_response W r).
Proof. unfold handle_response. repeat sound_step. Qed.

Lemma sound_handle_route (r : Request) : sound callback_action (handle_route r).
Proof. unfold handle_route. repeat sound_step. Qed.

Lemma sound_run_callback (cb : callback) : sound callback_action (run_callback cb).
Proof.
  destruct cb; simpl.
  - apply sound_handle_route.
  - apply sound_handle_response.
  - apply sound_update_cookies.
  - repeat sound_step.
Qed.

(** A callback never clears [refresh_needed]. *)
Lemma run_callback_keeps_refresh (cb : callback) (m : Machine W) :
  refresh_needed (st m) = true ->
  refresh_needed (st (final (run_callback cb m))) = true.
Proof.
  intros H. destruct cb as [request|response| |]; unfold run_callback; try exact H.
  - unfold handle_route.
    destruct (req_post_data request) as [[body|]|e]; run_py; exact H.
  - unfold handle_response. run_py; first [reflexivity | exact H].
Qed.

Lemma deliver_all_normal (cbs : list callback) (m : Machine W) :
  outcome (deliver_all cbs m) = Normal tt
  /\ forallb is_callback (trace (deliver_all cbs m)) = true
  /\ (refresh_needed (st m) = true ->
      refresh_needed (st (final (deliver_all cbs m))) = true).
Proof.
  revert m. induction cbs as [|cb rest IH]; intros m; simpl.
  - repeat split; auto.
  - pose proof (run_callback_keeps_refresh cb m) as Hk.
    unfold bind, deliver. destruct (run_callback cb m) as [o m' inner]. simpl in Hk.
    destruct (IH m') as (H1 & H2 & H3).
    destruct (deliver_all rest m') as [o' m'' tr']. simpl in *.
    repeat split; auto.
Qed.

Lemma suspend_normal (m : Machine W) : outcome (suspend m) = Normal tt.
Proof.
  unfold suspend. destruct (dispatch (world m)) as [cbs w].
  apply deliver_all_normal.
Qed.

Lemma suspend_callbacks (m : Machine W) :
  forallb is_callback (trace (suspend m)) = true.
Proof.
  unfold suspend. destruct (dispatch (world m)) as [cbs w].
  apply deliver_all_normal.
Qed.

Lemma suspend_keeps_refresh (m : Machine W) :
  refresh_needed (st m) = true -> refresh_needed (st (final (suspend m))) = true.
Proof.
  unfold suspend. destruct (dispatch (world m)) as [cbs w].
  apply (deliver_all_normal cbs (Build_Machine (st m) w)).
Qed.

Variable P : action -> bool.

Lemma sound_deliver (cb : callback) : sound P (deliver cb).
Proof.
  intros m. unfold deliver.
  destruct (sound_run_callback cb m) as (_ & H & _).
  destruct (run_callback cb m) as [o m' inner]. simpl in *.
  repeat split; try congruence. exact H.
Qed.

Lemma sound_deliver_all (cbs : list callback) : sound P (deliver_all cbs).
Proof.
  induction cbs as [|cb rest IH]; simpl.
  - apply sound_ret.
  - apply sound_bind; [apply sound_deliver | intros; exact IH].
Qed.

Lemma sound_suspend : sound P suspend.
Proof.
  intros m. unfold suspend. destruct (dispatch (world m)) as [cbs w].
  apply (sound_deliver_all cbs (Build_Machine (st m) w)).
Qed.

Lemma sound_await (c : call) : (forall r, P (a_call c r) = true) -> sound P (await c).
Proof.
  intros HP. unfold await. apply sound_bind; [apply sound_suspend|intros].
  now apply sound_engine_call.
Qed.

Lemma sound_sleep (ms : Z) : P (a_sleep ms) = true -> sound P (sleep ms).
Proof.
  intros HP. unfold sleep. apply sound_bind; [apply sound_suspend|intros].
  now apply sound_emit.
Qed.

Lemma sound_page_is_visible (sel : selector) :
  (forall r, P (a_is_visible sel r) = true) -> sound P (page_is_visible sel).
Proof.
  intros HP. unfold page_is_visible. apply sound_bind; [apply sound_suspend|intros].
  intros m. destruct (is_visible sel (world m)) as [[b|e] w]; simpl;
    rewrite HP; repeat split; congruence.
Qed.

Lemma sound_page_title : (forall r, P (a_title r) = true) -> sound P page_title.
Proof.
  intros HP. unfold page_title. apply sound_bind; [apply sound_suspend|intros].
  intros m. destruct (title (world m)) as [[t|e] w]; simpl;
    rewrite HP; repeat split; congruence.
Qed.

Lemma sound_for_each {A} (xs : list A) (body : A -> M W unit) :
  (forall x, sound P (body x)) -> sound P (for_each xs body).
Proof.
  intros Hb. induction xs as [|x rest IH]; simpl.
  - apply sound_ret.
  - apply sound_bind; [apply Hb | intros; exact IH].
Qed.
End Suspension.

Ltac sound_step' :=
  match goal with
  | |- sound _ (await _) => apply sound_await; intros; reflexivity
  | |- sound _ (sleep _) => apply sound_sleep; reflexivity
  | |- sound _ (page_is_visible _) => apply sound_page_is_visible; intros; reflexivity
  | |- sound _ page_title => apply sound_page_title; intros; reflexivity
  | |- sound _ (for_each _ _) => apply sound_for_each; intros
  | |- sound _ suspend => apply sound_suspend
  | _ => sound_step
  end.

Ltac prove_sound := repeat sound_step'.

(** ** The request interceptor and the response observer *)

Lemma marker_nonempty (body : string) :
  contains MARKER_STREAM body || contains MARKER_GENERATE body = true ->
  (body =? "")%string = false.
Proof. destruct body; [discriminate | reflexivity]. Qed.

Section CallbackFacts.
Context {W : Type} {E : Engine W}.

(** The inspection of [handle_route] never raises, whatever the request
    and the sink do, and the handler ends with its one call on the route. *)
Lemma handle_route_shape (request : Request) (m : Machine W) :
  exists pre r,
    trace (handle_route request m)
    = pre ++ [a_call (route_api (rc_continue no_overrides)) r]
    /\ route_calls pre = []
    /\ outcome (handle_route request m)
       = match r with Ok _ => Normal tt | Err e => Raised e end.
Proof.
  unfold handle_route.
  destruct (req_post_data request) as [[body|]|e]; run_py;
    match goal with
    | |- exists pre r, ?tr = _ /\ _ => exists (removelast tr)
    end; eexists; repeat split; reflexivity.
Qed.

(** C3: for every intercepted request and every world, [handle_route]
    calls [route.continue_()] exactly once, with no override, and makes no
    other call on the route (no abort, fulfil or fallback): the list of
    its route calls is that one call, whether or not the request matches
    and whether or not reading the body or the sink raises.  The continue
    call is its last action and alone decides how the handler ends. *)
Theorem handle_route_continues_once (request : Request) (m : Machine W) :
  route_calls (trace (handle_route request m)) = [rc_continue no_overrides]
  /\ exists pre r,
       trace (handle_route request m)
       = pre ++ [a_call (route_api (rc_continue no_overrides)) r]
       /\ outcome (handle_route request m)
          = match r with Ok _ => Normal tt | Err e => Raised e end.
Proof.
  destruct (handle_route_shape request m) as (pre & r & Htr & Hpre & Hout).
  split.
  - rewrite Htr, route_calls_app, Hpre. reflexivity.
  - exists pre, r. split; assumption.
Qed.

(** C4: [handle_response] never raises; it sets [refresh_needed] when the
    URL of the response contains the endpoint substring and the status is
    401 or 403, and otherwise leaves every attribute as it was.  The world
    is not touched. *)
Theorem handle_response_marks_refresh (response : Response) (m : Machine W) :
  outcome (handle_response response m) = Normal tt
  /\ st (final (handle_response response m))
     = (if contains ENDPOINT (resp_url response)
           && ((resp_status response =? 401)%Z || (resp_status response =? 403)%Z)
        then apply_write (w_refresh_needed true) (st m)
        else st m)
  /\ world (final (handle_response response m)) = world m.
Proof.
  unfold handle_response.
  destruct (contains ENDPOINT (resp_url response));
    destruct ((resp_status response =? 401)%Z || (resp_status response =? 403)%Z);
    repeat split; reflexivity.
Qed.

(** C6: a request to the endpoint, with method POST and a body holding a
    generation marker, whose forwarding the sink accepts: the handler
    passes url, method, headers and body to the sink before anything else
    happens, then reads the clock, stores the reading in
    [last_harvest_time] and resets [last_login_retry_time] to 0. *)
Theorem handle_route_captures (request : Request) (body : string)
    (m : Machine W) (w1 : W) :
  contains ENDPOINT (req_url request) = true ->
  req_method request = "POST" ->
  req_post_data request = Ok (Some body) ->
  contains MARKER_STREAM body || contains MARKER_GENERATE body = true ->
  let data := {| art_url := req_url request; art_method := req_method request;
                 art_headers := req_headers request; art_body := body |} in
  update data (world m) = (Ok tt, w1) ->
  let now := fst (time_time w1) in
  let r := handle_route request m in
  (exists c,
      trace r = [a_print msg_captured; a_update data (Ok tt); a_time now;
                 a_assign (w_last_harvest_time now);
                 a_assign (w_last_login_retry_time 0);
                 a_call (route_api (rc_continue no_overrides)) c])
  /\ st (final r)
     = apply_write (w_last_login_retry_time 0)
         (apply_write (w_last_harvest_time now) (st m))
  /\ last_harvest_time (st (final r)) = now
  /\ last_login_retry_time (st (final r)) = 0.
Proof.
  intros Hurl Hmeth Hbody Hmark data Hupd now r.
  subst r now data. unfold handle_route.
  rewrite Hurl, Hbody, Hmeth. rewrite Hmeth in Hupd.
  unfold_py. cbv beta iota zeta.
  rewrite String.eqb_refl, (marker_nonempty body Hmark), Hmark.
  cbn [andb negb]. cbv beta iota zeta. rewrite Hupd. cbn.
  destruct (time_time w1) as [t w2]. cbn.
  destruct (perform (route_api (rc_continue no_overrides)) w2) as [c w3]. cbn.
  repeat split. exists c. reflexivity.
Qed.

(** C10: the same request when the sink raises: the exception is caught
    and logged, no attribute of [self] changes (neither
    [last_harvest_time] nor [last_login_retry_time] is assigned), and the
    request is continued. *)
Theorem handle_route_sink_failure (request : Request) (body : string)
    (m : Machine W) (w1 : W) (e : exn) :
  contains ENDPOINT (req_url request) = true ->
  req_method request = "POST" ->
  req_post_data request = Ok (Some body) ->
  contains MARKER_STREAM body || contains MARKER_GENERATE body = true ->
  let data := {| art_url := req_url request; art_method := req_method request;
                 art_headers := req_headers request; art_body := body |} in
  update data (world m) = (Err e, w1) ->
  let r := handle_route request m in
  (exists c,
      trace r = [a_print msg_captured; a_update data (Err e);
                 a_print (msg_error_analyzing e);
                 a_call (route_api (rc_continue no_overrides)) c])
  /\ st (final r) = st m
  /\ route_calls (trace r) = [rc_continue no_overrides].
Proof.
  intros Hurl Hmeth Hbody Hmark data Hupd r.
  subst r data. unfold handle_route.
  rewrite Hurl, Hbody, Hmeth. rewrite Hmeth in Hupd.
  unfold_py. cbv beta iota zeta.
  rewrite String.eqb_refl, (marker_nonempty body Hmark), Hmark.
  cbn [andb negb]. cbv beta iota zeta. rewrite Hupd. cbn.
  destruct (perform (route_api (rc_continue no_overrides)) w1) as [c w2]. cbn.
  repeat split. exists c. reflexivity.
Qed.
End CallbackFacts.

(** ** More equations for running a coroutine *)

Section RunEquations.
Context {W : Type} {E : Engine W}.

Lemma bind_assoc {A B C} (p : M W A) (f : A -> M W B) (g : B -> M W C) (m : Machine W) :
  bind (bind p f) g m = bind p (fun a => bind (f a) g) m.
Proof.
  unfold bind. destruct (p m) as [[a|e|] m1 t1]; simpl; auto.
  destruct (f a m1) as [[b|e|] m2 t2]; simpl; auto.
  destruct (g b m2) as [o m3 t3]; simpl. now rewrite app_assoc.
Qed.

Lemma bind_ext {A B} (p : M W A) (f g : A -> M W B) (m : Machine W) :
  (forall a m', f a m' = g a m') -> bind p f m = bind p g m.
Proof.
  intros H. unfold bind. destruct (p m) as [[a|e|] m1 t1]; auto. now rewrite H.
Qed.

Lemma try_except_ext {A} (p q : M W A) (h : exn -> M W A) (m : Machine W) :
  p m = q m -> try_except p h m = try_except q h m.
Proof. intros H. unfold try_except, try_except_if. now rewrite H. Qed.

Lemma bind_print {B} (msg : message) (f : unit -> M W B) (m : Machine W) :
  bind (print msg) f m = prefixed [a_print msg] (f tt m).
Proof. reflexivity. Qed.

Lemma bind_emit {B} (a : action) (f : unit -> M W B) (m : Machine W) :
  bind (emit a) f m = prefixed [a] (f tt m).
Proof. reflexivity. Qed.

Lemma bind_get {B} (f : SessionState -> M W B) (m : Machine W) :
  bind get f m = f (st m) m.
Proof. unfold bind, get. apply prefixed_nil. Qed.

Lemma bind_ret {A B} (a : A) (f : A -> M W B) (m : Machine W) :
  bind (ret a) f m = f a m.
Proof. unfold bind, ret. apply prefixed_nil. Qed.

Lemma bind_assign {B} (w : write) (f : unit -> M W B) (m : Machine W) :
  bind (assign w) f m
  = prefixed [a_assign w] (f tt (Build_Machine (apply_write w (st m)) (world m))).
Proof. reflexivity. Qed.

Lemma bind_normal {A B} (p : M W A) (f : A -> M W B) (m : Machine W) (a : A) :
  outcome (p m) = Normal a ->
  bind p f m = prefixed (trace (p m)) (f a (final (p m))).
Proof. intros H. rewrite bind_run, H. reflexivity. Qed.

Lemma bind_raised {A B} (p : M W A) (f : A -> M W B) (m : Machine W) (e : exn) :
  outcome (p m) = Raised e ->
  bind p f m = Build_Run (Raised e) (final (p m)) (trace (p m)).
Proof. intros H. rewrite bind_run, H. reflexivity. Qed.

Lemma bind_suspend {B} (f : unit -> M W B) (m : Machine W) :
  bind suspend f m = prefixed (trace (suspend m)) (f tt (final (suspend m))).
Proof. apply bind_normal, suspend_normal. Qed.

(** [await] and [sleep] in front of a continuation. *)
Lemma bind_await {B} (c : call) (f : unit -> M W B) (m : Machine W) :
  bind (await c) f m
  = prefixed (trace (suspend m)) (bind (engine_call c) f (final (suspend m))).
Proof. unfold await. now rewrite bind_assoc, bind_suspend. Qed.

Lemma bind_sleep {B} (ms : Z) (f : unit -> M W B) (m : Machine W) :
  bind (sleep ms) f m
  = prefixed (trace (suspend m) ++ [a_sleep ms]) (f tt (final (suspend m))).
Proof.
  unfold sleep. rewrite bind_assoc, bind_suspend, bind_emit.
  apply prefixed_prefixed.
Qed.

Lemma sleep_run (ms : Z) (m : Machine W) :
  sleep ms m
  = Build_Run (Normal tt) (final (suspend m)) (trace (suspend m) ++ [a_sleep ms]).
Proof. unfold sleep. rewrite bind_suspend. reflexivity. Qed.

(** A [try] block that starts with [p]. *)
Lemma try_bind_run {A B} (p : M W A) (k : A -> M W B) (h : exn -> M W B) (m : Machine W) :
  try_except (bind p k) h m
  = match outcome (p m) with
    | Normal a => prefixed (trace (p m)) (try_except (k a) h (final (p m)))
    | Raised e => prefixed (trace (p m)) (h e (final (p m)))
    | Starved => Build_Run Starved (final (p m)) (trace (p m))
    end.
Proof.
  unfold try_except, try_except_if, bind.
  destruct (p m) as [[a|e|] m1 t1]; simpl; auto.
  destruct (k a m1) as [[b|e|] m2 t2]; simpl; auto.
  destruct (h e m2) as [o m3 t3]; simpl. now rewrite app_assoc.
Qed.

(** An action that soundness for [P] rules out is not in the record. *)
Lemma sound_not_in (P : action -> bool) (tr : list action) (a : action) :
  forallb (fun x => is_callback x || P x) tr = true ->
  is_callback a = false -> P a = false -> ~ In a tr.
Proof.
  intros H Hc HP Hin. rewrite forallb_forall in H. specialize (H a Hin).
  rewrite Hc, HP in H. discriminate.
Qed.

Lemma callbacks_not_in (tr : list action) (a : action) :
  forallb is_callback tr = true -> is_callback a = false -> ~ In a tr.
Proof.
  intros H Hc Hin. rewrite forallb_forall in H. specialize (H a Hin). congruence.
Qed.
End RunEquations.

(** Split a membership in a concatenation into its cases. *)
Ltac in_cases H :=
  repeat match type of H with
         | In _ (_ ++ _) => apply in_app_or in H; destruct H as [H|H]
         | In _ (_ :: _) => destruct H as [H|H]
         | In _ [] => destruct H
         | _ \/ _ => destruct H as [H|H]
         | False => destruct H
         end.

(** A membership that soundness or the shape of a suspension rules out. *)
Ltac absurd_in H :=
  match type of H with
  | In ?a (trace (suspend ?m)) =>
      exact (callbacks_not_in _ a (suspend_callbacks m) eq_refl H)
  | In ?a ?tr =>
      first
        [ match goal with
          | Hs : forallb (fun x => is_callback x || _) tr = true |- _ =>
              exact (sound_not_in _ tr a Hs eq_refl eq_refl H)
          end
        | match goal with
          | Hs : forallb is_callback tr = true |- _ =>
              exact (callbacks_not_in tr a Hs eq_refl H)
          end ]
  end.

(** ** The interaction procedure *)

Section Interaction.
Context {W : Type} {E : Engine W}.

Lemma perform_harvest_run (m : Machine W) :
  page (st m) = true ->
  perform_harvest m
  = prefixed [a_print msg_attempting]
      (try_except (harvest_prelude ;; harvest_editor)
                  (fun e => print (msg_interaction_failed e)) m).
Proof.
  intros Hp. unfold perform_harvest.
  rewrite bind_print, bind_get, Hp. cbn [negb]. cbv iota. f_equal.
  apply try_except_ext. unfold harvest_prelude. rewrite bind_assoc.
  apply bind_ext. intros shown m'. rewrite bind_assoc. reflexivity.
Qed.

Lemma perform_harvest_no_page (m : Machine W) :
  page (st m) = false ->
  perform_harvest m = Build_Run (Normal tt) m [a_print msg_attempting].
Proof.
  intros Hp. unfold perform_harvest.
  rewrite bind_print, bind_get, Hp. reflexivity.
Qed.

Lemma sound_perform_harvest : sound harvest_action perform_harvest.
Proof. unfold perform_harvest. prove_sound. Qed.

Lemma sound_harvest_prelude : sound prelude_action harvest_prelude.
Proof. unfold harvest_prelude. prove_sound. Qed.

Lemma sound_harvest_submit :
  sound (fun a => harvest_action a && negb (editor_wait a) && negb (enters_harvest a))
        harvest_submit.
Proof. unfold harvest_submit. prove_sound. Qed.

Lemma sound_harvest_body :
  sound harvest_action (harvest_prelude ;; harvest_editor).
Proof. unfold harvest_prelude, harvest_editor, harvest_submit. prove_sound. Qed.

(** The procedure never raises: its outer handler catches everything. *)
Lemma perform_harvest_normal (m : Machine W) :
  outcome (perform_harvest m) = Normal tt.
Proof.
  destruct (page (st m)) eqn:Hp.
  - rewrite (perform_harvest_run m Hp), outcome_prefixed, try_except_run.
    destruct (sound_harvest_body m) as (_ & _ & Hns).
    destruct (outcome ((harvest_prelude ;; harvest_editor) m)) as [[]|e|] eqn:Ho;
      [exact Ho | now rewrite outcome_prefixed | congruence].
  - now rewrite (perform_harvest_no_page m Hp).
Qed.

(** Every call of the procedure prints its first line once. *)
Lemma perform_harvest_invocations (m : Machine W) :
  invocations (trace (perform_harvest m)) = 1%nat.
Proof.
  destruct (page (st m)) eqn:Hp.
  - rewrite (perform_harvest_run m Hp), trace_prefixed, invocations_app.
    assert (Hs : sound (fun a => harvest_action a && negb (enters_harvest a))
                       (try_except (harvest_prelude ;; harvest_editor)
                                   (fun e => print (msg_interaction_failed e)))).
    { unfold harvest_prelude, harvest_editor, harvest_submit. prove_sound. }
    destruct (Hs m) as (Hall & _ & _).
    unfold invocations at 2. rewrite (own_none enters_harvest); [reflexivity| |reflexivity].
    revert Hall. apply forallb_weaken. intros a Ha.
    destruct (is_callback a); simpl in *; [reflexivity|].
    apply andb_prop in Ha. apply Ha.
  - now rewrite (perform_harvest_no_page m Hp).
Qed.

(** The procedure assigns no attribute: at its end [self] is what the
    callbacks dispatched meanwhile made of it. *)
Lemma perform_harvest_frame (m : Machine W) :
  st (final (perform_harvest m)) = replay (callbacks (trace (perform_harvest m))) (st m)
  /\ forallb (fun a => is_callback a || inert a) (trace (perform_harvest m)) = true.
Proof.
  destruct (sound_perform_harvest m) as (Hall & Hst & _).
  assert (Hi : forallb (fun a => is_callback a || inert a) (trace (perform_harvest m)) = true).
  { revert Hall. apply forallb_weaken. intros a Ha.
    destruct a; simpl in *; try reflexivity; discriminate. }
  split; [|exact Hi]. rewrite Hst. now apply replay_callbacks.
Qed.

(** The procedure does nothing that only cases B and C of the loop do. *)
Lemma perform_harvest_no_later_branch (m : Machine W) :
  forallb (fun a => negb (later_branch a)) (trace (perform_harvest m)) = true.
Proof.
  destruct (sound_perform_harvest m) as (Hall & _ & _).
  revert Hall. apply forallb_weaken. intros a Ha.
  destruct a as [| c r | | | | | | | | | |]; simpl in *; try reflexivity; try discriminate.
  destruct c; simpl in *; try reflexivity; discriminate.
Qed.

(** The wait for the editor and what follows it. *)
Lemma harvest_editor_run (m : Machine W) :
  let s := suspend m in
  let c := page_wait_for_selector editor_selector Visible 5000 in
  harvest_editor m
  = match perform c (world (final s)) with
    | (Ok _, w) =>
        prefixed (a_print msg_waiting_editor :: trace s ++ [a_call c (Ok tt)])
                 (harvest_submit (Build_Machine (st (final s)) w))
    | (Err e, w) =>
        Build_Run (Normal tt) (Build_Machine (st (final s)) w)
                  (a_print msg_waiting_editor
                   :: trace s ++ [a_call c (Err e); a_print msg_editor_not_found])
    end.
Proof.
  intros s c. unfold harvest_editor. rewrite bind_print.
  rewrite bind_run, try_bind_run. unfold await. rewrite bind_suspend. fold s.
  rewrite outcome_prefixed, final_prefixed, trace_prefixed.
  unfold engine_call. fold c.
  destruct (perform c (world (final s))) as [[[]|e] w]; cbn.
  - rewrite app_nil_r. destruct (harvest_submit _) as [o m' tr]. reflexivity.
  - rewrite app_nil_r, <- app_assoc. reflexivity.
Qed.

(** The shape of a run whose wait for the editor raised. *)
Lemma editor_timeout_trace (m : Machine W) (e : exn) :
  let c := page_wait_for_selector editor_selector Visible 5000 in
  In (a_call c (Err e)) (trace (perform_harvest m)) ->
  exists tp ts,
    forallb (fun a => is_callback a || prelude_action a) tp = true
    /\ forallb is_callback ts = true
    /\ trace (perform_harvest m)
       = a_print msg_attempting
         :: tp ++ a_print msg_waiting_editor
         :: ts ++ [a_call c (Err e); a_print msg_editor_not_found].
Proof.
  intros c Hin.
  destruct (page (st m)) eqn:Hp.
  2:{ rewrite (perform_harvest_no_page m Hp) in Hin. simpl in Hin.
      destruct Hin as [Hin|[]]; discriminate. }
  rewrite (perform_harvest_run m Hp), trace_prefixed, try_bind_run in *.
  destruct (sound_harvest_prelude m) as (Hpre & _ & Hns).
  destruct (outcome (harvest_prelude m)) as [[]|e0|] eqn:Ho.
  - rewrite trace_prefixed, try_except_run in *.
    pose proof (harvest_editor_run (final (harvest_prelude m))) as Hrun.
    cbv zeta in Hrun. fold c in Hrun.
    pose proof (suspend_callbacks (final (harvest_prelude m))) as Hcb.
    destruct (perform c (world (final (suspend (final (harvest_prelude m))))))
      as [[[]|e'] w'].
    + exfalso. rewrite Hrun in Hin. clear Hrun.
      match type of Hin with
      | context [harvest_submit ?m2] =>
          destruct (sound_harvest_submit m2) as (Hsub & _ & _);
          destruct (harvest_submit m2) as [o m3 tr3]
      end.
      simpl in Hsub.
      destruct o; simpl in Hin; in_cases Hin;
        first [ discriminate | absurd_in Hin ].
    + rewrite Hrun in *. clear Hrun. simpl in Hin. simpl.
      assert (He : e' = e).
      { in_cases Hin;
          first [ congruence | exfalso; absurd_in Hin ]. }
      subst e'.
      exists (trace (harvest_prelude m)),
             (trace (suspend (final (harvest_prelude m)))).
      repeat split; auto.
  - exfalso. rewrite trace_prefixed in Hin. simpl in Hin. in_cases Hin;
      first [ discriminate | absurd_in Hin ].
  - congruence.
Qed.

(** C9: a run of the interaction procedure in which the bounded wait for
    the editor raised (the editor did not become visible in time).  The
    procedure returns normally; its last two actions are that wait and
    the log line; nothing was typed or submitted (no fill, no key press);
    it made no assignment, and the attributes of [self] at its end are
    the initial ones as changed by the callbacks dispatched meanwhile and
    by nothing else.  With no callback dispatched, [self] is unchanged,
    [refresh_needed] included. *)
Theorem perform_harvest_editor_timeout (m : Machine W) (e : exn) :
  let r := perform_harvest m in
  In (a_call (page_wait_for_selector editor_selector Visible 5000) (Err e)) (trace r) ->
  outcome r = Normal tt
  /\ (exists pre,
         own (trace r)
         = pre ++ [a_call (page_wait_for_selector editor_selector Visible 5000) (Err e);
                   a_print msg_editor_not_found])
  /\ forallb (fun a => negb (submits a)) (trace r) = true
  /\ forallb (fun a => is_callback a || inert a) (trace r) = true
  /\ st (final r) = replay (callbacks (trace r)) (st m)
  /\ (callbacks (trace r) = [] -> st (final r) = st m).
Proof.
  intros r Hin. subst r.
  destruct (perform_harvest_frame m) as (Hst & Hinert).
  destruct (editor_timeout_trace m e Hin) as (tp & ts & Hpre & Hcb & Htr).
  split; [apply perform_harvest_normal|].
  split; [|split; [|split; [exact Hinert|split; [exact Hst|]]]].
  - rewrite Htr.
    exists (a_print msg_attempting :: own tp ++ [a_print msg_waiting_editor]).
    change (a_print msg_attempting :: tp ++ a_print msg_waiting_editor :: ts ++ ?l)
      with ([a_print msg_attempting] ++ tp ++ [a_print msg_waiting_editor] ++ ts ++ l).
    rewrite !own_app, (callbacks_only_own ts Hcb). simpl.
    now rewrite <- app_assoc.
  - rewrite Htr.
    change (a_print msg_attempting :: tp ++ a_print msg_waiting_editor :: ts ++ ?l)
      with ([a_print msg_attempting] ++ tp ++ [a_print msg_waiting_editor] ++ ts ++ l).
    rewrite !forallb_app. simpl. rewrite andb_true_r. apply andb_true_intro. split.
    + revert Hpre. apply forallb_weaken. intros a Ha.
      destruct (is_callback a) eqn:Hc; [destruct a; try discriminate; reflexivity|].
      simpl in Ha. unfold prelude_action in Ha.
      apply andb_prop in Ha. destruct Ha as [Ha _].
      apply andb_prop in Ha. destruct Ha as [Ha _].
      apply andb_prop in Ha. apply Ha.
    + revert Hcb. apply forallb_weaken. intros a Ha.
      destruct a; try discriminate; reflexivity.
  - intros Hc. rewrite Hst, Hc. reflexivity.
Qed.
End Interaction.

(** Equal runs up to the bracketing of the recorded lists. *)
Ltac traces_equal :=
  cbn; repeat rewrite app_nil_r; repeat rewrite <- app_assoc; cbn;
  repeat rewrite <- app_assoc; reflexivity.

(** ** The liveness loop *)

Section Liveness.
Context {W : Type} {E : Engine W}.

Lemma await_run (c : call) (m : Machine W) :
  await c m
  = match perform c (world (final (suspend m))) with
    | (r, w) =>
        Build_Run (match r with Ok _ => Normal tt | Err e => Raised e end)
                  (Build_Machine (st (final (suspend m))) w)
                  (trace (suspend m) ++ [a_call c r])
    end.
Proof.
  unfold await. rewrite bind_suspend. unfold engine_call.
  destruct (perform c (world (final (suspend m)))) as [r w]. reflexivity.
Qed.

Lemma bind_time {B} (f : Z -> M W B) (m : Machine W) :
  bind time f m
  = prefixed [a_time (fst (time_time (world m)))]
      (f (fst (time_time (world m)))
         (Build_Machine (st m) (snd (time_time (world m))))).
Proof. unfold bind, time. destruct (time_time (world m)) as [t w]. reflexivity. Qed.

Lemma bind_latest_harvest {B} (f : bool -> M W B) (m : Machine W) :
  bind cred_manager_latest_harvest f m
  = prefixed [a_latest_harvest (fst (latest_harvest (world m)))]
      (f (fst (latest_harvest (world m)))
         (Build_Machine (st m) (snd (latest_harvest (world m))))).
Proof.
  unfold bind, cred_manager_latest_harvest.
  destruct (latest_harvest (world m)) as [b w]. reflexivity.
Qed.

Lemma suspend_no_later_branch (m : Machine W) :
  forallb (fun a => negb (later_branch a)) (trace (suspend m)) = true.
Proof.
  generalize (suspend_callbacks m). apply forallb_weaken.
  intros a Ha. destruct a; try discriminate; reflexivity.
Qed.

Lemma suspend_invocations (m : Machine W) : invocations (trace (suspend m)) = 0%nat.
Proof.
  unfold invocations. rewrite (callbacks_only_filter enters_harvest); auto.
  apply suspend_callbacks.
Qed.

Lemma suspend_own (m : Machine W) : own (trace (suspend m)) = [].
Proof. apply callbacks_only_own, suspend_callbacks. Qed.

Lemma suspend_callbacks_all (m : Machine W) :
  callbacks (trace (suspend m)) = trace (suspend m).
Proof. apply callbacks_only_callbacks, suspend_callbacks. Qed.

Lemma suspend_replay (m : Machine W) :
  st (final (suspend m)) = replay (trace (suspend m)) (st m).
Proof. destruct (sound_suspend (fun _ => true) m) as (_ & H & _). exact H. Qed.

(** Case A as an equation: the reload, then either the re-trigger or the
    log line of the failure. *)
Lemma case_refresh_run (m : Machine W) :
  let s := suspend m in
  case_refresh m
  = match perform page_reload (world (final s)) with
    | (Ok _, w) =>
        let s' := suspend (Build_Machine
                             (apply_write (w_refresh_needed false) (st (final s))) w) in
        let h := perform_harvest (final s') in
        Build_Run (Normal Continue) (final h)
          ([a_print msg_refreshing] ++ trace s
           ++ [a_call page_reload (Ok tt); a_print msg_page_reloaded;
               a_assign (w_refresh_needed false)]
           ++ trace s' ++ [a_sleep 5000] ++ trace h)
    | (Err e, w) =>
        Build_Run (Normal Continue) (Build_Machine (st (final s)) w)
          ([a_print msg_refreshing] ++ trace s
           ++ [a_call page_reload (Err e); a_print (msg_refresh_failed e)])
    end.
Proof.
  intros s. unfold case_refresh. rewrite bind_print, bind_run, try_bind_run.
  rewrite await_run. fold s.
  destruct (perform page_reload (world (final s))) as [[[]|e] w]; cbn [outcome final trace].
  - rewrite try_bind_run. cbn [print emit outcome final trace].
    rewrite try_bind_run. cbn [assign outcome final trace st world].
    rewrite try_bind_run, sleep_run. cbn [outcome final trace].
    set (s' := suspend _). rewrite try_except_run.
    pose proof (perform_harvest_normal (final s')) as Hn.
    destruct (perform_harvest (final s')) as [o mh th]. simpl in Hn. subst o.
    traces_equal.
  - traces_equal.
Qed.

Lemma liveness_tick_refresh (m : Machine W) :
  refresh_needed (st m) = true -> liveness_tick m = case_refresh m.
Proof. intros H. unfold liveness_tick. now rewrite bind_get, H. Qed.

(** *** Cases B and C *)

Lemma liveness_tick_no_refresh (m : Machine W) :
  refresh_needed (st m) = false ->
  liveness_tick m
  = match outcome (on_login_page m) with
    | Normal login =>
        prefixed (trace (on_login_page m))
          ((f <- (if login then case_login else ret Fallthrough) ;;
            match f with
            | Fallthrough => case_harvest ;; sleep 5000 ;; ret Fallthrough
            | Continue => ret Continue
            | Break => ret Break
            end) (final (on_login_page m)))
    | Raised e => Build_Run (Raised e) (final (on_login_page m)) (trace (on_login_page m))
    | Starved => Build_Run Starved (final (on_login_page m)) (trace (on_login_page m))
    end.
Proof. intros H. unfold liveness_tick. now rewrite bind_get, H, bind_run. Qed.

Lemma sound_on_login_page : sound page_test_action on_login_page.
Proof. unfold on_login_page. prove_sound. Qed.

Lemma on_login_page_quiet (m : Machine W) :
  invocations (trace (on_login_page m)) = 0%nat
  /\ filter navigates (trace (on_login_page m)) = []
  /\ st (final (on_login_page m)) = replay (callbacks (trace (on_login_page m))) (st m).
Proof.
  destruct (sound_on_login_page m) as (Hall & Hst & _).
  repeat split.
  - unfold invocations. rewrite (own_none enters_harvest); auto.
    revert Hall. apply forallb_weaken. intros a Ha.
    destruct a as [[]| | | | | | | | | | |]; simpl in *; try reflexivity; discriminate.
  - apply own_none; auto.
    revert Hall. apply forallb_weaken. intros a Ha.
    destruct a; simpl in *; try reflexivity; discriminate.
  - rewrite Hst. apply replay_callbacks.
    revert Hall. apply forallb_weaken. intros a Ha.
    destruct a; simpl in *; try reflexivity; discriminate.
Qed.

(** Case C as an equation. *)
Lemma case_harvest_run (m : Machine W) :
  let now := fst (time_time (world m)) in
  let w1 := snd (time_time (world m)) in
  let stocked := fst (latest_harvest w1) in
  let w2 := snd (latest_harvest w1) in
  case_harvest m
  = if now - last_harvest_time (st m) >? HARVEST_INTERVAL then
      prefixed [a_time now] (perform_harvest (Build_Machine (st m) w1))
    else if negb stocked then
      prefixed [a_time now; a_latest_harvest stocked]
               (perform_harvest (Build_Machine (st m) w2))
    else
      Build_Run (Normal tt) (Build_Machine (st m) w2)
                [a_time now; a_latest_harvest stocked].
Proof.
  intros now w1 stocked w2. unfold case_harvest.
  rewrite bind_time, bind_get. fold now w1. cbn [st world].
  destruct (now - last_harvest_time (st m) >? HARVEST_INTERVAL).
  - now rewrite bind_ret.
  - rewrite bind_assoc, bind_latest_harvest. cbn [st world]. fold stocked w2.
    rewrite bind_ret, prefixed_prefixed. destruct (negb stocked); reflexivity.
Qed.

Lemma case_harvest_facts (m : Machine W) :
  let now := fst (time_time (world m)) in
  let stocked := fst (latest_harvest (snd (time_time (world m)))) in
  outcome (case_harvest m) = Normal tt
  /\ invocations (trace (case_harvest m))
     = (if (now - last_harvest_time (st m) >? HARVEST_INTERVAL) || negb stocked
        then 1 else 0)%nat
  /\ filter navigates (trace (case_harvest m)) = [].
Proof.
  intros now stocked. pose proof (case_harvest_run m) as Hrun. cbv zeta in Hrun.
  fold now stocked in Hrun. rewrite Hrun. clear Hrun.
  assert (Hnav : forall m', filter navigates (trace (perform_harvest m')) = []).
  { intros m'. apply own_none; auto.
    destruct (sound_perform_harvest m') as (Hall & _ & _).
    revert Hall. apply forallb_weaken. intros a Ha.
    destruct a as [|[]| | | | | | | | | |]; simpl in *; try reflexivity; discriminate. }
  destruct (now - last_harvest_time (st m) >? HARVEST_INTERVAL); cbn [orb].
  - rewrite outcome_prefixed, trace_prefixed, invocations_app, filter_app, Hnav.
    rewrite perform_harvest_normal, perform_harvest_invocations. auto.
  - destruct (negb stocked).
    + rewrite outcome_prefixed, trace_prefixed, invocations_app, filter_app, Hnav.
      rewrite perform_harvest_normal, perform_harvest_invocations. auto.
    + auto.
Qed.

(** A tick in which neither case A nor case B applies. *)
Lemma liveness_tick_harvest (m : Machine W) :
  refresh_needed (st m) = false ->
  outcome (on_login_page m) = Normal false ->
  let m1 := final (on_login_page m) in
  liveness_tick m
  = Build_Run (Normal Fallthrough)
      (final (suspend (final (case_harvest m1))))
      (trace (on_login_page m) ++ trace (case_harvest m1)
       ++ trace (suspend (final (case_harvest m1))) ++ [a_sleep 5000]).
Proof.
  intros Hr Hl m1. rewrite (liveness_tick_no_refresh m Hr), Hl. fold m1.
  rewrite bind_ret. destruct (case_harvest_facts m1) as (Hn & _ & _).
  rewrite (bind_normal _ _ _ tt Hn), bind_sleep. traces_equal.
Qed.

(** *** The login redirect *)

(** Case B as an equation. *)
Lemma case_login_run (m : Machine W) :
  let now := fst (time_time (world m)) in
  let w1 := snd (time_time (world m)) in
  let goto := page_goto VERTEX_URL None in
  case_login m
  = if now - last_login_retry_time (st m) >? LOGIN_COOLDOWN then
      let s := suspend (Build_Machine
                          (apply_write (w_last_login_retry_time now) (st m)) w1) in
      match perform goto (world (final s)) with
      | (Ok _, w) =>
          let s' := suspend (Build_Machine (st (final s)) w) in
          Build_Run (Normal Continue) (final s')
            ([a_time now; a_print msg_redirected_retry;
              a_assign (w_last_login_retry_time now)]
             ++ trace s ++ [a_call goto (Ok tt)] ++ trace s' ++ [a_sleep 5000])
      | (Err e, w) =>
          Build_Run (Normal Fallthrough) (Build_Machine (st (final s)) w)
            ([a_time now; a_print msg_redirected_retry;
              a_assign (w_last_login_retry_time now)]
             ++ trace s ++ [a_call goto (Err e)])
      end
    else
      Build_Run (Normal Break) (Build_Machine (st m) w1)
                [a_time now; a_print msg_cookies_expired; a_print msg_export_fresh].
Proof.
  intros now w1 goto. unfold case_login.
  rewrite bind_time, bind_get. fold now w1. cbn [st world].
  destruct (now - last_login_retry_time (st m) >? LOGIN_COOLDOWN).
  - rewrite bind_print, bind_assign, try_bind_run, await_run. cbn [st world].
    fold goto. set (s := suspend _).
    destruct (perform goto (world (final s))) as [[[]|e] w]; cbn [outcome final trace].
    + rewrite try_bind_run, sleep_run. cbn [outcome final trace]. traces_equal.
    + traces_equal.
  - reflexivity.
Qed.

Lemma not_in_filter (Q : action -> bool) (tr : list action) (a : action) :
  filter Q tr = [] -> Q a = true -> ~ In a tr.
Proof.
  intros Hf Ha Hin. assert (Hin' : In a (filter Q tr)) by (apply filter_In; auto).
  rewrite Hf in Hin'. destruct Hin'.
Qed.

Lemma suspend_no_navigation (m : Machine W) : filter navigates (trace (suspend m)) = [].
Proof. apply callbacks_only_filter; auto. apply suspend_callbacks. Qed.

(** A callback that is not a capture leaves [last_login_retry_time]. *)
Lemma run_callback_keeps_retry (cb : callback) (m : Machine W) :
  captures (a_callback cb (trace (run_callback cb m))) = false ->
  last_login_retry_time (st (final (run_callback cb m)))
  = last_login_retry_time (st m).
Proof.
  destruct cb as [request|response| |]; unfold run_callback; try reflexivity.
  - unfold handle_route, captures.
    destruct (req_post_data request) as [[body|]|e]; run_py;
      intros Hc; first [reflexivity | discriminate].
  - intros _. unfold handle_response. run_py; reflexivity.
Qed.

Lemma deliver_all_keeps_retry (cbs : list callback) (m : Machine W) :
  existsb captures (trace (deliver_all cbs m)) = false ->
  last_login_retry_time (st (final (deliver_all cbs m)))
  = last_login_retry_time (st m).
Proof.
  revert m. induction cbs as [|cb rest IH]; intros m; [reflexivity|].
  pose proof (run_callback_keeps_retry cb m) as Hk.
  cbn [deliver_all]. unfold bind, deliver.
  destruct (run_callback cb m) as [o m' inner]. cbn [final trace] in Hk.
  specialize (IH m'). destruct (deliver_all rest m') as [o' m'' tr']. cbn in *.
  intros H. apply orb_false_elim in H. destruct H as [H1 H2].
  rewrite (IH H2). apply Hk, H1.
Qed.

Lemma suspend_keeps_retry (m : Machine W) :
  existsb captures (trace (suspend m)) = false ->
  last_login_retry_time (st (final (suspend m))) = last_login_retry_time (st m).
Proof.
  unfold suspend. destruct (dispatch (world m)) as [cbs w].
  apply (deliver_all_keeps_retry cbs (Build_Machine (st m) w)).
Qed.

(** The page test of case B as an equation. *)
Lemma on_login_page_run (m : Machine W) :
  let u := fst (url (world m)) in
  let w := snd (url (world m)) in
  on_login_page m
  = if contains LOGIN_DOMAIN u then
      Build_Run (Normal true) (Build_Machine (st m) w) [a_url u]
    else
      let s := suspend (Build_Machine (st m) w) in
      match title (world (final s)) with
      | (Ok t, w') =>
          Build_Run (Normal (contains LOGIN_TITLE t))
                    (Build_Machine (st (final s)) w')
                    ([a_url u] ++ trace s ++ [a_title (Ok t)])
      | (Err e, w') =>
          Build_Run (Raised e) (Build_Machine (st (final s)) w')
                    ([a_url u] ++ trace s ++ [a_title (Err e)])
      end.
Proof.
  intros u w. unfold on_login_page, page_url, page_title.
  unfold bind at 1. subst u w. destruct (url (world m)) as [u w]. cbn [fst snd].
  destruct (contains LOGIN_DOMAIN u); [reflexivity|].
  rewrite bind_assoc, bind_suspend. cbn [prefixed].
  set (s := suspend _). unfold bind.
  destruct (title (world (final s))) as [[t|e] w']; traces_equal.
Qed.

Lemma on_login_page_keeps_retry (m : Machine W) :
  existsb captures (trace (on_login_page m)) = false ->
  last_login_retry_time (st (final (on_login_page m))) = last_login_retry_time (st m).
Proof.
  pose proof (on_login_page_run m) as Hrun. cbv zeta in Hrun. rewrite Hrun. clear Hrun.
  destruct (contains LOGIN_DOMAIN (fst (url (world m)))); [reflexivity|].
  set (m0 := Build_Machine (st m) (snd (url (world m)))).
  pose proof (suspend_keeps_retry m0) as Hk.
  destruct (title (world (final (suspend m0)))) as [[t|e] w']; cbn;
    rewrite existsb_app; intros H; apply orb_false_elim in H;
    destruct H as [H _]; apply Hk, H.
Qed.

(** A tick on the login page, as an equation on case B. *)
Lemma liveness_tick_login (m : Machine W) :
  refresh_needed (st m) = false ->
  outcome (on_login_page m) = Normal true ->
  let m1 := final (on_login_page m) in
  liveness_tick m
  = match outcome (case_login m1) with
    | Normal Fallthrough =>
        prefixed (trace (on_login_page m) ++ trace (case_login m1))
          ((case_harvest ;; sleep 5000 ;; ret Fallthrough) (final (case_login m1)))
    | Normal f =>
        Build_Run (Normal f) (final (case_login m1))
                  (trace (on_login_page m) ++ trace (case_login m1))
    | Raised e =>
        Build_Run (Raised e) (final (case_login m1))
                  (trace (on_login_page m) ++ trace (case_login m1))
    | Starved =>
        Build_Run Starved (final (case_login m1))
                  (trace (on_login_page m) ++ trace (case_login m1))
    end.
Proof.
  intros Hr Hl m1. rewrite (liveness_tick_no_refresh m Hr), Hl. fold m1.
  rewrite bind_run.
  destruct (outcome (case_login m1)) as [[| |]|e|];
    rewrite ?bind_ret, ?prefixed_prefixed; try reflexivity; traces_equal.
Qed.

(** The loop of line 78 ends at once when its tick breaks. *)
Lemma liveness_loop_break (fuel : nat) (m : Machine W) :
  is_running (st m) = true -> restart_requested (st m) = false ->
  outcome (liveness_tick m) = Normal Break ->
  liveness_loop (S fuel) m
  = Build_Run (Normal tt) (final (liveness_tick m)) (trace (liveness_tick m)).
Proof.
  intros Hrun Hres Hb. cbn [liveness_loop].
  rewrite bind_get, Hrun, Hres. cbn [andb negb].
  rewrite (bind_normal _ _ _ Break Hb). traces_equal.
Qed.

(** The terminal expiry of case B. *)
Lemma login_expired_tick (m : Machine W) :
  refresh_needed (st m) = false ->
  outcome (on_login_page m) = Normal true ->
  let m1 := final (on_login_page m) in
  let now := fst (time_time (world m1)) in
  now - last_login_retry_time (st m1) <= 60 ->
  liveness_tick m
  = Build_Run (Normal Break) (Build_Machine (st m1) (snd (time_time (world m1))))
      (trace (on_login_page m)
       ++ [a_time now; a_print msg_cookies_expired; a_print msg_export_fresh]).
Proof.
  intros Hr Hl m1 now Hcool.
  rewrite (liveness_tick_login m Hr Hl). fold m1.
  pose proof (case_login_run m1) as Hrun. cbv zeta in Hrun. fold now in Hrun.
  assert (Hle : (now - last_login_retry_time (st m1) >? LOGIN_COOLDOWN) = false).
  { unfold LOGIN_COOLDOWN. rewrite Z.gtb_ltb. apply Z.ltb_ge. exact Hcool. }
  rewrite Hle in Hrun. rewrite Hrun. reflexivity.
Qed.

End Liveness.

(** ** The session loop *)

Section Recorded.
Context {W : Type} {E : Engine W}.

Variable P : action -> bool.

Lemma recorded_of_sound {A} (p : M W A) : sound P p -> recorded P p.
Proof. intros H m. destruct (H m) as (H1 & H2 & _). auto. Qed.

Lemma recorded_starve {A} : recorded P (@starve W A).
Proof. intros m. split; reflexivity. Qed.

Lemma recorded_bind {A B} (p : M W A) (f : A -> M W B) :
  recorded P p -> (forall a, recorded P (f a)) -> recorded P (bind p f).
Proof.
  intros Hp Hf m. rewrite bind_run. destruct (Hp m) as (H1 & H2).
  destruct (outcome (p m)) as [a|e|]; simpl; auto.
  destruct (Hf a (final (p m))) as (H4 & H5).
  rewrite final_prefixed, trace_prefixed.
  rewrite forallb_app, H1, H4, replay_app, <- H2. auto.
Qed.

Lemma recorded_try_except {A} (p : M W A) (h : exn -> M W A) :
  recorded P p -> (forall e, recorded P (h e)) -> recorded P (try_except p h).
Proof.
  intros Hp Hh m. rewrite try_except_run. destruct (Hp m) as (H1 & H2).
  destruct (outcome (p m)) as [a|e|]; auto.
  destruct (Hh e (final (p m))) as (H4 & H5).
  rewrite final_prefixed, trace_prefixed.
  rewrite forallb_app, H1, H4, replay_app, <- H2. auto.
Qed.

Lemma recorded_finally {A} (p : M W A) (q : M W unit) :
  recorded P p -> recorded P q -> recorded P (finally p q).
Proof.
  intros Hp Hq m. unfold finally. destruct (Hp m) as (H1 & H2).
  destruct (Hq (final (p m))) as (H4 & H5).
  destruct (p m) as [o m' tr]. simpl in *.
  destruct (q m') as [o' m'' tr']. simpl in *.
  destruct o as [a|e|]; [| |auto];
    destruct o' as [[]|e'|]; simpl;
    rewrite forallb_app, H1, H4, replay_app, <- H2; auto.
Qed.
End Recorded.

(** One step of a proof of [recorded]: a loop-free part is sound. *)
Ltac recorded_step :=
  first
    [ solve [apply recorded_of_sound; prove_sound]
    | match goal with
      | |- recorded _ (bind _ _) => apply recorded_bind; [|intros]
      | |- recorded _ (try_except _ _) => apply recorded_try_except; [|intros]
      | |- recorded _ (finally _ _) => apply recorded_finally
      | |- recorded _ starve => apply recorded_starve
      | |- recorded _ (if ?b then _ else _) => destruct b
      | |- recorded _ (match ?x with _ => _ end) => destruct x
      end ].

Section SessionLoop.
Context {W : Type} {E : Engine W}.

Lemma sound_liveness_tick : sound session_action liveness_tick.
Proof.
  unfold liveness_tick, case_refresh, on_login_page, case_login, case_harvest,
    perform_harvest.
  prove_sound.
Qed.

Lemma recorded_liveness_loop (fuel : nat) : recorded session_action (liveness_loop fuel).
Proof.
  induction fuel as [|fuel IH]; cbn [liveness_loop].
  - apply recorded_starve.
  - apply recorded_bind; [apply recorded_of_sound, sound_get|intros self].
    destruct (is_running self && negb (restart_requested self));
      [|apply recorded_of_sound, sound_ret].
    apply recorded_bind; [apply recorded_of_sound, sound_liveness_tick|intros f].
    destruct f; first [exact IH | apply recorded_of_sound, sound_ret].
Qed.

Lemma recorded_live_session (fuel : nat) : recorded session_action (live_session fuel).
Proof.
  unfold live_session.
  repeat first [ apply recorded_liveness_loop | recorded_step ].
Qed.

(** *** Loading the cookies *)

(** The [try] body of lines 52-54. *)
Lemma load_body_run (c : string) (m : Machine W) :
  (cookies <- lift (json_loads c) ;;
   await (add_cookies cookies) ;;
   n <- lift (py_len cookies) ;;
   print (msg_loaded_cookies n) ;;
   ret true) m
  = match json_loads c with
    | Err e => Build_Run (Raised e) m []
    | Ok cookies =>
        let s := suspend m in
        match perform (add_cookies cookies) (world (final s)) with
        | (Err e, w) =>
            Build_Run (Raised e) (Build_Machine (st (final s)) w)
                      (trace s ++ [a_call (add_cookies cookies) (Err e)])
        | (Ok _, w) =>
            match py_len cookies with
            | Err e =>
                Build_Run (Raised e) (Build_Machine (st (final s)) w)
                          (trace s ++ [a_call (add_cookies cookies) (Ok tt)])
            | Ok n =>
                Build_Run (Normal true) (Build_Machine (st (final s)) w)
                          (trace s ++ [a_call (add_cookies cookies) (Ok tt);
                                       a_print (msg_loaded_cookies n)])
            end
        end
    end.
Proof.
  destruct (json_loads c) as [cookies|e]; cbn [lift]; [|reflexivity].
  rewrite bind_ret, bind_run, await_run. cbv zeta.
  destruct (perform (add_cookies cookies) (world (final (suspend m)))) as [[[]|e] w];
    cbn [outcome final trace]; [|reflexivity].
  destruct (py_len cookies) as [n|e]; cbn [lift].
  - rewrite bind_ret, bind_print. traces_equal.
  - traces_equal.
Qed.

(** The handler of lines 56-59. *)
Lemma load_handler_run (m : Machine W) :
  (print msg_invalid_json ;; assign (w_current_cookies None) ;; sleep 10000 ;; ret false) m
  = let s := suspend (Build_Machine (apply_write (w_current_cookies None) (st m))
                                    (world m)) in
    Build_Run (Normal false) (final s)
              ([a_print msg_invalid_json; a_assign (w_current_cookies None)]
               ++ trace s ++ [a_sleep 10000]).
Proof. rewrite bind_print, bind_assign, bind_sleep. traces_equal. Qed.

(** The cookie injection either took its handler, and then ends with the
    log line, the clearing and the backoff, or did not report anything. *)
Lemma load_cookies_cases (m : Machine W) :
  (exists pre ts,
      outcome (load_cookies m) = Normal false
      /\ trace (load_cookies m)
         = pre ++ [a_print msg_invalid_json; a_assign (w_current_cookies None)]
           ++ ts ++ [a_sleep 10000]
      /\ forallb is_callback ts = true
      /\ forallb (fun a => is_callback a
                           || injects_cookies a)
                 pre = true)
  \/ (outcome (load_cookies m) <> Normal false
      /\ outcome (load_cookies m) <> Starved
      /\ forallb (fun a => is_callback a || session_action a) (trace (load_cookies m)) = true).
Proof.
  unfold load_cookies. rewrite bind_get.
  destruct (truthy (current_cookies (st m))).
  2:{ right. repeat split; cbn; congruence. }
  rewrite try_except_if_run, load_body_run. cbv zeta.
  set (c := match current_cookies (st m) with Some c => c | None => "" end).
  assert (Hh : forall pre m',
             forallb (fun a => is_callback a
                               || injects_cookies a)
                     pre = true ->
             exists pre0 ts,
               outcome (prefixed pre ((print msg_invalid_json ;; assign (w_current_cookies None) ;;
                                       sleep 10000 ;; ret false) m')) = Normal false
               /\ trace (prefixed pre ((print msg_invalid_json ;; assign (w_current_cookies None) ;;
                                        sleep 10000 ;; ret false) m'))
                  = pre0 ++ [a_print msg_invalid_json; a_assign (w_current_cookies None)]
                    ++ ts ++ [a_sleep 10000]
               /\ forallb is_callback ts = true
               /\ forallb (fun a => is_callback a
                                    || injects_cookies a)
                          pre0 = true).
  { intros pre m' Hpre. rewrite load_handler_run. cbv zeta. cbn [prefixed].
    exists pre. eexists.
    split; [reflexivity|]. split; [reflexivity|].
    split; [apply suspend_callbacks | exact Hpre]. }
  pose proof (suspend_callbacks m) as Hs.
  assert (Hs' : forallb (fun a => is_callback a || session_action a) (trace (suspend m)) = true).
  { revert Hs. apply forallb_weaken. intros a Ha. now rewrite Ha. }
  destruct (json_loads c) as [cookies|e]; cbn [outcome final trace].
  - destruct (perform (add_cookies cookies) (world (final (suspend m)))) as [[[]|e] w];
      cbn [outcome final trace].
    + destruct (py_len cookies) as [n|e]; cbn [outcome final trace].
      * right. repeat split; try congruence.
        rewrite forallb_app, Hs'. reflexivity.
      * destruct (is_JSONDecodeError e).
        -- left. apply Hh. rewrite forallb_app. cbn.
           rewrite andb_true_r. revert Hs. apply forallb_weaken.
           intros a Ha. now rewrite Ha.
        -- right. repeat split; cbn; try congruence.
           rewrite forallb_app, Hs'. reflexivity.
    + destruct (is_JSONDecodeError e).
      * left. apply Hh. rewrite forallb_app. cbn.
        rewrite andb_true_r. revert Hs. apply forallb_weaken.
        intros a Ha. now rewrite Ha.
      * right. repeat split; cbn; try congruence.
        rewrite forallb_app, Hs'. reflexivity.
  - destruct (is_JSONDecodeError e).
    + left. apply Hh. reflexivity.
    + right. repeat split; cbn; congruence.
Qed.

(** Malformed cookies: the handler runs at once. *)
Lemma load_cookies_malformed (m : Machine W) (c : string) :
  current_cookies (st m) = Some c -> c <> "" ->
  json_loads c = Err JSONDecodeError ->
  load_cookies m
  = let s := suspend (Build_Machine (apply_write (w_current_cookies None) (st m))
                                    (world m)) in
    Build_Run (Normal false) (final s)
              ([a_print msg_invalid_json; a_assign (w_current_cookies None)]
               ++ trace s ++ [a_sleep 10000]).
Proof.
  intros Hc Hne Hj. unfold load_cookies. rewrite bind_get, Hc. cbn [truthy].
  apply String.eqb_neq in Hne. rewrite Hne. cbn [negb].
  rewrite try_except_if_run, load_body_run, Hj. cbn [outcome final trace is_JSONDecodeError].
  rewrite prefixed_nil. apply load_handler_run.
Qed.

(** *** One pass of the outer loop *)

Lemma on_error_run (e : exn) (m : Machine W) :
  on_error e m
  = Build_Run (Normal tt) (final (suspend m))
              ([a_print (msg_error e)] ++ trace (suspend m) ++ [a_sleep 10000]).
Proof. unfold on_error. rewrite bind_print, sleep_run. reflexivity. Qed.

(** Peeling the first statement off a [try] around an [async with]. *)
Lemma try_finally_bind_run {A B} (p : M W A) (k : A -> M W B) (q : M W unit)
    (h : exn -> M W B) (m : Machine W) :
  try_except (finally (bind p k) q) h m
  = match outcome (p m) with
    | Normal a => prefixed (trace (p m)) (try_except (finally (k a) q) h (final (p m)))
    | Raised e => prefixed (trace (p m)) (try_except (finally (raise e) q) h (final (p m)))
    | Starved => Build_Run Starved (final (p m)) (trace (p m))
    end.
Proof.
  unfold try_except, try_except_if, finally, bind, raise.
  destruct (p m) as [[a|e|] m1 t1]; cbn; [| |reflexivity].
  - destruct (k a m1) as [[b|e|] m2 t2]; cbn; [| |reflexivity];
      destruct (q m2) as [[[]|e'|] m3 t3]; cbn; try reflexivity;
      try (destruct (h _ m3) as [o m4 t4]; cbn);
      rewrite ?app_assoc; reflexivity.
  - destruct (q m1) as [[[]|e'|] m3 t3]; cbn; try reflexivity;
      try (destruct (h _ m3) as [o m4 t4]; cbn);
      rewrite ?app_assoc; reflexivity.
Qed.

(** The exit of the [async with] and the handler after an exception. *)
Lemma failure_run (e : exn) (m : Machine W) :
  try_except (finally (raise e) (await playwright_stop)) on_error m
  = let s := suspend m in
    match perform playwright_stop (world (final s)) with
    | (r, w) =>
        let e' := match r with Ok _ => e | Err e2 => e2 end in
        let s' := suspend (Build_Machine (st (final s)) w) in
        Build_Run (Normal tt) (final s')
                  (trace s ++ [a_call playwright_stop r; a_print (msg_error e')]
                   ++ trace s' ++ [a_sleep 10000])
    end.
Proof.
  cbv zeta. rewrite try_except_run. unfold finally, raise. rewrite await_run.
  destruct (perform playwright_stop (world (final (suspend m)))) as [[[]|e2] w];
    cbn [outcome final trace]; rewrite on_error_run; traces_equal.
Qed.

(** The exit of the [async with] after the [continue] of line 59. *)
Lemma continue_run (m : Machine W) :
  try_except (finally (ret tt) (await playwright_stop)) on_error m
  = let s := suspend m in
    match perform playwright_stop (world (final s)) with
    | (Ok _, w) =>
        Build_Run (Normal tt) (Build_Machine (st (final s)) w)
                  (trace s ++ [a_call playwright_stop (Ok tt)])
    | (Err e, w) =>
        let s' := suspend (Build_Machine (st (final s)) w) in
        Build_Run (Normal tt) (final s')
                  (trace s ++ [a_call playwright_stop (Err e); a_print (msg_error e)]
                   ++ trace s' ++ [a_sleep 10000])
    end.
Proof.
  cbv zeta. rewrite try_except_run. unfold finally, ret. rewrite await_run.
  destruct (perform playwright_stop (world (final (suspend m)))) as [[[]|e2] w];
    cbn [outcome final trace]; [|rewrite on_error_run]; traces_equal.
Qed.

Lemma session_iteration_unfold (fuel : nat) (m : Machine W) :
  session_iteration fuel m
  = try_except (await playwright_start ;;
                finally (session fuel) (await playwright_stop)) on_error m.
Proof. reflexivity. Qed.

Lemma recorded_live_exit (fuel : nat) :
  recorded session_action
    (try_except (finally (live_session fuel) (await playwright_stop)) on_error).
Proof.
  unfold on_error.
  repeat first [ apply recorded_live_session | recorded_step ].
Qed.

Lemma filter_own (Q : action -> bool) (tr : list action) :
  (forall cb inner, Q (a_callback cb inner) = false) ->
  filter Q (own tr) = filter Q tr.
Proof.
  intros HQ. induction tr as [|a tr IH]; [reflexivity|].
  unfold own in *. simpl. destruct (is_callback a) eqn:Hc; simpl.
  - destruct a; try discriminate. now rewrite HQ.
  - now rewrite IH.
Qed.

(** An iteration that reported malformed cookies. *)
Lemma invalid_json_iteration (fuel : nat) (m : Machine W) :
  In (a_print msg_invalid_json) (trace (session_iteration fuel m)) ->
  outcome (session_iteration fuel m) = Normal tt
  /\ exists pre rs,
       own (trace (session_iteration fuel m))
       = [a_call playwright_start (Ok tt); a_call chromium_launch (Ok tt);
          a_call new_context (Ok tt)]
         ++ pre
         ++ [a_print msg_invalid_json; a_assign (w_current_cookies None);
             a_sleep 10000; a_call playwright_stop rs]
         ++ match rs with
            | Ok _ => []
            | Err e => [a_print (msg_error e); a_sleep 10000]
            end
       /\ forallb injects_cookies pre = true.
Proof.
  rewrite session_iteration_unfold. intros Hin.
  rewrite try_bind_run, await_run in *.
  destruct (perform playwright_start (world (final (suspend m)))) as [[[]|e0] w0];
    cbn [outcome final trace] in *.
  2:{ exfalso. rewrite trace_prefixed, on_error_run in Hin. cbn [trace] in Hin.
      in_cases Hin; first [discriminate | absurd_in Hin]. }
  unfold session in *. set (m1 := Build_Machine _ w0) in *.
  rewrite try_finally_bind_run, await_run in *.
  destruct (perform chromium_launch (world (final (suspend m1)))) as [[[]|e1] w1];
    cbn [outcome final trace] in *.
  2:{ exfalso. rewrite !trace_prefixed, failure_run in Hin. cbv zeta in Hin.
      destruct (perform playwright_stop _) as [rs ws] in Hin. cbn [trace] in Hin.
      in_cases Hin; first [discriminate | absurd_in Hin]. }
  set (m2 := Build_Machine _ w1) in *.
  rewrite try_finally_bind_run, await_run in *.
  destruct (perform new_context (world (final (suspend m2)))) as [[[]|e2] w2];
    cbn [outcome final trace] in *.
  2:{ exfalso. rewrite !trace_prefixed, failure_run in Hin. cbv zeta in Hin.
      destruct (perform playwright_stop _) as [rs ws] in Hin. cbn [trace] in Hin.
      in_cases Hin; first [discriminate | absurd_in Hin]. }
  set (m3 := Build_Machine _ w2) in *.
  rewrite try_finally_bind_run in *.
  destruct (load_cookies_cases m3) as [(pre & ts & Ho & Htr & Hts & Hpre)|(Hnf & Hns & Hall)].
  - rewrite Ho, Htr in *. clear Hin.
    rewrite !outcome_prefixed, !trace_prefixed, continue_run. cbv zeta.
    destruct (perform playwright_stop _) as [[[]|e3] w3]; cbn [outcome trace].
    + split; [reflexivity|]. exists (own pre), (Ok tt).
      split.
      * rewrite !own_app, !suspend_own, (callbacks_only_own ts Hts). cbn.
        rewrite ?app_nil_r, <- ?app_assoc. cbn. reflexivity.
      * clear - Hpre. induction pre as [|a pre IH]; [reflexivity|].
        simpl in Hpre. apply andb_prop in Hpre. destruct Hpre as [Ha Hpre].
        unfold own in *. simpl. destruct (is_callback a); simpl; auto.
        simpl in Ha. rewrite Ha. auto.
    + split; [reflexivity|]. exists (own pre), (Err e3).
      split.
      * rewrite !own_app, !suspend_own, (callbacks_only_own ts Hts). cbn.
        rewrite ?app_nil_r, <- ?app_assoc. cbn. reflexivity.
      * clear - Hpre. induction pre as [|a pre IH]; [reflexivity|].
        simpl in Hpre. apply andb_prop in Hpre. destruct Hpre as [Ha Hpre].
        unfold own in *. simpl. destruct (is_callback a); simpl; auto.
        simpl in Ha. rewrite Ha. auto.
  - exfalso.
    destruct (outcome (load_cookies m3)) as [[|]|e3|]; try congruence;
      rewrite !trace_prefixed in Hin.
    + destruct (recorded_live_exit fuel (final (load_cookies m3))) as (Hlive & _).
      in_cases Hin; first [discriminate | absurd_in Hin].
    + rewrite failure_run in Hin. cbv zeta in Hin.
      destruct (perform playwright_stop _) as [rs ws] in Hin. cbn [trace] in Hin.
      in_cases Hin; first [discriminate | absurd_in Hin].
Qed.

Lemma injections_only (Q : action -> bool) (pre : list action) :
  (forall c r, Q (a_call (add_cookies c) r) = false) ->
  forallb injects_cookies pre = true -> filter Q pre = [].
Proof.
  intros HQ H. induction pre as [|a pre IH]; [reflexivity|].
  simpl in H. apply andb_prop in H. destruct H as [Ha Hpre]. simpl.
  destruct a as [|[]| | | | | | | | | |]; try discriminate.
  rewrite HQ. auto.
Qed.

(** The session never raises out of its catch-all, and the handler's
    backoff follows an exception of the [try] block. *)
Lemma session_iteration_catches (fuel : nat) (m : Machine W) :
  (forall e, outcome (session_iteration fuel m) <> Raised e)
  /\ (forall e,
        outcome (session_block fuel m) = Raised e ->
        outcome (session_iteration fuel m) = Normal tt
        /\ trace (session_iteration fuel m)
           = trace (session_block fuel m)
             ++ [a_print (msg_error e)]
             ++ trace (suspend (final (session_block fuel m)))
             ++ [a_sleep 10000])
  /\ ((forall e, outcome (session_block fuel m) <> Raised e) ->
      session_iteration fuel m = session_block fuel m).
Proof.
  unfold session_iteration. rewrite try_except_run.
  destruct (outcome (session_block fuel m)) as [[]|e|] eqn:Ho.
  - repeat split; intros; congruence.
  - rewrite on_error_run. cbn [prefixed outcome trace].
    split; [intros; congruence|].
    split; [|intros He'; exfalso; now apply (He' e)].
    intros e' He'. inversion He'. subst e'. split; reflexivity.
  - repeat split; intros; congruence.
Qed.

(** After an iteration the outer loop tests [is_running] again. *)
Lemma session_loop_next (fuel : nat) (m : Machine W) :
  is_running (st m) = true ->
  session_loop (S fuel) m
  = match outcome (session_iteration fuel m) with
    | Starved =>
        Build_Run Starved (final (session_iteration fuel m))
                  (trace (session_iteration fuel m))
    | _ =>
        prefixed (trace (session_iteration fuel m))
                 (session_loop fuel (final (session_iteration fuel m)))
    end.
Proof.
  intros Hrun. cbn [session_loop]. rewrite bind_get, Hrun, bind_run.
  destruct (session_iteration_catches fuel m) as (Hc & _ & _).
  destruct (outcome (session_iteration fuel m)) as [[]|e|]; try reflexivity.
  exfalso. now apply (Hc e).
Qed.

Lemma session_loop_stopped (fuel : nat) (m : Machine W) :
  is_running (st m) = false ->
  session_loop (S fuel) m = Build_Run (Normal tt) m [].
Proof. intros Hrun. cbn [session_loop]. now rewrite bind_get, Hrun. Qed.

Lemma session_loop_outcome (fuel : nat) (m : Machine W) :
  (forall e, outcome (session_loop fuel m) <> Raised e)
  /\ (outcome (session_loop fuel m) = Normal tt ->
      is_running (st (final (session_loop fuel m))) = false).
Proof.
  revert m. induction fuel as [|fuel IH]; intros m.
  - cbn. split; congruence.
  - destruct (is_running (st m)) eqn:Hrun.
    + rewrite (session_loop_next fuel m Hrun).
      destruct (session_iteration_catches fuel m) as (Hc & _ & _).
      destruct (IH (final (session_iteration fuel m))) as (IH1 & IH2).
      destruct (outcome (session_iteration fuel m)) as [[]|e|];
        rewrite ?outcome_prefixed, ?final_prefixed; cbn; split; auto; congruence.
    + rewrite (session_loop_stopped fuel m Hrun). cbn. split; [congruence|auto].
Qed.

(** C7: malformed cookies do not crash the session loop.  When the stored
    cookies are a non-empty text that [json.loads] rejects, the cookie
    injection logs the failure, clears [current_cookies], sleeps ten
    seconds and gives up the iteration.  An iteration of the outer loop
    that reported malformed cookies ends normally: it opened no page and
    never entered the liveness loop (no interaction procedure, no
    navigation); after the log line it only cleared the cookies, slept and
    left the [async with]; and the outer loop then goes to its next
    iteration. *)
Theorem malformed_cookies_back_off (fuel : nat) (m : Machine W) :
  (forall (m0 : Machine W) (c : string),
      current_cookies (st m0) = Some c -> c <> "" ->
      json_loads c = Err JSONDecodeError ->
      let s := suspend (Build_Machine (apply_write (w_current_cookies None) (st m0))
                                      (world m0)) in
      load_cookies m0
      = Build_Run (Normal false) (final s)
                  ([a_print msg_invalid_json; a_assign (w_current_cookies None)]
                   ++ trace s ++ [a_sleep 10000]))
  /\ (In (a_print msg_invalid_json) (trace (session_iteration fuel m)) ->
      let r := session_iteration fuel m in
      outcome r = Normal tt
      /\ (exists pre rs,
             own (trace r)
             = [a_call playwright_start (Ok tt); a_call chromium_launch (Ok tt);
                a_call new_context (Ok tt)]
               ++ pre
               ++ [a_print msg_invalid_json; a_assign (w_current_cookies None);
                   a_sleep 10000; a_call playwright_stop rs]
               ++ match rs with
                  | Ok _ => []
                  | Err e => [a_print (msg_error e); a_sleep 10000]
                  end
             /\ forallb injects_cookies pre = true)
      /\ filter opens_page (trace r) = []
      /\ filter navigates (trace r) = []
      /\ invocations (trace r) = 0%nat
      /\ (is_running (st m) = true ->
          session_loop (S fuel) m = prefixed (trace r) (session_loop fuel (final r)))).
Proof.
  split; [intros m0 c; apply load_cookies_malformed|].
  intros Hin r. subst r.
  destruct (invalid_json_iteration fuel m Hin) as (Ho & pre & rs & Hown & Hpre).
  split; [exact Ho|]. split; [exists pre, rs; auto|].
  assert (Hf : forall Q : action -> bool,
             (forall cb inner, Q (a_callback cb inner) = false) ->
             (forall c r, Q (a_call (add_cookies c) r) = false) ->
             Q (a_call playwright_start (Ok tt)) = false ->
             Q (a_call chromium_launch (Ok tt)) = false ->
             Q (a_call new_context (Ok tt)) = false ->
             Q (a_print msg_invalid_json) = false ->
             Q (a_assign (w_current_cookies None)) = false ->
             Q (a_sleep 10000) = false ->
             (forall x, Q (a_call playwright_stop x) = false) ->
             (forall e, Q (a_print (msg_error e)) = false) ->
             filter Q (trace (session_iteration fuel m)) = []).
  { intros Q H1 H2 H3 H4 H5 H6 H7 H8 H9 H10.
    rewrite <- (filter_own Q _ H1), Hown, !filter_app, (injections_only Q pre H2 Hpre).
    cbn. rewrite H3, H4, H5, H6, H7, H8, H9.
    destruct rs; cbn; rewrite ?H10, ?H8; reflexivity. }
  split; [apply Hf; auto|]. split; [apply Hf; auto|].
  split; [unfold invocations; rewrite Hf; auto|].
  intros Hrun. rewrite (session_loop_next fuel m Hrun), Ho. reflexivity.
Qed.

End SessionLoop.

(** * Concrete runs *)

(** Split a conjunction into its parts, and nothing else. *)
Ltac conjs := repeat match goal with |- _ /\ _ => split end.

(** Membership in a computed record. *)
Ltac in_record := vm_compute; repeat (first [left; reflexivity | right]).

(** C1 as stated fails on the code, in two ways.  First run: three ticks of
    the liveness loop in a session that is redirected to the login page,
    recovers, captures a request and is redirected again; the capture reset
    [last_login_retry_time], so the two detections, 25 seconds apart, are
    both retries and the loop has not ended.  Second run: one tick whose
    retry navigation raises; the tick does not continue but goes on to case
    C and calls the interaction procedure. *)
Lemma login_redirect_counterexample :
  let m := Build_Machine live redirected_twice in
  let stuck := Build_Machine live stuck_on_login in
  (detections (trace (liveness_loop 3 m))
   = [(1700000000, true); (1700000025, true)]
   /\ 1700000025 - 1700000000 < 60
   /\ List.length (filter navigates (trace (liveness_loop 3 m))) = 2%nat
   /\ outcome (liveness_loop 3 m) = Starved)
  /\ (refresh_needed (st stuck) = false
      /\ outcome (on_login_page stuck) = Normal true
      /\ fst (time_time (world (final (on_login_page stuck))))
         - last_login_retry_time (st (final (on_login_page stuck))) > 60
      /\ outcome (liveness_tick stuck) = Normal Fallthrough
      /\ invocations (trace (liveness_tick stuck)) = 1%nat
      /\ In (a_time 1700000030) (trace (liveness_tick stuck))).
Proof.
  intros m stuck.
  conjs; first [vm_compute; reflexivity | in_record].
Qed.

(** Witness of C6: the calm world accepts the artifact. *)
Lemma handle_route_captures_witness :
  let m := Build_Machine live calm in
  let body := "{StreamGenerateContent}" in
  contains ENDPOINT (req_url generate_request) = true
  /\ req_method generate_request = "POST"
  /\ req_post_data generate_request = Ok (Some body)
  /\ contains MARKER_STREAM body || contains MARKER_GENERATE body = true
  /\ update {| art_url := req_url generate_request;
               art_method := req_method generate_request;
               art_headers := req_headers generate_request;
               art_body := body |} (world m)
     = (Ok tt, sim_with_sink_full true calm)
  /\ last_harvest_time (st (final (handle_route generate_request m))) = 1700000000
  /\ last_login_retry_time (st (final (handle_route generate_request m))) = 0.
Proof.
  intros m body.
  assert (h1 : contains ENDPOINT (req_url generate_request) = true) by reflexivity.
  assert (h2 : req_method generate_request = "POST") by reflexivity.
  assert (h3 : req_post_data generate_request = Ok (Some body)) by reflexivity.
  assert (h4 : contains MARKER_STREAM body || contains MARKER_GENERATE body = true)
    by reflexivity.
  assert (h5 : update {| art_url := req_url generate_request;
                         art_method := req_method generate_request;
                         art_headers := req_headers generate_request;
                         art_body := body |} (world m)
               = (Ok tt, sim_with_sink_full true calm)) by reflexivity.
  destruct (handle_route_captures generate_request body m
              (sim_with_sink_full true calm) h1 h2 h3 h4 h5)
    as (_ & _ & c3 & c4).
  conjs; assumption.
Defined.

(** Witness of C10: the same request when the sink raises. *)
Lemma handle_route_sink_failure_witness :
  let m := Build_Machine live (sim_with_sink_raises true calm) in
  let body := "{StreamGenerateContent}" in
  contains ENDPOINT (req_url generate_request) = true
  /\ req_method generate_request = "POST"
  /\ req_post_data generate_request = Ok (Some body)
  /\ contains MARKER_STREAM body || contains MARKER_GENERATE body = true
  /\ update {| art_url := req_url generate_request;
               art_method := req_method generate_request;
               art_headers := req_headers generate_request;
               art_body := body |} (world m)
     = (Err (EngineError "sink"), sim_with_sink_raises true calm)
  /\ st (final (handle_route generate_request m)) = live
  /\ route_calls (trace (handle_route generate_request m)) = [rc_continue no_overrides].
Proof.
  intros m body.
  assert (h1 : contains ENDPOINT (req_url generate_request) = true) by reflexivity.
  assert (h2 : req_method generate_request = "POST") by reflexivity.
  assert (h3 : req_post_data generate_request = Ok (Some body)) by reflexivity.
  assert (h4 : contains MARKER_STREAM body || contains MARKER_GENERATE body = true)
    by reflexivity.
  assert (h5 : update {| art_url := req_url generate_request;
                         art_method := req_method generate_request;
                         art_headers := req_headers generate_request;
                         art_body := body |} (world m)
               = (Err (EngineError "sink"), sim_with_sink_raises true calm))
    by reflexivity.
  destruct (handle_route_sink_failure generate_request body m
              (sim_with_sink_raises true calm) (EngineError "sink") h1 h2 h3 h4 h5)
    as (_ & c2 & c3).
  conjs; assumption.
Defined.

(** Witness of C9: the editor never shows up. *)
Lemma perform_harvest_editor_timeout_witness :
  let m := Build_Machine live (sim_with_raises is_editor_wait calm) in
  In (a_call (page_wait_for_selector editor_selector Visible 5000)
             (Err (EngineError "engine")))
     (trace (perform_harvest m))
  /\ callbacks (trace (perform_harvest m)) = []
  /\ outcome (perform_harvest m) = Normal tt
  /\ forallb (fun a => negb (submits a)) (trace (perform_harvest m)) = true
  /\ st (final (perform_harvest m)) = live.
Proof.
  intros m.
  assert (h : In (a_call (page_wait_for_selector editor_selector Visible 5000)
                         (Err (EngineError "engine")))
                 (trace (perform_harvest m))) by in_record.
  destruct (perform_harvest_editor_timeout m (EngineError "engine") h)
    as (c1 & _ & c3 & _ & _ & c6).
  assert (h' : callbacks (trace (perform_harvest m)) = []) by reflexivity.
  pose proof (c6 h') as c7.
  conjs; assumption.
Defined.

(** Witness of C7: cookies that are not JSON. *)
Lemma malformed_cookies_back_off_witness :
  let m := Build_Machine bad_cookies calm in
  current_cookies (st m) = Some "{not json"
  /\ "{not json" <> ""
  /\ json_loads "{not json" = Err JSONDecodeError
  /\ In (a_print msg_invalid_json) (trace (session_iteration 0 m))
  /\ is_running (st m) = true
  /\ outcome (load_cookies m) = Normal false
  /\ outcome (session_iteration 0 m) = Normal tt
  /\ filter opens_page (trace (session_iteration 0 m)) = []
  /\ session_loop 1 m
     = prefixed (trace (session_iteration 0 m))
                (session_loop 0 (final (session_iteration 0 m))).
Proof.
  intros m.
  assert (h1 : current_cookies (st m) = Some "{not json") by reflexivity.
  assert (h2 : "{not json" <> "") by discriminate.
  assert (h3 : json_loads "{not json" = Err JSONDecodeError) by reflexivity.
  assert (h4 : In (a_print msg_invalid_json) (trace (session_iteration 0 m)))
    by in_record.
  assert (h5 : is_running (st m) = true) by reflexivity.
  destruct (malformed_cookies_back_off 0 m) as (Hload & Hiter).
  pose proof (Hload m "{not json" h1 h2 h3) as c0. cbv zeta in c0.
  destruct (Hiter h4) as (c1 & _ & c3 & _ & _ & c6).
  assert (c7 : outcome (load_cookies m) = Normal false) by (rewrite c0; reflexivity).
  pose proof (c6 h5) as c8.
  conjs; assumption.
Defined.

(** * Further properties of the controller *)

(** ** Signals survive the code that does not lower them *)

Section Latches.
Context {W : Type} {E : Engine W}.
Variable G : SessionState -> bool.
Variable T : callback -> bool.

(** A computation that leaves [self] alone and dispatches nothing. *)
Lemma latches_still {A} (p : M W A) :
  (forall m, st (final (p m)) = st m
             /\ existsb (dispatched T) (trace (p m)) = false) ->
  latches G T p.
Proof.
  intros H m [Hg|Ht]; destruct (H m) as (Hs & Hn); [now rewrite Hs | congruence].
Qed.

Lemma latches_ret {A} (a : A) : latches G T (@ret W A a).
Proof. apply latches_still. intros m. split; reflexivity. Qed.

Lemma latches_raise {A} (e : exn) : latches G T (@raise W A e).
Proof. apply latches_still. intros m. split; reflexivity. Qed.

Lemma latches_starve {A} : latches G T (@starve W A).
Proof. apply latches_still. intros m. split; reflexivity. Qed.

Lemma latches_get : latches G T (@get W).
Proof. apply latches_still. intros m. split; reflexivity. Qed.

Lemma latches_lift {A} (r : PyResult A) : latches G T (@lift W A r).
Proof. destruct r; [apply latches_ret | apply latches_raise]. Qed.

Lemma latches_emit (a : action) : is_callback a = false -> latches G T (@emit W a).
Proof.
  intros Ha. apply latches_still. intros m. split; [reflexivity|].
  destruct a; try discriminate; reflexivity.
Qed.

Lemma latches_print (msg : message) : latches G T (@print W msg).
Proof. now apply latches_emit. Qed.

Lemma latches_assign (w : write) :
  (forall s, G s = true -> G (apply_write w s) = true) -> latches G T (@assign W w).
Proof. intros H m [Hg|Ht]; simpl in *; [apply H, Hg | discriminate]. Qed.

Lemma latches_time : latches G T time.
Proof.
  apply latches_still. intros m. unfold time.
  destruct (time_time (world m)) as [t w]. split; reflexivity.
Qed.

Lemma latches_page_url : latches G T page_url.
Proof.
  apply latches_still. intros m. unfold page_url.
  destruct (url (world m)) as [u w]. split; reflexivity.
Qed.

Lemma latches_latest_harvest : latches G T cred_manager_latest_harvest.
Proof.
  apply latches_still. intros m. unfold cred_manager_latest_harvest.
  destruct (latest_harvest (world m)) as [b w]. split; reflexivity.
Qed.

Lemma latches_engine_call (c : call) : latches G T (engine_call c).
Proof.
  apply latches_still. intros m. unfold engine_call.
  destruct (perform c (world m)) as [r w]. split; reflexivity.
Qed.

Lemma latches_bind {A B} (p : M W A) (f : A -> M W B) :
  latches G T p -> (forall a, latches G T (f a)) -> latches G T (bind p f).
Proof.
  intros Hp Hf m H. rewrite bind_run in *. specialize (Hp m).
  destruct (outcome (p m)) as [a|e|]; cbn [final trace] in *; auto.
  rewrite final_prefixed. rewrite trace_prefixed, existsb_app in H.
  apply Hf. destruct H as [H|H]; auto.
  apply orb_prop in H. destruct H as [H|H]; auto.
Qed.

Lemma latches_try_except_if {A} (catches : exn -> bool) (p : M W A)
    (h : exn -> M W A) :
  latches G T p -> (forall e, latches G T (h e)) ->
  latches G T (try_except_if catches p h).
Proof.
  intros Hp Hh m H. rewrite try_except_if_run in *. specialize (Hp m).
  destruct (outcome (p m)) as [a|e|]; auto.
  destruct (catches e); auto.
  rewrite final_prefixed. rewrite trace_prefixed, existsb_app in H.
  apply Hh. destruct H as [H|H]; auto.
  apply orb_prop in H. destruct H as [H|H]; auto.
Qed.

Lemma latches_try_except {A} (p : M W A) (h : exn -> M W A) :
  latches G T p -> (forall e, latches G T (h e)) -> latches G T (try_except p h).
Proof. apply latches_try_except_if. Qed.

Lemma latches_finally {A} (p : M W A) (q : M W unit) :
  latches G T p -> latches G T q -> latches G T (finally p q).
Proof.
  intros Hp Hq m. unfold finally. specialize (Hp m). specialize (Hq (final (p m))).
  destruct (p m) as [o m' tr]. cbn [final trace] in *.
  destruct (q m') as [o' m'' tr']. cbn [final trace] in *.
  assert (Hgo : G (st m) = true \/ existsb (dispatched T) (tr ++ tr') = true ->
                G (st m'') = true).
  { intros H. rewrite existsb_app in H. apply Hq. destruct H as [H|H]; auto.
    apply orb_prop in H. destruct H as [H|H]; auto. }
  destruct o as [a|e|]; [| |exact Hp]; destruct o' as [[]|e'|]; exact Hgo.
Qed.

Hypothesis HS : Signal (W := W) G T.

Lemma latches_deliver (cb : callback) : latches G T (deliver cb).
Proof.
  intros m H. unfold deliver in *. destruct HS as [Hk Hr].
  specialize (Hk cb m). specialize (Hr cb m).
  destruct (run_callback cb m) as [o m' inner]. cbn in *.
  destruct H as [H|H]; [auto|]. rewrite orb_false_r in H. auto.
Qed.

Lemma latches_deliver_all (cbs : list callback) : latches G T (deliver_all cbs).
Proof.
  induction cbs as [|cb rest IH]; cbn [deliver_all].
  - apply latches_ret.
  - apply latches_bind; [apply latches_deliver | intros; exact IH].
Qed.

Lemma latches_suspend : latches G T suspend.
Proof.
  intros m H. unfold suspend in *. destruct (dispatch (world m)) as [cbs w].
  apply (latches_deliver_all cbs (Build_Machine (st m) w)). exact H.
Qed.

Lemma latches_await (c : call) : latches G T (await c).
Proof.
  unfold await. apply latches_bind; [apply latches_suspend | intros].
  apply latches_engine_call.
Qed.

Lemma latches_sleep (ms : Z) : latches G T (sleep ms).
Proof.
  unfold sleep. apply latches_bind; [apply latches_suspend | intros].
  now apply latches_emit.
Qed.

Lemma latches_page_is_visible (sel : selector) : latches G T (page_is_visible sel).
Proof.
  unfold page_is_visible. apply latches_bind; [apply latches_suspend | intros].
  apply latches_still. intros m.
  destruct (is_visible sel (world m)) as [r w]. split; reflexivity.
Qed.

Lemma latches_page_title : latches G T page_title.
Proof.
  unfold page_title. apply latches_bind; [apply latches_suspend | intros].
  apply latches_still. intros m.
  destruct (title (world m)) as [r w]. split; reflexivity.
Qed.

Lemma latches_for_each {A} (xs : list A) (body : A -> M W unit) :
  (forall x, latches G T (body x)) -> latches G T (for_each xs body).
Proof.
  intros Hb. induction xs as [|x rest IH]; cbn [for_each].
  - apply latches_ret.
  - apply latches_bind; [apply Hb | intros; exact IH].
Qed.
End Latches.

(** One step of a proof that a computation latches a signal; the signal
    itself and what the assignments do to it are taken from the context. *)
Ltac latch_step :=
  match goal with
  | |- latches _ _ (bind _ _) => apply latches_bind; [|intros]
  | |- latches _ _ (try_except _ _) => apply latches_try_except; [|intros]
  | |- latches _ _ (try_except_if _ _ _) => apply latches_try_except_if; [|intros]
  | |- latches _ _ (finally _ _) => apply latches_finally
  | |- latches _ _ (ret _) => apply latches_ret
  | |- latches _ _ (raise _) => apply latches_raise
  | |- latches _ _ starve => apply latches_starve
  | |- latches _ _ get => apply latches_get
  | |- latches _ _ (lift _) => apply latches_lift
  | |- latches _ _ (print _) => apply latches_print
  | |- latches _ _ (emit _) => apply latches_emit; reflexivity
  | |- latches _ _ (assign _) =>
      apply latches_assign; first [assumption | intros ? Hs; exact Hs]
  | |- latches _ _ time => apply latches_time
  | |- latches _ _ page_url => apply latches_page_url
  | |- latches _ _ cred_manager_latest_harvest => apply latches_latest_harvest
  | |- latches _ _ (engine_call _) => apply latches_engine_call
  | |- latches _ _ (await _) => apply latches_await; assumption
  | |- latches _ _ (sleep _) => apply latches_sleep; assumption
  | |- latches _ _ (page_is_visible _) => apply latches_page_is_visible; assumption
  | |- latches _ _ page_title => apply latches_page_title; assumption
  | |- latches _ _ suspend => apply latches_suspend; assumption
  | |- latches _ _ (for_each _ _) => apply latches_for_each; intros
  | |- latches _ _ (if ?b then _ else _) => destruct b
  | |- latches _ _ (match ?x with _ => _ end) => destruct x
  | |- latches _ _ (let _ := _ in _) => cbv zeta
  end.

Ltac prove_latches := repeat latch_step.

Section SignalFacts.
Context {W : Type} {E : Engine W}.

(** The signals of the class: a restart request, the stop, the end of the
    condition of line 78, a pending refresh, and the page, which no
    callback takes away. *)
Lemma restart_signal : Signal (W := W) restart_requested is_update.
Proof.
  split.
  - intros cb m H. destruct cb as [request|response|c|]; unfold run_callback.
    + unfold handle_route.
      destruct (req_post_data request) as [[body|]|e]; run_py; exact H.
    + unfold handle_response. run_py; exact H.
    + reflexivity.
    + exact H.
  - intros cb m H. destruct cb; try discriminate. reflexivity.
Qed.

Lemma stop_signal : Signal (W := W) stopped is_stop.
Proof.
  split.
  - intros cb m H. destruct cb as [request|response|c|]; unfold run_callback.
    + unfold handle_route.
      destruct (req_post_data request) as [[body|]|e]; run_py; exact H.
    + unfold handle_response. run_py; exact H.
    + exact H.
    + reflexivity.
  - intros cb m H. destruct cb; try discriminate. reflexivity.
Qed.

Lemma loop_over_signal : Signal (W := W) loop_over ends_loop.
Proof.
  split.
  - intros cb m H. destruct cb as [request|response|c|]; unfold run_callback.
    + unfold handle_route.
      destruct (req_post_data request) as [[body|]|e]; run_py; exact H.
    + unfold handle_response. run_py; exact H.
    + unfold loop_over. cbn. now rewrite andb_false_r.
    + reflexivity.
  - intros cb m H. destruct cb; try discriminate.
    + unfold loop_over. cbn. now rewrite andb_false_r.
    + reflexivity.
Qed.

Lemma rejection_signal : Signal (W := W) refresh_needed is_rejection.
Proof.
  split.
  - intros cb m. apply run_callback_keeps_refresh.
  - intros cb m H. destruct cb as [request|response|c|]; try discriminate.
    cbn [is_rejection] in H. apply andb_prop in H. destruct H as [H1 H2].
    unfold run_callback, handle_response. rewrite H1, H2. reflexivity.
Qed.

Lemma page_signal : Signal (W := W) page (fun _ => false).
Proof.
  split.
  - intros cb m H. destruct cb as [request|response|c|]; unfold run_callback.
    + unfold handle_route.
      destruct (req_post_data request) as [[body|]|e]; run_py; exact H.
    + unfold handle_response. run_py; exact H.
    + exact H.
    + exact H.
  - discriminate.
Qed.
End SignalFacts.

(** ** Requests to end or to refresh reach the liveness loop *)

Section LoopSignals.
Context {W : Type} {E : Engine W}.

Lemma liveness_tick_cases (m : Machine W) :
  liveness_tick m = if refresh_needed (st m) then case_refresh m else later_cases m.
Proof.
  unfold liveness_tick. rewrite bind_get.
  destruct (refresh_needed (st m)); reflexivity.
Qed.

Section AnySignal.
Variable G : SessionState -> bool.
Variable T : callback -> bool.
Hypothesis HS : Signal (W := W) G T.
Hypothesis Hretry :
  forall t s, G s = true -> G (apply_write (w_last_login_retry_time t) s) = true.

Lemma latches_perform_harvest : latches G T perform_harvest.
Proof. unfold perform_harvest. prove_latches. Qed.

(** Cases B and C assign [last_login_retry_time] and nothing else. *)
Lemma latches_later_cases : latches G T later_cases.
Proof.
  pose proof latches_perform_harvest as Hh.
  unfold later_cases, on_login_page, case_login, case_harvest.
  repeat first [exact Hh | apply latches_assign; apply Hretry | latch_step].
Qed.

Hypothesis Hclear :
  forall s, G s = true -> G (apply_write (w_refresh_needed false) s) = true.

Lemma latches_liveness_tick : latches G T liveness_tick.
Proof.
  assert (Hc : latches G T case_refresh).
  { pose proof latches_perform_harvest as Hh. unfold case_refresh.
    repeat first [exact Hh | latch_step]. }
  intros m. rewrite liveness_tick_cases.
  destruct (refresh_needed (st m)); [apply Hc | apply latches_later_cases].
Qed.

Lemma latches_liveness_loop (fuel : nat) : latches G T (liveness_loop fuel).
Proof.
  induction fuel as [|fuel IH]; cbn [liveness_loop].
  - apply latches_starve.
  - apply latches_bind; [apply latches_get | intros self].
    destruct (is_running self && negb (restart_requested self)); [|apply latches_ret].
    apply latches_bind; [apply latches_liveness_tick | intros f].
    destruct f; first [exact IH | apply latches_ret].
Qed.
End AnySignal.

(** A pass after which the condition of line 78 is false is the last. *)
Lemma liveness_loop_one_pass (fuel : nat) (m : Machine W) :
  is_running (st m) = true -> restart_requested (st m) = false ->
  loop_on (st (final (liveness_tick m))) = false ->
  liveness_loop (S (S fuel)) m
  = Build_Run (match outcome (liveness_tick m) with
               | Normal _ => Normal tt
               | Raised e => Raised e
               | Starved => Starved
               end)
              (final (liveness_tick m)) (trace (liveness_tick m)).
Proof.
  intros Hrun Hres Hc. unfold loop_on in Hc.
  cbn [liveness_loop]. rewrite bind_get, Hrun, Hres. cbn [andb negb]. rewrite bind_run.
  destruct (outcome (liveness_tick m)) as [f|e|]; try reflexivity.
  assert (Hnext : (match f with
                   | Break => ret tt
                   | _ => bind get (fun self =>
                            if is_running self && negb (restart_requested self)
                            then bind liveness_tick (fun f0 =>
                                   match f0 with
                                   | Break => ret tt
                                   | _ => liveness_loop fuel
                                   end)
                            else ret tt)
                   end) (final (liveness_tick m))
                  = Build_Run (Normal tt) (final (liveness_tick m)) []).
  { destruct f; try reflexivity; now rewrite bind_get, Hc. }
  rewrite Hnext. cbn [prefixed]. now rewrite app_nil_r.
Qed.

(** X1: a cookie update or a stop that the event loop dispatches during a
    pass of the liveness loop ends the loop when that pass ends.  Whatever
    the pass does, the loop condition of line 78 is false at its end, the
    loop makes no further pass (its record and its final state are those of
    the one pass), and it does not run on. *)
Theorem loop_ends_after_request (fuel : nat) (m : Machine W) :
  is_running (st m) = true -> restart_requested (st m) = false ->
  existsb (dispatched ends_loop) (trace (liveness_tick m)) = true ->
  let r := liveness_tick m in
  is_running (st (final r)) && negb (restart_requested (st (final r))) = false
  /\ trace (liveness_loop (S (S fuel)) m) = trace r
  /\ final (liveness_loop (S (S fuel)) m) = final r
  /\ outcome (liveness_loop (S (S fuel)) m) <> Starved.
Proof.
  intros Hrun Hres Hd r.
  assert (Hover : loop_over (st (final r)) = true).
  { apply (latches_liveness_tick loop_over ends_loop loop_over_signal);
      [intros t s Hs; exact Hs | intros s Hs; exact Hs | right; exact Hd]. }
  assert (Hc : loop_on (st (final r)) = false).
  { unfold loop_over in Hover. now apply negb_true_iff in Hover. }
  split; [exact Hc|].
  rewrite (liveness_loop_one_pass fuel m Hrun Hres Hc). cbn [outcome final trace].
  destruct (sound_liveness_tick m) as (_ & _ & Hns).
  conjs; try reflexivity.
  destruct (outcome (liveness_tick m)); congruence.
Qed.

(** Case A always ends by [continue]. *)
Lemma case_refresh_continues (m : Machine W) : outcome (case_refresh m) = Normal Continue.
Proof.
  pose proof (case_refresh_run m) as Hrun. cbv zeta in Hrun. rewrite Hrun.
  destruct (perform page_reload _) as [[[]|e] w]; reflexivity.
Qed.

(** X2: a 401 or 403 from the endpoint that is observed during a pass of
    the liveness loop which did not start as a refresh pass sets
    [refresh_needed] by the end of the pass, however the pass ends, so a
    pass from that state is the refresh branch.  Whether there is such a
    pass is up to the loop.  If the pass ended by [continue] or by falling
    through and neither a stop nor a restart is pending at its end, the
    next pass of the loop is the refresh branch.  If the pass broke or
    raised, or a stop or a restart is pending, the loop makes no further
    pass: it ends with the record of this one. *)
Theorem rejection_reaches_refresh_branch (fuel : nat) (m : Machine W) :
  refresh_needed (st m) = false ->
  existsb (dispatched is_rejection) (trace (liveness_tick m)) = true ->
  let r := liveness_tick m in
  let m' := final r in
  refresh_needed (st m') = true
  /\ liveness_tick m' = case_refresh m'
  /\ (is_running (st m) = true -> restart_requested (st m) = false ->
      (loop_on (st m') = true ->
       outcome r = Normal Continue \/ outcome r = Normal Fallthrough ->
       liveness_loop (S (S fuel)) m
       = prefixed (trace r ++ trace (case_refresh m'))
                  (liveness_loop fuel (final (case_refresh m'))))
      /\ (loop_on (st m') = false \/ outcome r = Normal Break
          \/ (exists e, outcome r = Raised e) ->
          trace (liveness_loop (S (S fuel)) m) = trace r
          /\ final (liveness_loop (S (S fuel)) m) = m')).
Proof.
  intros Hr Hd r m'.
  assert (Hset : refresh_needed (st m') = true).
  { subst m' r. rewrite liveness_tick_cases, Hr in *.
    apply (latches_later_cases refresh_needed is_rejection rejection_signal);
      [intros t s Hs; exact Hs | right; exact Hd]. }
  assert (Htick : liveness_tick m' = case_refresh m')
    by now rewrite liveness_tick_cases, Hset.
  split; [exact Hset|]. split; [exact Htick|]. intros Hrun Hres. split.
  - intros Hon Ho. unfold loop_on in Hon.
    assert (Hstep : forall f, outcome r = Normal f -> f <> Break ->
              liveness_loop (S (S fuel)) m
              = prefixed (trace r) (liveness_loop (S fuel) m')).
    { intros f Hf Hnb. cbn [liveness_loop]. rewrite bind_get, Hrun, Hres.
      cbn [andb negb]. fold r. rewrite (bind_normal _ _ _ f Hf).
      destruct f; first [reflexivity | congruence]. }
    assert (Hnext : liveness_loop (S fuel) m'
                    = prefixed (trace (case_refresh m'))
                               (liveness_loop fuel (final (case_refresh m')))).
    { cbn [liveness_loop]. rewrite bind_get, Hon, bind_run, Htick.
      now rewrite case_refresh_continues. }
    destruct Ho as [Ho|Ho]; rewrite (Hstep _ Ho) by discriminate;
      now rewrite Hnext, prefixed_prefixed.
  - intros [Hoff|[Hb|[e He]]].
    + rewrite (liveness_loop_one_pass fuel m Hrun Hres Hoff). split; reflexivity.
    + rewrite (liveness_loop_break (S fuel) m Hrun Hres Hb). split; reflexivity.
    + cbn [liveness_loop]. rewrite bind_get, Hrun, Hres. cbn [andb negb].
      rewrite bind_run. fold r. rewrite He. split; reflexivity.
Qed.
End LoopSignals.

(** ** Stopping, and the start of a live session *)

Section SessionSignals.
Context {W : Type} {E : Engine W}.

(** Nothing in an iteration of the outer loop sets [is_running]. *)
Lemma latches_stop_iteration (fuel : nat) :
  latches stopped is_stop (session_iteration fuel).
Proof.
  pose proof (stop_signal (W := W)) as HS.
  assert (Hloop : latches stopped is_stop (liveness_loop fuel)).
  { apply latches_liveness_loop;
      [exact HS | intros t s Hs; exact Hs | intros s Hs; exact Hs]. }
  unfold session_iteration, session_block, session, on_error, load_cookies,
    live_session.
  repeat first [exact Hloop | latch_step].
Qed.

(** X3: a stop that the event loop dispatches during an iteration of the
    outer loop ends [start]'s loop when that iteration ends: [is_running]
    is false at its end, no further iteration is started, and the session
    loop returns normally with the record of that one iteration. *)
Theorem stop_ends_session_loop (fuel : nat) (m : Machine W) :
  is_running (st m) = true ->
  existsb (dispatched is_stop) (trace (session_iteration (S fuel) m)) = true ->
  outcome (session_iteration (S fuel) m) <> Starved ->
  let r := session_iteration (S fuel) m in
  is_running (st (final r)) = false
  /\ session_loop (S (S fuel)) m = Build_Run (Normal tt) (final r) (trace r).
Proof.
  intros Hrun Hd Hns r.
  assert (Hstop : is_running (st (final r)) = false).
  { apply negb_true_iff. apply (latches_stop_iteration (S fuel) m). right. exact Hd. }
  split; [exact Hstop|].
  rewrite (session_loop_next (S fuel) m Hrun). fold r.
  destruct (session_iteration_catches (S fuel) m) as (Hc & _ & _). fold r in Hc, Hns.
  rewrite (session_loop_stopped fuel (final r) Hstop).
  destruct (outcome r) as [[]|e|] eqn:Ho; [|exfalso; now apply (Hc e)|congruence].
  cbn [prefixed]. now rewrite app_nil_r.
Qed.

(** X4: the first part of a live session, lines 61-78.  The session ends
    before its liveness loop only when opening the page or installing the
    interceptor raises, and then without any navigation.  Otherwise the
    liveness loop is entered, also when the first navigation raised (the
    failure is logged and nothing else is done about it), and it is entered
    with [restart_requested] and [refresh_needed] both false and the page
    set, whatever the callbacks dispatched during the set-up did: a restart
    that [update_cookies] requested while the page was being opened or
    loaded is dropped by line 74. *)
Theorem live_session_enters_loop (fuel : nat) (m : Machine W) :
  let r := live_session fuel m in
  (exists e,
      outcome r = Raised e
      /\ (In (a_call new_page (Err e)) (trace r)
          \/ In (a_call page_route (Err e)) (trace r))
      /\ filter navigates (trace r) = [])
  \/ (exists pre m0 g,
         r = prefixed pre (live_loop fuel m0)
         /\ own pre
            = [a_call new_page (Ok tt); a_assign (w_page true);
               a_call page_route (Ok tt); a_on_response; a_print msg_navigating;
               a_call (page_goto VERTEX_URL (Some 60000)) g]
              ++ match g with
                 | Ok _ => []
                 | Err e => [a_print (msg_navigation_failed e)]
                 end
              ++ [a_assign (w_restart_requested false);
                  a_assign (w_refresh_needed false)]
         /\ restart_requested (st m0) = false
         /\ refresh_needed (st m0) = false
         /\ page (st m0) = true).
Proof.
  intros r. subst r. unfold live_session.
  rewrite bind_run, await_run. set (s0 := suspend m).
  destruct (perform new_page (world (final s0))) as [[[]|e] w0];
    cbn [outcome final trace].
  2:{ left. exists e. split; [reflexivity|]. split.
      - left. apply in_or_app. right. left. reflexivity.
      - rewrite filter_app. unfold s0. rewrite suspend_no_navigation. reflexivity. }
  rewrite bind_assign. cbn [st world].
  set (m1 := Build_Machine (apply_write (w_page true) (st (final s0))) w0).
  rewrite bind_run, await_run. set (s1 := suspend m1).
  assert (Hp1 : page (st (final s1)) = true).
  { apply (latches_suspend page (fun _ => false) page_signal m1). left. reflexivity. }
  destruct (perform page_route (world (final s1))) as [[[]|e] w1];
    cbn [outcome final trace prefixed].
  2:{ left. exists e. split; [reflexivity|]. split.
      - right. apply in_or_app. right. cbn. right. apply in_or_app. right.
        left. reflexivity.
      - rewrite !filter_app. unfold s0, s1. rewrite !suspend_no_navigation.
        reflexivity. }
  rewrite bind_emit, bind_print.
  set (m2 := Build_Machine (st (final s1)) w1).
  rewrite bind_run, try_except_run, await_run. set (s2 := suspend m2).
  assert (Hp2 : page (st (final s2)) = true).
  { apply (latches_suspend page (fun _ => false) page_signal m2). left. exact Hp1. }
  right.
  destruct (perform (page_goto VERTEX_URL (Some 60000)) (world (final s2)))
    as [[[]|e] w2]; cbn [outcome final trace prefixed print emit].
  - rewrite !bind_assign. cbn [st world]. rewrite !prefixed_prefixed.
    eexists _, _, (Ok tt). split; [reflexivity|].
    split; [|split; [reflexivity|split; [reflexivity|exact Hp2]]].
    rewrite ?own_app. unfold s0, s1, s2. rewrite !suspend_own. reflexivity.
  - rewrite !bind_assign. cbn [st world]. rewrite !prefixed_prefixed.
    eexists _, _, (Err e). split; [reflexivity|].
    split; [|split; [reflexivity|split; [reflexivity|exact Hp2]]].
    rewrite ?own_app. unfold s0, s1, s2. rewrite !suspend_own. reflexivity.
Qed.
End SessionSignals.

(** ** The [async with] is left exactly once *)

Section Resources.
Context {W : Type} {E : Engine W}.

Lemma sound_liveness_tick_inside : sound inside_playwright liveness_tick.
Proof.
  unfold liveness_tick, case_refresh, on_login_page, case_login, case_harvest,
    perform_harvest.
  prove_sound.
Qed.

Lemma recorded_liveness_loop_inside (fuel : nat) :
  recorded inside_playwright (liveness_loop fuel).
Proof.
  induction fuel as [|fuel IH]; cbn [liveness_loop].
  - apply recorded_starve.
  - apply recorded_bind; [apply recorded_of_sound, sound_get|intros self].
    destruct (is_running self && negb (restart_requested self));
      [|apply recorded_of_sound, sound_ret].
    apply recorded_bind; [apply recorded_of_sound, sound_liveness_tick_inside|intros f].
    destruct f; first [exact IH | apply recorded_of_sound, sound_ret].
Qed.

(** The body of the [async with] neither enters nor leaves it. *)
Lemma session_inside (fuel : nat) (m : Machine W) :
  filter enters_playwright (trace (session fuel m)) = []
  /\ filter leaves_playwright (trace (session fuel m)) = [].
Proof.
  assert (Hrec : recorded inside_playwright (session fuel)).
  { pose proof (recorded_liveness_loop_inside fuel) as Hloop.
    unfold session, load_cookies, live_session.
    repeat first [exact Hloop | recorded_step]. }
  destruct (Hrec m) as (Hall & _).
  split; apply own_none; try reflexivity;
    revert Hall; apply forallb_weaken; intros a Ha;
    destruct (is_callback a); cbn in *; try reflexivity;
    unfold inside_playwright in Ha; apply andb_prop in Ha; apply Ha.
Qed.

Lemma suspend_filter (Q : action -> bool) (m : Machine W) :
  (forall cb inner, Q (a_callback cb inner) = false) ->
  filter Q (trace (suspend m)) = [].
Proof. intros HQ. apply callbacks_only_filter; [exact HQ | apply suspend_callbacks]. Qed.

(** X5: the browser driver is entered once in every iteration of the outer
    loop and, when entering it succeeded, left exactly once, whatever
    happens in between: a launch that fails, malformed cookies, an
    exception out of the liveness loop or a normal end of the session.
    When entering fails there is nothing to leave. *)
Theorem playwright_left_once (fuel : nat) (m : Machine W) :
  outcome (session_iteration fuel m) <> Starved ->
  let tr := trace (session_iteration fuel m) in
  exists r,
    filter enters_playwright tr = [a_call playwright_start r]
    /\ match r with
       | Ok _ => exists r', filter leaves_playwright tr = [a_call playwright_stop r']
       | Err _ => filter leaves_playwright tr = []
       end.
Proof.
  rewrite session_iteration_unfold, try_bind_run, await_run.
  destruct (perform playwright_start (world (final (suspend m)))) as [[[]|e0] w0];
    cbn [outcome final trace].
  - set (m1 := Build_Machine (st (final (suspend m))) w0).
    destruct (session_inside fuel m1) as (F1 & F2).
    rewrite try_except_run. unfold finally.
    remember (session fuel m1) as X eqn:HX. destruct X as [o mx tx].
    cbn [trace] in F1, F2. clear HX.
    rewrite await_run.
    destruct (perform playwright_stop (world (final (suspend mx)))) as [[[]|e1] w1];
      destruct o as [[]|e|]; cbn [outcome final trace prefixed];
      intros Hns; cbv zeta; try congruence; exists (Ok tt);
      rewrite ?on_error_run; cbn [outcome final trace prefixed];
      rewrite !filter_app, ?F1, ?F2, !suspend_filter by reflexivity;
      (split; [reflexivity | eexists; reflexivity]).
  - intros _. cbv zeta. exists (Err e0).
    rewrite on_error_run. cbn [prefixed trace].
    rewrite !filter_app, !suspend_filter by reflexivity.
    split; reflexivity.
Qed.
End Resources.

(** ** What changes only through a callback *)

Section Keeps.
Context {W : Type} {E : Engine W}.
Variable G : SessionState -> bool.
Variable T : callback -> bool.

Lemma keeps_still {A} (p : M W A) :
  (forall m, st (final (p m)) = st m) -> keeps G T p.
Proof. intros H m Hg _. now rewrite H. Qed.

Lemma keeps_ret {A} (a : A) : keeps G T (@ret W A a).
Proof. now apply keeps_still. Qed.

Lemma keeps_raise {A} (e : exn) : keeps G T (@raise W A e).
Proof. now apply keeps_still. Qed.

Lemma keeps_starve {A} : keeps G T (@starve W A).
Proof. now apply keeps_still. Qed.

Lemma keeps_get : keeps G T (@get W).
Proof. now apply keeps_still. Qed.

Lemma keeps_lift {A} (r : PyResult A) : keeps G T (@lift W A r).
Proof. destruct r; [apply keeps_ret | apply keeps_raise]. Qed.

Lemma keeps_emit (a : action) : keeps G T (@emit W a).
Proof. now apply keeps_still. Qed.

Lemma keeps_print (msg : message) : keeps G T (@print W msg).
Proof. now apply keeps_still. Qed.

Lemma keeps_assign (w : write) :
  (forall s, G s = true -> G (apply_write w s) = true) -> keeps G T (@assign W w).
Proof. intros H m Hg _. apply H, Hg. Qed.

Lemma keeps_time : keeps G T time.
Proof.
  apply keeps_still. intros m. unfold time.
  now destruct (time_time (world m)) as [t w].
Qed.

Lemma keeps_page_url : keeps G T page_url.
Proof.
  apply keeps_still. intros m. unfold page_url.
  now destruct (url (world m)) as [u w].
Qed.

Lemma keeps_latest_harvest : keeps G T cred_manager_latest_harvest.
Proof.
  apply keeps_still. intros m. unfold cred_manager_latest_harvest.
  now destruct (latest_harvest (world m)) as [b w].
Qed.

Lemma keeps_engine_call (c : call) : keeps G T (engine_call c).
Proof.
  apply keeps_still. intros m. unfold engine_call.
  now destruct (perform c (world m)) as [r w].
Qed.

Lemma keeps_bind {A B} (p : M W A) (f : A -> M W B) :
  keeps G T p -> (forall a, keeps G T (f a)) -> keeps G T (bind p f).
Proof.
  intros Hp Hf m Hg H. rewrite bind_run in *. specialize (Hp m Hg).
  destruct (outcome (p m)) as [a|e|]; cbn [final trace] in *; auto.
  rewrite final_prefixed. rewrite trace_prefixed, existsb_app in H.
  apply orb_false_elim in H. destruct H as [H1 H2]. apply Hf; auto.
Qed.

Lemma keeps_try_except_if {A} (catches : exn -> bool) (p : M W A)
    (h : exn -> M W A) :
  keeps G T p -> (forall e, keeps G T (h e)) ->
  keeps G T (try_except_if catches p h).
Proof.
  intros Hp Hh m Hg H. rewrite try_except_if_run in *. specialize (Hp m Hg).
  destruct (outcome (p m)) as [a|e|]; auto.
  destruct (catches e); auto.
  rewrite final_prefixed. rewrite trace_prefixed, existsb_app in H.
  apply orb_false_elim in H. destruct H as [H1 H2]. apply Hh; auto.
Qed.

Lemma keeps_try_except {A} (p : M W A) (h : exn -> M W A) :
  keeps G T p -> (forall e, keeps G T (h e)) -> keeps G T (try_except p h).
Proof. apply keeps_try_except_if. Qed.

Lemma keeps_finally {A} (p : M W A) (q : M W unit) :
  keeps G T p -> keeps G T q -> keeps G T (finally p q).
Proof.
  intros Hp Hq m Hg. unfold finally. specialize (Hp m Hg).
  specialize (Hq (final (p m))).
  destruct (p m) as [o m' tr]. cbn [final trace] in *.
  destruct (q m') as [o' m'' tr']. cbn [final trace] in *.
  assert (Hgo : existsb (dispatched T) (tr ++ tr') = false -> G (st m'') = true).
  { intros H. rewrite existsb_app in H. apply orb_false_elim in H.
    destruct H as [H1 H2]. auto. }
  destruct o as [a|e|]; [| |exact Hp]; destruct o' as [[]|e'|]; exact Hgo.
Qed.

Hypothesis HG : Guarded (W := W) G T.

Lemma keeps_deliver (cb : callback) : keeps G T (deliver cb).
Proof.
  intros m Hg H. unfold deliver in *. specialize (HG cb m).
  destruct (run_callback cb m) as [o m' inner]. cbn in *.
  rewrite orb_false_r in H. auto.
Qed.

Lemma keeps_deliver_all (cbs : list callback) : keeps G T (deliver_all cbs).
Proof.
  induction cbs as [|cb rest IH]; cbn [deliver_all].
  - apply keeps_ret.
  - apply keeps_bind; [apply keeps_deliver | intros; exact IH].
Qed.

Lemma keeps_suspend : keeps G T suspend.
Proof.
  intros m Hg H. unfold suspend in *. destruct (dispatch (world m)) as [cbs w].
  now apply (keeps_deliver_all cbs (Build_Machine (st m) w)).
Qed.

Lemma keeps_await (c : call) : keeps G T (await c).
Proof.
  unfold await. apply keeps_bind; [apply keeps_suspend | intros].
  apply keeps_engine_call.
Qed.

Lemma keeps_sleep (ms : Z) : keeps G T (sleep ms).
Proof.
  unfold sleep. apply keeps_bind; [apply keeps_suspend | intros].
  apply keeps_emit.
Qed.

Lemma keeps_page_is_visible (sel : selector) : keeps G T (page_is_visible sel).
Proof.
  unfold page_is_visible. apply keeps_bind; [apply keeps_suspend | intros].
  apply keeps_still. intros m. now destruct (is_visible sel (world m)) as [r w].
Qed.

Lemma keeps_page_title : keeps G T page_title.
Proof.
  unfold page_title. apply keeps_bind; [apply keeps_suspend | intros].
  apply keeps_still. intros m. now destruct (title (world m)) as [r w].
Qed.

Lemma keeps_for_each {A} (xs : list A) (body : A -> M W unit) :
  (forall x, keeps G T (body x)) -> keeps G T (for_each xs body).
Proof.
  intros Hb. induction xs as [|x rest IH]; cbn [for_each].
  - apply keeps_ret.
  - apply keeps_bind; [apply Hb | intros; exact IH].
Qed.
End Keeps.

(** One step of a proof that a computation keeps [G]; the guard is taken
    from the context, and an assignment must leave [G] as it is. *)
Ltac keep_step :=
  match goal with
  | |- keeps _ _ (bind _ _) => apply keeps_bind; [|intros]
  | |- keeps _ _ (try_except _ _) => apply keeps_try_except; [|intros]
  | |- keeps _ _ (try_except_if _ _ _) => apply keeps_try_except_if; [|intros]
  | |- keeps _ _ (finally _ _) => apply keeps_finally
  | |- keeps _ _ (ret _) => apply keeps_ret
  | |- keeps _ _ (raise _) => apply keeps_raise
  | |- keeps _ _ starve => apply keeps_starve
  | |- keeps _ _ get => apply keeps_get
  | |- keeps _ _ (lift _) => apply keeps_lift
  | |- keeps _ _ (print _) => apply keeps_print
  | |- keeps _ _ (emit _) => apply keeps_emit
  | |- keeps _ _ (assign _) => apply keeps_assign; intros ? Hs; exact Hs
  | |- keeps _ _ time => apply keeps_time
  | |- keeps _ _ page_url => apply keeps_page_url
  | |- keeps _ _ cred_manager_latest_harvest => apply keeps_latest_harvest
  | |- keeps _ _ (engine_call _) => apply keeps_engine_call
  | |- keeps _ _ (await _) => apply keeps_await; assumption
  | |- keeps _ _ (sleep _) => apply keeps_sleep; assumption
  | |- keeps _ _ (page_is_visible _) => apply keeps_page_is_visible; assumption
  | |- keeps _ _ page_title => apply keeps_page_title; assumption
  | |- keeps _ _ suspend => apply keeps_suspend; assumption
  | |- keeps _ _ (for_each _ _) => apply keeps_for_each; intros
  | |- keeps _ _ (if ?b then _ else _) => destruct b
  | |- keeps _ _ (match ?x with _ => _ end) => destruct x
  | |- keeps _ _ (let _ := _ in _) => cbv zeta
  end.

Section Guards.
Context {W : Type} {E : Engine W}.

(** A request that does not qualify leaves [self] as it is. *)
Lemma handle_route_ignores (request : Request) (m : Machine W) :
  qualifies request = false ->
  st (final (handle_route request m)) = st m.
Proof.
  intros Hq. unfold handle_route. unfold qualifies in Hq.
  destruct (contains ENDPOINT (req_url request) && (req_method request =? "POST")%string);
    [|run_py; reflexivity].
  destruct (req_post_data request) as [[body|]|e]; cbn [andb] in Hq;
    [|run_py; reflexivity..].
  unfold_py. cbv beta iota zeta. rewrite Hq. run_py; reflexivity.
Qed.

(** Only the owner's stop clears [is_running]. *)
Lemma running_guard : Guarded (W := W) is_running is_stop.
Proof.
  intros cb m Ht H. destruct cb as [request|response|c|]; unfold run_callback.
  - unfold handle_route.
    destruct (req_post_data request) as [[body|]|e]; run_py; exact H.
  - unfold handle_response. run_py; exact H.
  - exact H.
  - discriminate.
Qed.

(** Only a cookie update or a stop ends the condition of line 78. *)
Lemma loop_on_guard : Guarded (W := W) loop_on ends_loop.
Proof.
  intros cb m Ht H. destruct cb as [request|response|c|]; unfold run_callback.
  - unfold handle_route.
    destruct (req_post_data request) as [[body|]|e]; run_py; exact H.
  - unfold handle_response. run_py; exact H.
  - discriminate.
  - discriminate.
Qed.

(** Only a capture moves [last_harvest_time]. *)
Lemma harvest_time_guard (v : Z) :
  Guarded (W := W) (fun s => last_harvest_time s =? v)%Z is_capture.
Proof.
  intros cb m Ht H. destruct cb as [request|response|c|]; unfold run_callback.
  - cbn [is_capture] in Ht. now rewrite (handle_route_ignores request m Ht).
  - unfold handle_response. run_py; exact H.
  - exact H.
  - exact H.
Qed.

Section AnyGuard.
Variable G : SessionState -> bool.
Variable T : callback -> bool.
Hypothesis HG : Guarded (W := W) G T.
Hypothesis Hretry :
  forall t s, G s = true -> G (apply_write (w_last_login_retry_time t) s) = true.
Hypothesis Hclear :
  forall s, G s = true -> G (apply_write (w_refresh_needed false) s) = true.

Lemma keeps_perform_harvest : keeps G T perform_harvest.
Proof. unfold perform_harvest. repeat keep_step. Qed.

Lemma keeps_liveness_tick : keeps G T liveness_tick.
Proof.
  pose proof keeps_perform_harvest as Hh.
  unfold liveness_tick, case_refresh, on_login_page, case_login, case_harvest.
  repeat first [ exact Hh
               | apply keeps_assign; first [apply Hretry | exact Hclear]
               | keep_step ].
Qed.

Lemma keeps_liveness_loop (fuel : nat) : keeps G T (liveness_loop fuel).
Proof.
  induction fuel as [|fuel IH]; cbn [liveness_loop].
  - apply keeps_starve.
  - apply keeps_bind; [apply keeps_get | intros self].
    destruct (is_running self && negb (restart_requested self)); [|apply keeps_ret].
    apply keeps_bind; [apply keeps_liveness_tick | intros f].
    destruct f; first [exact IH | apply keeps_ret].
Qed.

Hypothesis Hpage : forall s, G s = true -> G (apply_write (w_page true) s) = true.
Hypothesis Hrestart :
  forall s, G s = true -> G (apply_write (w_restart_requested false) s) = true.
Hypothesis Hcookies :
  forall s, G s = true -> G (apply_write (w_current_cookies None) s) = true.

Lemma keeps_session_iteration (fuel : nat) : keeps G T (session_iteration fuel).
Proof.
  pose proof (keeps_liveness_loop fuel) as Hloop.
  unfold session_iteration, session_block, session, on_error, load_cookies,
    live_session.
  repeat first [ exact Hloop
               | apply keeps_assign;
                 first [exact Hpage | exact Hrestart | exact Hclear | exact Hcookies]
               | keep_step ].
Qed.

Lemma keeps_session_loop (fuel : nat) : keeps G T (session_loop fuel).
Proof.
  induction fuel as [|fuel IH]; cbn [session_loop].
  - apply keeps_starve.
  - apply keeps_bind; [apply keeps_get | intros self].
    destruct (is_running self); [|apply keeps_ret].
    apply keeps_bind; [apply keeps_session_iteration | intros; exact IH].
Qed.
End AnyGuard.

(** The liveness loop returns for one of its three reasons only. *)
Lemma liveness_loop_exit (fuel : nat) (m : Machine W) :
  outcome (liveness_loop fuel m) = Normal tt ->
  loop_on (st (final (liveness_loop fuel m))) = false
  \/ In (a_print msg_cookies_expired) (trace (liveness_loop fuel m)).
Proof.
  revert m. induction fuel as [|fuel IH]; intros m; cbn [liveness_loop].
  - discriminate.
  - rewrite bind_get. fold (loop_on (st m)).
    destruct (loop_on (st m)) eqn:Hon; [|intros _; left; exact Hon].
    rewrite bind_run.
    destruct (outcome (liveness_tick m)) as [f|e|] eqn:Ho; try discriminate.
    assert (Hgo : outcome (liveness_loop fuel (final (liveness_tick m))) = Normal tt ->
                  loop_on (st (final (liveness_loop fuel (final (liveness_tick m))))) = false
                  \/ In (a_print msg_cookies_expired)
                        (trace (liveness_tick m)
                         ++ trace (liveness_loop fuel (final (liveness_tick m))))).
    { intros H. destruct (IH _ H) as [H1|H1]; [left; exact H1|].
      right. apply in_or_app. right. exact H1. }
    destruct f; rewrite outcome_prefixed, final_prefixed, trace_prefixed; try exact Hgo.
    intros _. right. apply in_or_app. left.
    (* the pass that broke printed the expiry *)
    rewrite liveness_tick_cases in *.
    destruct (refresh_needed (st m)) eqn:Hr.
    + pose proof (case_refresh_run m) as Hrun. cbv zeta in Hrun.
      destruct (perform page_reload _) as [[[]|e] w] in Hrun;
        rewrite Hrun in Ho; discriminate.
    + unfold later_cases in *. rewrite bind_run in *.
      destruct (outcome (on_login_page m)) as [login|e|] eqn:Hl; try discriminate.
      rewrite outcome_prefixed in Ho. rewrite trace_prefixed.
      apply in_or_app. right. rewrite bind_run in *.
      destruct login.
      * pose proof (case_login_run (final (on_login_page m))) as Hrun. cbv zeta in Hrun.
        destruct (_ >? LOGIN_COOLDOWN).
        -- destruct (perform (page_goto VERTEX_URL None) _) as [[[]|e] w] in Hrun;
             rewrite Hrun in *; cbn [outcome final trace] in *; try discriminate.
           exfalso. rewrite outcome_prefixed, bind_run in Ho.
           destruct (outcome (case_harvest _)) as [[]|e'|]; try discriminate.
           rewrite outcome_prefixed, bind_sleep, outcome_prefixed in Ho. discriminate.
        -- rewrite Hrun. cbn. auto.
      * exfalso. cbn [ret outcome final trace] in Ho.
        rewrite outcome_prefixed, bind_run in Ho.
        destruct (outcome (case_harvest _)) as [[]|e'|]; try discriminate.
        rewrite outcome_prefixed, bind_sleep, outcome_prefixed in Ho. discriminate.
Qed.

(** X6: [start] runs until it is stopped.  From a controller that is not
    running, [start] returns only after the event loop has dispatched a
    stop during one of its suspensions: nothing the class does itself ends
    the outer loop, neither an exception, nor expired or malformed cookies,
    nor a restart. *)
Theorem start_returns_only_when_stopped (fuel : nat) (m : Machine W) :
  is_running (st m) = false ->
  outcome (start fuel m) = Normal tt ->
  existsb (dispatched is_stop) (trace (start fuel m)) = true.
Proof.
  intros Hrun. unfold start. rewrite bind_get, Hrun.
  assert (Hgo : forall pre m1,
             is_running (st m1) = true ->
             outcome (prefixed pre ((session_loop fuel ;; print msg_stopped) m1)) = Normal tt ->
             existsb (dispatched is_stop)
                     (trace (prefixed pre ((session_loop fuel ;; print msg_stopped) m1))) = true).
  { intros pre m1 H1. rewrite outcome_prefixed, trace_prefixed, bind_run.
    destruct (session_loop_outcome fuel m1) as (_ & Hend).
    destruct (outcome (session_loop fuel m1)) as [[]|e|] eqn:Ho; try discriminate.
    intros _. specialize (Hend eq_refl).
    destruct (existsb (dispatched is_stop) (trace (session_loop fuel m1))) eqn:Hd.
    - cbn [prefixed print emit trace]. rewrite !existsb_app, Hd.
      now rewrite orb_true_r.
    - exfalso.
      assert (Hk : is_running (st (final (session_loop fuel m1))) = true).
      { apply (keeps_session_loop is_running is_stop running_guard); auto. }
      congruence. }
  destruct (negb (truthy (current_cookies (st m)))).
  - rewrite bind_print, bind_print, prefixed_prefixed, bind_assign, prefixed_prefixed.
    apply Hgo. reflexivity.
  - rewrite bind_ret, bind_print, bind_assign, prefixed_prefixed.
    apply Hgo. reflexivity.
Qed.

(** X7: the liveness loop ends for one of three reasons only.  When it
    returns, from a running controller with no restart pending, then either
    a pass found the cookies expired (the terminal branch of the login
    redirect, which logs it), or the event loop dispatched a cookie update
    or a stop during the loop.  Nothing else ends a live session normally:
    not a failed reload, a failed navigation or a failed interaction. *)
Theorem liveness_loop_exit_reasons (fuel : nat) (m : Machine W) :
  is_running (st m) = true -> restart_requested (st m) = false ->
  outcome (liveness_loop fuel m) = Normal tt ->
  In (a_print msg_cookies_expired) (trace (liveness_loop fuel m))
  \/ existsb (dispatched ends_loop) (trace (liveness_loop fuel m)) = true.
Proof.
  intros Hrun Hres Ho.
  destruct (liveness_loop_exit fuel m Ho) as [Hoff|Hexp]; [|left; exact Hexp].
  right. destruct (existsb (dispatched ends_loop) (trace (liveness_loop fuel m))) eqn:Hd;
    [reflexivity|exfalso].
  assert (Hk : loop_on (st (final (liveness_loop fuel m))) = true).
  { apply (keeps_liveness_loop loop_on ends_loop loop_on_guard);
      [intros t s Hs; exact Hs | intros s Hs; exact Hs | | exact Hd].
    unfold loop_on. now rewrite Hrun, Hres. }
  congruence.
Qed.

(** X8: [last_harvest_time] moves only when a request is captured.  In a
    run of [start] during which the interceptor saw no request that
    qualifies (endpoint, POST, a body with a generation marker),
    [last_harvest_time] is at the end what it was at the start: the loops,
    the interaction procedure and the other callbacks never assign it. *)
Theorem harvest_time_moves_only_on_capture (fuel : nat) (m : Machine W) :
  existsb (dispatched is_capture) (trace (start fuel m)) = false ->
  last_harvest_time (st (final (start fuel m))) = last_harvest_time (st m).
Proof.
  intros Hd. apply Z.eqb_eq.
  assert (Hk : keeps (fun s => last_harvest_time s =? last_harvest_time (st m))%Z
                     is_capture (start fuel)).
  { pose proof (harvest_time_guard (last_harvest_time (st m))) as HG.
    assert (Hloop : keeps (fun s => last_harvest_time s =? last_harvest_time (st m))%Z
                          is_capture (session_loop fuel)).
    { apply keeps_session_loop; try exact HG; intros; assumption. }
    unfold start. repeat first [exact Hloop | keep_step]. }
  apply (Hk m); [apply Z.eqb_refl | exact Hd].
Qed.
End Guards.

(** ** What the interceptor passes on and what it changes *)

Section Interceptor.
Context {W : Type} {E : Engine W}.

(** The record of the interceptor: nothing for the sink, or the log line
    and then the artifact of the request. *)
Lemma handle_route_record (request : Request) (m : Machine W) :
  (qualifies request = false
   /\ filter forwards (trace (handle_route request m)) = [])
  \/ (exists body res rest,
         req_post_data request = Ok (Some body)
         /\ qualifies request = true
         /\ trace (handle_route request m)
            = a_print msg_captured
              :: a_update (harvest_data_of request body) res :: rest
         /\ filter forwards rest = []).
Proof.
  unfold qualifies, handle_route.
  destruct (contains ENDPOINT (req_url request) && (req_method request =? "POST")%string);
    [|run_py; left; split; reflexivity].
  destruct (req_post_data request) as [[body|]|e] eqn:Hb; cbn [andb];
    [|run_py; left; split; reflexivity..].
  unfold_py. cbv beta iota zeta.
  destruct (negb (body =? "")%string
            && (contains MARKER_STREAM body || contains MARKER_GENERATE body));
    [|run_py; left; split; reflexivity].
  unfold harvest_data_of.
  run_py; right; eexists _, _, _; conjs; reflexivity.
Qed.

(** X9: the interceptor forwards a request to the sink exactly when the
    request qualifies (endpoint in the URL, method POST, a readable,
    non-empty body with a generation marker), at most once, and what it
    forwards is the request's own URL, method, headers and body, unchanged.
    Every other request, one whose body cannot be read included, reaches
    the sink in no form. *)
Theorem handle_route_forwards_verbatim (request : Request) (m : Machine W) :
  let tr := trace (handle_route request m) in
  (qualifies request = true <-> exists data res, In (a_update data res) tr)
  /\ (forall data res,
         In (a_update data res) tr ->
         exists body,
           req_post_data request = Ok (Some body)
           /\ data = harvest_data_of request body)
  /\ (List.length (filter forwards tr) <= 1)%nat.
Proof.
  cbv zeta.
  destruct (handle_route_record request m)
    as [(Hq & Hf)|(body & res & rest & Hb & Hq & Htr & Hf)].
  - assert (Hno : forall data res,
               ~ In (a_update data res) (trace (handle_route request m))).
    { intros data res. now apply (not_in_filter forwards). }
    conjs.
    + rewrite Hq. split; [discriminate | intros (data & res & Hin); now apply Hno in Hin].
    + intros data res Hin. now apply Hno in Hin.
    + rewrite Hf. cbn. lia.
  - rewrite Htr. conjs.
    + split; [intros _; eexists _, _; right; left; reflexivity | intros _; exact Hq].
    + intros data res' [Hin|[Hin|Hin]]; [discriminate| |].
      * inversion Hin. subst. exists body. split; [exact Hb | reflexivity].
      * exfalso. exact (not_in_filter forwards rest (a_update data res') Hf eq_refl Hin).
    + cbn. rewrite Hf. cbn. lia.
Qed.

(** X10: a capture is all or nothing.  Whatever the request and whatever
    the sink and the route do, [handle_route] either leaves every attribute
    of [self] as it was, or the request qualified, the sink accepted it,
    and both [last_harvest_time] (the clock reading taken after the sink
    returned) and [last_login_retry_time] (zero) were set.  It never sets
    one without the other and never touches [is_running],
    [current_cookies], [restart_requested], [refresh_needed] or the
    page. *)
Theorem handle_route_all_or_nothing (request : Request) (m : Machine W) :
  let r := handle_route request m in
  st (final r) = st m
  \/ (exists body w1,
         req_post_data request = Ok (Some body)
         /\ qualifies request = true
         /\ update (harvest_data_of request body) (world m) = (Ok tt, w1)
         /\ st (final r)
            = apply_write (w_last_login_retry_time 0)
                (apply_write (w_last_harvest_time (fst (time_time w1))) (st m))).
Proof.
  cbv zeta. destruct (qualifies request) eqn:Hq.
  2:{ left. now apply handle_route_ignores. }
  unfold qualifies in Hq. unfold handle_route.
  destruct (contains ENDPOINT (req_url request) && (req_method request =? "POST")%string);
    [|discriminate].
  destruct (req_post_data request) as [[body|]|e] eqn:Hb; cbn [andb] in Hq;
    try discriminate.
  unfold_py. cbv beta iota zeta. rewrite Hq. unfold harvest_data_of.
  run_py;
    first [ left; reflexivity
          | right; eexists _, _;
            split; [reflexivity|split; [reflexivity|split; [eassumption|]]];
            match goal with
            | H : time_time _ = _ |- _ => rewrite H
            end; reflexivity ].
Qed.
End Interceptor.

(** ** The interaction procedure, whatever the page does *)

Section Blames.
Context {W : Type} {E : Engine W}.
Variable Q : exn -> action -> Prop.

Lemma blames_normal {A} (p : M W A) :
  (forall m e, outcome (p m) <> Raised e) -> blames Q p.
Proof. intros H m e He. now apply H in He. Qed.

Lemma blames_ret {A} (a : A) : blames Q (@ret W A a).
Proof. apply blames_normal. discriminate. Qed.

Lemma blames_print (msg : message) : blames Q (@print W msg).
Proof. apply blames_normal. discriminate. Qed.

Lemma blames_sleep (ms : Z) : blames Q (sleep ms).
Proof. apply blames_normal. intros m e. rewrite sleep_run. discriminate. Qed.

Lemma blames_await (c : call) :
  (forall e, Q e (a_call c (Err e))) -> blames Q (await c).
Proof.
  intros HQ m e. rewrite await_run.
  destruct (perform c (world (final (suspend m)))) as [[[]|e'] w];
    cbn [outcome trace]; [discriminate|].
  intros H. inversion H. subst e'. exists (a_call c (Err e)).
  split; [apply in_or_app; right; left; reflexivity | apply HQ].
Qed.

Lemma blames_page_is_visible (sel : selector) :
  (forall e, Q e (a_is_visible sel (Err e))) -> blames Q (page_is_visible sel).
Proof.
  intros HQ m e. unfold page_is_visible. rewrite bind_suspend.
  destruct (is_visible sel (world (final (suspend m)))) as [[b|e'] w];
    cbn [prefixed outcome trace]; [discriminate|].
  intros H. inversion H. subst e'. exists (a_is_visible sel (Err e)).
  split; [apply in_or_app; right; left; reflexivity | apply HQ].
Qed.

Lemma blames_bind {A B} (p : M W A) (f : A -> M W B) :
  blames Q p -> (forall a, blames Q (f a)) -> blames Q (bind p f).
Proof.
  intros Hp Hf m e. rewrite bind_run. specialize (Hp m).
  destruct (outcome (p m)) as [a|e'|]; cbn [outcome trace]; [| |discriminate].
  - rewrite outcome_prefixed, trace_prefixed. intros H.
    destruct (Hf a _ _ H) as (x & Hin & Hx). exists x.
    split; [apply in_or_app; right; exact Hin | exact Hx].
  - intros H. inversion H. subst e'. now apply Hp.
Qed.

(** A handler that cannot raise ends every exception of its block. *)
Lemma blames_try_except {A} (p : M W A) (h : exn -> M W A) :
  (forall e, blames Q (h e)) -> blames Q (try_except p h).
Proof.
  intros Hh m e. rewrite try_except_run.
  destruct (outcome (p m)) as [a|e'|] eqn:Ho; try congruence.
  rewrite outcome_prefixed, trace_prefixed. intros H.
  destruct (Hh e' _ _ H) as (x & Hin & Hx). exists x.
  split; [apply in_or_app; right; exact Hin | exact Hx].
Qed.

Lemma blames_for_each {A} (xs : list A) (body : A -> M W unit) :
  (forall x, blames Q (body x)) -> blames Q (for_each xs body).
Proof.
  intros Hb. induction xs as [|x rest IH]; cbn [for_each].
  - apply blames_ret.
  - apply blames_bind; [apply Hb | intros; exact IH].
Qed.
End Blames.

Ltac blame_step :=
  match goal with
  | |- blames _ (bind _ _) => apply blames_bind; [|intros]
  | |- blames _ (try_except _ _) => apply blames_try_except; intros
  | |- blames _ (for_each _ _) => apply blames_for_each; intros
  | |- blames _ (ret _) => apply blames_ret
  | |- blames _ (print _) => apply blames_print
  | |- blames _ (sleep _) => apply blames_sleep
  | |- blames _ (await _) =>
      apply blames_await; intros; unfold terms_failure; auto
  | |- blames _ (page_is_visible _) =>
      apply blames_page_is_visible; intros; unfold terms_failure; auto
  | |- blames _ (if ?b then _ else _) => destruct b
  end.

Section InteractionFacts.
Context {W : Type} {E : Engine W}.

(** The dialogs raise only where the terms dialog has no handler; a popup
    never does. *)
Lemma blames_harvest_prelude : blames terms_failure harvest_prelude.
Proof. unfold harvest_prelude. repeat blame_step. Qed.

Lemma try_except_keeps_record {A} (p : M W A) (h : exn -> M W A) (m : Machine W)
    (a : action) :
  In a (trace (p m)) -> In a (trace (try_except p h m)).
Proof.
  intros Hin. rewrite try_except_run.
  destruct (outcome (p m)); try exact Hin.
  rewrite trace_prefixed. apply in_or_app. left. exact Hin.
Qed.

Lemma in_own (a : action) (tr : list action) :
  In a tr -> is_callback a = false -> In a (own tr).
Proof. intros Hin Hc. apply filter_In. split; [exact Hin | now rewrite Hc]. Qed.

(** X11: the editor is always reached unless the terms dialog fails.  With
    a page, a run of the interaction procedure either waits for the editor,
    or was cut short by an exception of the visibility test of the terms
    dialog or of one of its two scripts (ticking the checkbox, clicking
    Agree), and then ends with the log line of that exception.  Nothing
    else stops it on the way: not the scrolling, not the wait for the
    dialog to close, and no probe or click of the three popups. *)
Theorem perform_harvest_reaches_editor (m : Machine W) :
  page (st m) = true ->
  let tr := trace (perform_harvest m) in
  (exists r, In (a_call (page_wait_for_selector editor_selector Visible 5000) r) tr)
  \/ (exists e a pre,
         In a tr /\ terms_failure e a
         /\ tr = pre ++ [a_print (msg_interaction_failed e)]
         /\ filter editor_wait tr = []).
Proof.
  intros Hp tr. subst tr.
  rewrite (perform_harvest_run m Hp), trace_prefixed, try_bind_run.
  destruct (sound_harvest_prelude m) as (Hpre & _ & Hns).
  pose proof (blames_harvest_prelude m) as Hbl.
  destruct (outcome (harvest_prelude m)) as [[]|e|] eqn:Ho; [| |congruence].
  - left. rewrite trace_prefixed.
    set (m1 := final (harvest_prelude m)).
    pose proof (harvest_editor_run m1) as Hrun. cbv zeta in Hrun.
    destruct (perform _ (world (final (suspend m1)))) as [[[]|e] w] eqn:Hw.
    + exists (Ok tt). repeat first [apply in_cons | apply in_or_app; right].
      apply try_except_keeps_record. rewrite Hrun, trace_prefixed.
      apply in_or_app. left. right. apply in_or_app. right. left. reflexivity.
    + exists (Err e). repeat first [apply in_cons | apply in_or_app; right].
      apply try_except_keeps_record. rewrite Hrun. cbn [trace].
      right. apply in_or_app. right. left. reflexivity.
  - right. destruct (Hbl e eq_refl) as (a & Hin & Ha).
    exists e, a, (a_print msg_attempting :: trace (harvest_prelude m)).
    rewrite trace_prefixed. cbn [print emit trace].
    split; [apply in_or_app; right; apply in_or_app; left; exact Hin|].
    split; [exact Ha|]. split; [reflexivity|].
    cbn. rewrite filter_app. cbn. rewrite app_nil_r.
    apply own_none; [|reflexivity].
    revert Hpre. apply forallb_weaken. intros x Hx.
    destruct (is_callback x); cbn in *; [reflexivity|].
    unfold prelude_action in Hx.
    apply andb_prop in Hx. destruct Hx as [Hx _].
    apply andb_prop in Hx. apply Hx.
Qed.
End InteractionFacts.

(** ** The submission of the interaction procedure *)

(** A key press in a record that has none. *)
Ltac no_press H :=
  match type of H with
  | In ?a ?tr =>
      match goal with
      | Hf : filter presses tr = [] |- _ =>
          exact (not_in_filter presses tr a Hf eq_refl H)
      end
  end.

Section Submission.
Context {W : Type} {E : Engine W}.

(** The typing, lines 214-223: either all of it up to the key press, or an
    exception before any key was pressed. *)
Lemma harvest_submit_cases (m : Machine W) :
  (exists r,
      own (trace (harvest_submit m))
      = [a_call (page_click editor_selector true) (Ok tt);
         a_call (page_evaluate js_clear_editor) (Ok tt);
         a_call (page_fill editor_selector "Hello") (Ok tt);
         a_sleep 500; a_print msg_sending_hello;
         a_call (page_press editor_selector "Enter") r]
        ++ match r with Ok _ => [a_sleep 3000] | Err _ => [] end
      /\ outcome (harvest_submit m)
         = match r with Ok _ => Normal tt | Err e => Raised e end)
  \/ (filter presses (trace (harvest_submit m)) = []
      /\ exists e, outcome (harvest_submit m) = Raised e).
Proof.
  unfold harvest_submit.
  rewrite bind_run, await_run.
  destruct (perform (page_click editor_selector true) _) as [[[]|e] w1];
    cbn [outcome final trace].
  2:{ right. split; [|eexists; reflexivity].
      rewrite filter_app, suspend_filter by reflexivity. reflexivity. }
  rewrite bind_run, await_run.
  destruct (perform (page_evaluate js_clear_editor) _) as [[[]|e] w2];
    cbn [outcome final trace prefixed].
  2:{ right. split; [|eexists; reflexivity].
      rewrite !filter_app, !suspend_filter by reflexivity. reflexivity. }
  rewrite bind_run, await_run.
  destruct (perform (page_fill editor_selector "Hello") _) as [[[]|e] w3];
    cbn [outcome final trace prefixed].
  2:{ right. split; [|eexists; reflexivity].
      rewrite !filter_app, !suspend_filter by reflexivity. reflexivity. }
  rewrite bind_sleep, bind_print, bind_run, await_run.
  destruct (perform (page_press editor_selector "Enter") _) as [[[]|e] w4];
    cbn [outcome final trace prefixed].
  - rewrite sleep_run. cbn [outcome final trace prefixed].
    left. exists (Ok tt). split; [|reflexivity].
    rewrite !own_app, !suspend_own. reflexivity.
  - left. exists (Err e). split; [|reflexivity].
    rewrite !own_app, !suspend_own. reflexivity.
Qed.

Lemma prelude_does_not_submit (m : Machine W) :
  forallb (fun a => negb (submits a)) (own (trace (harvest_prelude m))) = true
  /\ filter presses (trace (harvest_prelude m)) = [].
Proof.
  destruct (sound_harvest_prelude m) as (Hpre & _ & _).
  assert (Hp : forall x, is_callback x || prelude_action x = true ->
                         is_callback x = false -> submits x = false).
  { intros x Hx Hc. rewrite Hc in Hx. cbn in Hx. unfold prelude_action in Hx.
    apply andb_prop in Hx. destruct Hx as [Hx _].
    apply andb_prop in Hx. destruct Hx as [Hx _].
    apply andb_prop in Hx. destruct Hx as [_ Hx].
    now apply negb_true_iff in Hx. }
  rewrite forallb_forall in Hpre. split.
  - apply forallb_forall. intros x Hx. unfold own in Hx.
    apply filter_In in Hx. destruct Hx as [Hx Hc].
    apply negb_true_iff in Hc. apply negb_true_iff. apply Hp; auto.
  - apply own_none; [|reflexivity].
    apply forallb_forall. intros x Hx.
    destruct (is_callback x) eqn:Hc; [reflexivity|]. cbn.
    specialize (Hp x (Hpre x Hx) Hc).
    destruct x as [|c r| | | | | | | | | |]; try reflexivity.
    destruct c; try reflexivity; discriminate.
Qed.

(** X12: Enter is pressed only at the end of one fixed sequence.  In every
    run of the interaction procedure that pressed a key, the procedure's
    own actions end with: the wait for the editor succeeded, the editor was
    clicked, cleared and filled with the text Hello, all without an
    exception, half a second passed, the send was logged, and Enter was
    pressed in the editor; then the three-second pause, or the log line of
    the exception of the key press.  Before that sequence nothing was typed
    or pressed. *)
Theorem perform_harvest_submits_in_order (m : Machine W) (sel : selector)
    (key : string) (r : PyResult unit) :
  In (a_call (page_press sel key) r) (trace (perform_harvest m)) ->
  sel = editor_selector /\ key = "Enter"
  /\ exists pre,
       own (trace (perform_harvest m))
       = pre
         ++ [a_call (page_wait_for_selector editor_selector Visible 5000) (Ok tt);
             a_call (page_click editor_selector true) (Ok tt);
             a_call (page_evaluate js_clear_editor) (Ok tt);
             a_call (page_fill editor_selector "Hello") (Ok tt);
             a_sleep 500; a_print msg_sending_hello;
             a_call (page_press editor_selector "Enter") r]
         ++ match r with
            | Ok _ => [a_sleep 3000]
            | Err e => [a_print (msg_interaction_failed e)]
            end
       /\ forallb (fun a => negb (submits a)) pre = true.
Proof.
  intros Hin.
  destruct (page (st m)) eqn:Hp.
  2:{ rewrite (perform_harvest_no_page m Hp) in Hin. cbn in Hin.
      destruct Hin as [Hin|[]]; discriminate. }
  rewrite (perform_harvest_run m Hp), trace_prefixed, try_bind_run in *.
  destruct (sound_harvest_prelude m) as (_ & _ & Hns).
  destruct (prelude_does_not_submit m) as (Hsub & Hnp).
  set (tp := trace (harvest_prelude m)) in *.
  destruct (outcome (harvest_prelude m)) as [[]|e0|] eqn:Ho; [| |congruence].
  2:{ exfalso. rewrite trace_prefixed in Hin. cbn [print emit trace] in Hin.
      in_cases Hin; try discriminate.
      no_press Hin. }
  rewrite trace_prefixed, try_except_run in *.
  set (m1 := final (harvest_prelude m)) in *.
  pose proof (harvest_editor_run m1) as Hrun. cbv zeta in Hrun.
  pose proof (suspend_callbacks m1) as Hs1.
  set (ts := trace (suspend m1)) in *.
  destruct (perform _ (world (final (suspend m1)))) as [[[]|e1] w1].
  2:{ exfalso. rewrite Hrun in Hin. cbn [outcome trace] in Hin.
      in_cases Hin; try discriminate.
      - no_press Hin.
      - absurd_in Hin. }
  rewrite Hrun in *. clear Hrun.
  set (m2 := Build_Machine (st (final (suspend m1))) w1) in *.
  rewrite outcome_prefixed, trace_prefixed in *.
  destruct (harvest_submit_cases m2) as [(r' & Hown & Hout)|(Hnone & e2 & Hout)].
  - assert (Hr : sel = editor_selector /\ key = "Enter" /\ r' = r).
    { assert (Hx : In (a_call (page_press sel key) r) (own (trace (harvest_submit m2)))).
      { apply in_own; [|reflexivity].
        rewrite Hout in Hin. destruct r' as [[]|e3];
          rewrite ?trace_prefixed in Hin; cbn [print emit trace] in Hin;
          in_cases Hin; try discriminate; try assumption;
          first [ exfalso; no_press Hin
                | exfalso; absurd_in Hin ]. }
      rewrite Hown in Hx. destruct r'; cbn in Hx; in_cases Hx; try discriminate;
        inversion Hx; auto. }
    destruct Hr as (Hsel & Hkey & Hr). subst sel key r'.
    split; [reflexivity|]. split; [reflexivity|].
    exists (a_print msg_attempting :: own tp ++ [a_print msg_waiting_editor]).
    split.
    + rewrite Hout. destruct r as [[]|e3];
        rewrite ?trace_prefixed; cbn [print emit trace];
        rewrite !own_app; cbn [own filter is_callback negb app];
        rewrite !own_app, (callbacks_only_own ts Hs1), Hown; cbn;
        rewrite <- ?app_assoc; cbn; reflexivity.
    + cbn. rewrite forallb_app, Hsub. reflexivity.
  - exfalso. rewrite Hout in Hin. rewrite trace_prefixed in Hin.
    cbn [print emit trace] in Hin.
    in_cases Hin; try discriminate;
      first [ no_press Hin
            | no_press Hin
            | absurd_in Hin ].
Qed.

(** X13: the interaction procedure is contained.  Whatever the page, the
    engine and the callbacks do, [perform_harvest] returns normally (every
    exception ends in its log line), does only page interaction (no
    navigation, no reload, no clock, no sink), and assigns no attribute:
    [self] at its end is the initial one as changed by the callbacks
    dispatched meanwhile.  Without a page it prints its first line and
    does nothing else. *)
Theorem perform_harvest_contained (m : Machine W) :
  let r := perform_harvest m in
  outcome r = Normal tt
  /\ forallb (fun a => is_callback a || harvest_action a) (trace r) = true
  /\ forallb (fun a => is_callback a || inert a) (trace r) = true
  /\ st (final r) = replay (callbacks (trace r)) (st m)
  /\ (page (st m) = false -> r = Build_Run (Normal tt) m [a_print msg_attempting]).
Proof.
  intros r. subst r.
  destruct (sound_perform_harvest m) as (Hall & _ & _).
  destruct (perform_harvest_frame m) as (Hst & Hinert).
  conjs; auto.
  - apply perform_harvest_normal.
  - apply perform_harvest_no_page.
Qed.
End Submission.

(** ** Cookies that fail to load, and what can end a live session *)

Section CookieFacts.
Context {W : Type} {E : Engine W}.

(** X14: only the stored cookies reach the browser context.  Without
    cookies ([None] or the empty text) the injection does nothing at all
    and the session goes on to open its page.  Otherwise whatever is passed
    to [add_cookies] is the value [json.loads] made of the cookies stored
    when the injection began. *)
Theorem load_cookies_injects_parsed (m : Machine W) :
  (truthy (current_cookies (st m)) = false ->
   load_cookies m = Build_Run (Normal true) m [])
  /\ (forall j r,
         In (a_call (add_cookies j) r) (trace (load_cookies m)) ->
         exists c,
           current_cookies (st m) = Some c /\ c <> "" /\ json_loads c = Ok j).
Proof.
  unfold load_cookies. rewrite bind_get. split.
  - intros Ht. now rewrite Ht.
  - intros j r.
    destruct (current_cookies (st m)) as [c|] eqn:Hc; cbn [truthy];
      [|intros Hin; destruct Hin].
    destruct (c =? "")%string eqn:Hne; cbn [negb]; [intros Hin; destruct Hin|].
    apply String.eqb_neq in Hne.
    rewrite try_except_if_run, load_body_run. cbv zeta.
    pose proof (suspend_callbacks m) as Hs.
    destruct (json_loads c) as [cookies|e] eqn:Hj; cbn [outcome final trace].
    + intros Hin. exists c. split; [reflexivity|]. split; [exact Hne|].
      destruct (perform (add_cookies cookies) (world (final (suspend m))))
        as [[[]|e] w]; cbn [outcome final trace] in Hin.
      * destruct (py_len cookies) as [n|e]; cbn [outcome final trace] in Hin;
          [|destruct (is_JSONDecodeError e);
            rewrite ?trace_prefixed, ?load_handler_run in Hin;
            cbn [outcome final trace] in Hin];
          in_cases Hin; try discriminate; try congruence;
          exfalso; first [absurd_in Hin
                         | exact (callbacks_not_in _ _ (suspend_callbacks _) eq_refl Hin)].
      * destruct (is_JSONDecodeError e);
          rewrite ?trace_prefixed, ?load_handler_run in Hin;
          cbn [outcome final trace] in Hin;
          in_cases Hin; try discriminate; try congruence;
          exfalso; first [absurd_in Hin
                         | exact (callbacks_not_in _ _ (suspend_callbacks _) eq_refl Hin)].
    + destruct (is_JSONDecodeError e);
        rewrite ?trace_prefixed, ?load_handler_run; cbn [outcome final trace];
        intros Hin; in_cases Hin; try discriminate;
        exfalso; first [absurd_in Hin
                       | exact (callbacks_not_in _ _ (suspend_callbacks _) eq_refl Hin)].
Qed.

(** X15: only a [JSONDecodeError] clears the cookies.  When the injection
    raises, the exception is not a [JSONDecodeError] (which the handler of
    line 55 takes): the context rejected the cookies, or they are JSON
    without a length, or [json.loads] failed otherwise.  Then nothing was
    logged as invalid and nothing was assigned: the exception goes on to
    the handler of the outer loop with [current_cookies] as the callbacks
    left them, so that the same cookies are loaded again in the next
    iteration. *)
Theorem load_cookies_other_failure (m : Machine W) (e : exn) :
  outcome (load_cookies m) = Raised e ->
  is_JSONDecodeError e = false
  /\ filter reports_invalid_json (trace (load_cookies m)) = []
  /\ forallb (fun a => is_callback a || inert a) (trace (load_cookies m)) = true
  /\ st (final (load_cookies m)) = replay (callbacks (trace (load_cookies m))) (st m)
  /\ (callbacks (trace (load_cookies m)) = [] ->
      current_cookies (st (final (load_cookies m))) = current_cookies (st m)).
Proof.
  assert (Hgo : forall (X : Run W bool),
             forallb (fun a => is_callback a || inert a) (trace X) = true ->
             filter reports_invalid_json (trace X) = [] ->
             st (final X) = replay (trace X) (st m) ->
             filter reports_invalid_json (trace X) = []
             /\ forallb (fun a => is_callback a || inert a) (trace X) = true
             /\ st (final X) = replay (callbacks (trace X)) (st m)
             /\ (callbacks (trace X) = [] ->
                 current_cookies (st (final X)) = current_cookies (st m))).
  { intros X H1 H2 H3.
    assert (H4 : st (final X) = replay (callbacks (trace X)) (st m))
      by (rewrite H3; now apply replay_callbacks).
    conjs; auto. intros Hc. rewrite H4, Hc. reflexivity. }
  unfold load_cookies. rewrite bind_get.
  destruct (truthy (current_cookies (st m))); [|discriminate].
  rewrite try_except_if_run, load_body_run. cbv zeta.
  set (c := match current_cookies (st m) with Some c => c | None => "" end).
  pose proof (suspend_callbacks m) as Hs.
  pose proof (suspend_replay m) as Hrep.
  assert (Hsi : forallb (fun a => is_callback a || inert a) (trace (suspend m)) = true).
  { revert Hs. apply forallb_weaken. intros a Ha. now rewrite Ha. }
  assert (Hsf : filter reports_invalid_json (trace (suspend m)) = [])
    by (now apply suspend_filter).
  destruct (json_loads c) as [cookies|e0]; cbn [outcome final trace].
  - destruct (perform (add_cookies cookies) (world (final (suspend m))))
      as [[[]|e0] w]; cbn [outcome final trace].
    + destruct (py_len cookies) as [n|e0]; cbn [outcome final trace]; [discriminate|].
      destruct (is_JSONDecodeError e0) eqn:Hj.
      * rewrite outcome_prefixed, load_handler_run. discriminate.
      * intros H. inversion H. subst e0. split; [exact Hj|].
        apply Hgo; cbn [trace final st].
        -- rewrite forallb_app, Hsi. reflexivity.
        -- rewrite filter_app, Hsf. reflexivity.
        -- rewrite replay_app, <- Hrep. reflexivity.
    + destruct (is_JSONDecodeError e0) eqn:Hj.
      * rewrite outcome_prefixed, load_handler_run. discriminate.
      * intros H. inversion H. subst e0. split; [exact Hj|].
        apply Hgo; cbn [trace final st].
        -- rewrite forallb_app, Hsi. reflexivity.
        -- rewrite filter_app, Hsf. reflexivity.
        -- rewrite replay_app, <- Hrep. reflexivity.
  - destruct (is_JSONDecodeError e0) eqn:Hj.
    + rewrite outcome_prefixed, load_handler_run. discriminate.
    + intros H. inversion H. subst e0. split; [exact Hj|].
      apply Hgo; reflexivity.
Qed.
End CookieFacts.

Section BlamesMore.
Context {W : Type} {E : Engine W}.
Variable Q : exn -> action -> Prop.

Lemma blames_get : blames Q (@get W).
Proof. apply blames_normal. discriminate. Qed.

Lemma blames_starve {A} : blames Q (@starve W A).
Proof. apply blames_normal. discriminate. Qed.

Lemma blames_assign (w : write) : blames Q (@assign W w).
Proof. apply blames_normal. discriminate. Qed.

Lemma blames_time : blames Q time.
Proof.
  apply blames_normal. intros m e. unfold time.
  destruct (time_time (world m)). discriminate.
Qed.

Lemma blames_page_url : blames Q page_url.
Proof.
  apply blames_normal. intros m e. unfold page_url.
  destruct (url (world m)). discriminate.
Qed.

Lemma blames_latest_harvest : blames Q cred_manager_latest_harvest.
Proof.
  apply blames_normal. intros m e. unfold cred_manager_latest_harvest.
  destruct (latest_harvest (world m)). discriminate.
Qed.

Lemma blames_perform_harvest : blames Q perform_harvest.
Proof. apply blames_normal. intros m e. now rewrite perform_harvest_normal. Qed.

Lemma blames_page_title :
  (forall e, Q e (a_title (Err e))) -> blames Q page_title.
Proof.
  intros HQ m e. unfold page_title. rewrite bind_suspend.
  destruct (title (world (final (suspend m)))) as [[t|e'] w];
    cbn [prefixed outcome trace]; [discriminate|].
  intros H. inversion H. subst e'. exists (a_title (Err e)).
  split; [apply in_or_app; right; left; reflexivity | apply HQ].
Qed.
End BlamesMore.

Section LoopFailure.
Context {W : Type} {E : Engine W}.

(** The one call of the liveness loop that no handler covers. *)
Lemma blames_liveness_tick :
  blames (fun e a => a = a_title (Err e)) liveness_tick.
Proof.
  unfold liveness_tick, case_refresh, on_login_page, case_login, case_harvest.
  repeat first [ apply blames_perform_harvest
               | apply blames_get | apply blames_time | apply blames_page_url
               | apply blames_latest_harvest | apply blames_assign
               | apply blames_page_title; reflexivity
               | blame_step
               | match goal with
                 | |- blames _ (match ?x with _ => _ end) => destruct x
                 end ].
Qed.

Lemma blames_liveness_loop (fuel : nat) :
  blames (fun e a => a = a_title (Err e)) (liveness_loop fuel).
Proof.
  induction fuel as [|fuel IH]; cbn [liveness_loop].
  - apply blames_starve.
  - apply blames_bind; [apply blames_get | intros self].
    destruct (is_running self && negb (restart_requested self)); [|apply blames_ret].
    apply blames_bind; [apply blames_liveness_tick | intros f].
    destruct f; first [exact IH | apply blames_ret].
Qed.

(** X16: the title is the one unguarded call of a live session.  The only
    exception that escapes the liveness loop is one raised by
    [page.title()] in the login test: reloads, navigations and the
    interaction procedure are all behind handlers.  Such an exception ends
    the live session at once: the teardown of lines 118-120 is skipped, so
    [browser.close()] is not called, and the exception goes on to the exit
    of the [async with] and the handler of the outer loop. *)
Theorem only_the_title_ends_a_session (fuel : nat) (m : Machine W) (e : exn) :
  outcome (liveness_loop fuel m) = Raised e ->
  In (a_title (Err e)) (trace (liveness_loop fuel m))
  /\ live_loop fuel m
     = Build_Run (Raised e) (final (liveness_loop fuel m))
                 (trace (liveness_loop fuel m))
  /\ forall r, ~ In (a_call browser_close r) (trace (live_loop fuel m)).
Proof.
  intros Ho.
  destruct (blames_liveness_loop fuel m e Ho) as (a & Hin & Ha). subst a.
  split; [exact Hin|].
  assert (Hrun : live_loop fuel m
                 = Build_Run (Raised e) (final (liveness_loop fuel m))
                             (trace (liveness_loop fuel m))).
  { unfold live_loop. now rewrite bind_run, Ho. }
  split; [exact Hrun|].
  intros r Hc. rewrite Hrun in Hc. cbn [trace] in Hc.
  assert (Hrec : recorded (fun a => match a with
                                    | a_call browser_close _ => false
                                    | _ => true
                                    end) (liveness_loop fuel)).
  { clear. induction fuel as [|fuel IH]; cbn [liveness_loop].
    - apply recorded_starve.
    - apply recorded_bind; [apply recorded_of_sound, sound_get|intros self].
      destruct (is_running self && negb (restart_requested self));
        [|apply recorded_of_sound, sound_ret].
      apply recorded_bind; [|intros f;
        destruct f; first [exact IH | apply recorded_of_sound, sound_ret]].
      apply recorded_of_sound.
      unfold liveness_tick, case_refresh, on_login_page, case_login, case_harvest,
        perform_harvest.
      prove_sound. }
  destruct (Hrec m) as (Hall' & _).
  exact (sound_not_in _ _ (a_call browser_close r) Hall' eq_refl eq_refl Hc).
Qed.
End LoopFailure.

(** ** A login retry whose navigation fails *)

(** A navigation in a record that has none. *)
Ltac no_navigation H :=
  match type of H with
  | In ?a ?tr =>
      match goal with
      | Hf : filter navigates tr = [] |- _ =>
          exact (not_in_filter navigates tr a Hf eq_refl H)
      end
  end.

Section RetryFailure.
Context {W : Type} {E : Engine W}.

(** X17: when the navigation of a login retry raises, the pass does not
    [continue].  The exception is swallowed (line 105), the retry time
    stays recorded, and the same pass goes on to case C: it reads the
    clock again, calls the interaction procedure if a harvest is due, and
    sleeps five seconds.  Such a pass can only be a retry: the cooldown had
    elapsed. *)
Theorem login_retry_navigation_failure (m : Machine W) (e : exn) :
  refresh_needed (st m) = false ->
  outcome (on_login_page m) = Normal true ->
  let m1 := final (on_login_page m) in
  let now := fst (time_time (world m1)) in
  let goto := page_goto VERTEX_URL None in
  let r := liveness_tick m in
  In (a_call goto (Err e)) (trace r) ->
  now - last_login_retry_time (st m1) > 60
  /\ outcome r = Normal Fallthrough
  /\ exists m2,
       own (trace r)
       = own (trace (on_login_page m))
         ++ [a_time now; a_print msg_redirected_retry;
             a_assign (w_last_login_retry_time now); a_call goto (Err e)]
         ++ own (trace (case_harvest m2)) ++ [a_sleep 5000]
       /\ invocations (trace r) = invocations (trace (case_harvest m2)).
Proof.
  intros Hr Hl m1 now goto r Hin. subst r.
  rewrite (liveness_tick_login m Hr Hl) in *. fold m1 in Hin |- *.
  pose proof (case_login_run m1) as Hrun. cbv zeta in Hrun. fold now goto in Hrun.
  destruct (on_login_page_quiet m) as (Hq & Holp & _).
  destruct (now - last_login_retry_time (st m1) >? LOGIN_COOLDOWN) eqn:Hgt.
  2:{ exfalso. rewrite Hrun in Hin. cbn [outcome final trace] in Hin.
      in_cases Hin; first [discriminate | no_navigation Hin]. }
  assert (Hcool : now - last_login_retry_time (st m1) > 60)
    by (apply Z.gtb_gt in Hgt; exact Hgt).
  split; [exact Hcool|].
  set (s := suspend (Build_Machine (apply_write (w_last_login_retry_time now) (st m1))
                                   (snd (time_time (world m1))))) in *.
  pose proof (suspend_callbacks
                (Build_Machine (apply_write (w_last_login_retry_time now) (st m1))
                               (snd (time_time (world m1))))) as Hs.
  fold s in Hs.
  destruct (perform goto (world (final s))) as [[[]|e'] w];
    rewrite Hrun in *; clear Hrun; cbn [outcome final trace] in *.
  - exfalso.
    pose proof (suspend_callbacks (Build_Machine (st (final s)) w)) as Hs'.
    in_cases Hin; first [discriminate | no_navigation Hin | absurd_in Hin].
  - set (m2 := Build_Machine (st (final s)) w) in *.
    destruct (case_harvest_facts m2) as (Hn & _ & Hnav).
    rewrite (bind_normal _ _ _ tt Hn), bind_sleep in *.
    rewrite ?outcome_prefixed, ?trace_prefixed in *. cbn [ret outcome trace] in *.
    pose proof (suspend_callbacks (final (case_harvest m2))) as Hs2.
    assert (He : e' = e).
    { in_cases Hin;
        first [congruence | discriminate | exfalso; no_navigation Hin
              | exfalso; absurd_in Hin]. }
    subst e'. split; [reflexivity|]. exists m2. split.
    + rewrite !own_app. unfold s. rewrite !suspend_own. cbn.
      rewrite ?app_nil_r, <- ?app_assoc. reflexivity.
    + rewrite !invocations_app, Hq. unfold s. rewrite !suspend_invocations.
      cbn. unfold invocations. cbn. lia.
Qed.
End RetryFailure.

(** ** The teardown of a live session *)

Section Teardown.
Context {W : Type} {E : Engine W}.

(** Lines 118-120 after a liveness loop that returned. *)
Lemma live_loop_run (fuel : nat) (m : Machine W) :
  outcome (liveness_loop fuel m) = Normal tt ->
  let l := liveness_loop fuel m in
  let s := suspend (final l) in
  live_loop fuel m
  = match perform browser_close (world (final s)) with
    | (Ok _, w) =>
        Build_Run (Normal tt) (Build_Machine (st (final s)) w)
          (trace l ++ trace s ++ [a_call browser_close (Ok tt)]
           ++ if restart_requested (st (final s)) then [a_print msg_restarting] else [])
    | (Err e, w) =>
        Build_Run (Raised e) (Build_Machine (st (final s)) w)
          (trace l ++ trace s ++ [a_call browser_close (Err e)])
    end.
Proof.
  intros Ho l s. unfold live_loop. rewrite (bind_normal _ _ _ tt Ho).
  fold l. rewrite bind_run, await_run. fold s.
  destruct (perform browser_close (world (final s))) as [[[]|e] w];
    cbn [outcome final trace].
  - rewrite bind_get. cbn [st].
    destruct (restart_requested (st (final s))); traces_equal.
  - traces_equal.
Qed.

(** X18: the browser is closed exactly when the liveness loop returns.
    After a liveness loop that returned normally, the session calls
    [browser.close()] once, as its next action, and then logs the restart
    if and only if [restart_requested] is set at that moment; an exception
    of the close ends the session with that exception and without the log
    line. *)
Theorem live_session_teardown (fuel : nat) (m : Machine W) :
  outcome (liveness_loop fuel m) = Normal tt ->
  let r := live_loop fuel m in
  exists rc,
    own (trace r)
    = own (trace (liveness_loop fuel m))
      ++ [a_call browser_close rc]
      ++ match rc with
         | Ok _ =>
             if restart_requested (st (final r)) then [a_print msg_restarting] else []
         | Err _ => []
         end
    /\ outcome r = match rc with Ok _ => Normal tt | Err e => Raised e end.
Proof.
  intros Ho r. subst r. rewrite (live_loop_run fuel m Ho). cbv zeta.
  destruct (perform browser_close _) as [[[]|e] w]; cbn [outcome final trace st].
  - exists (Ok tt). split; [|reflexivity].
    rewrite !own_app, suspend_own.
    destruct (restart_requested _); reflexivity.
  - exists (Err e). split; [|reflexivity].
    rewrite !own_app, suspend_own. reflexivity.
Qed.

(** X19: a cookie update restarts the session.  When [update_cookies] is
    dispatched during a pass of the liveness loop that does not raise, the
    live session ends with that pass: its own actions are those of the
    pass, then [browser.close()], then, if the close did not raise, the
    restart log line.  [restart_requested] is still set when the session
    ends. *)
Theorem cookie_update_restarts_session (fuel : nat) (m : Machine W) :
  is_running (st m) = true -> restart_requested (st m) = false ->
  existsb (dispatched is_update) (trace (liveness_tick m)) = true ->
  (forall e, outcome (liveness_tick m) <> Raised e) ->
  let r := live_loop (S (S fuel)) m in
  exists rc,
    own (trace r)
    = own (trace (liveness_tick m))
      ++ [a_call browser_close rc]
      ++ match rc with Ok _ => [a_print msg_restarting] | Err _ => [] end
    /\ outcome r = match rc with Ok _ => Normal tt | Err e => Raised e end
    /\ restart_requested (st (final r)) = true.
Proof.
  intros Hrun Hres Hd Hnr r. subst r.
  assert (Hup : restart_requested (st (final (liveness_tick m))) = true).
  { apply (latches_liveness_tick restart_requested is_update restart_signal);
      [intros t s Hs; exact Hs | intros s Hs; exact Hs | right; exact Hd]. }
  assert (Hoff : loop_on (st (final (liveness_tick m))) = false).
  { unfold loop_on. rewrite Hup. apply andb_false_r. }
  pose proof (liveness_loop_one_pass fuel m Hrun Hres Hoff) as Hone.
  destruct (sound_liveness_tick m) as (_ & _ & Hns).
  destruct (outcome (liveness_tick m)) as [f|e|] eqn:Ho;
    [|exfalso; now apply (Hnr e)|congruence].
  assert (Hl : outcome (liveness_loop (S (S fuel)) m) = Normal tt) by now rewrite Hone.
  rewrite (live_loop_run _ m Hl). cbv zeta. rewrite Hone. cbn [final trace].
  set (s := suspend (final (liveness_tick m))).
  assert (Hs : restart_requested (st (final s)) = true).
  { apply (latches_suspend restart_requested is_update restart_signal). left. exact Hup. }
  destruct (perform browser_close (world (final s))) as [[[]|e] w];
    cbn [outcome final trace st].
  - exists (Ok tt). rewrite Hs. conjs; try reflexivity.
    rewrite !own_app. unfold s. rewrite suspend_own. reflexivity.
  - exists (Err e). conjs; try reflexivity; [|exact Hs].
    rewrite !own_app. unfold s. rewrite suspend_own. reflexivity.
Qed.
End Teardown.

(** ** Concrete runs of the further properties *)

(** Witness of X1: a cookie update arrives while the first pass reads the
    title. *)
Lemma loop_ends_after_request_witness :
  let m := Build_Machine live (arriving (cb_update_cookies "[]")) in
  is_running (st m) = true
  /\ restart_requested (st m) = false
  /\ existsb (dispatched ends_loop) (trace (liveness_tick m)) = true
  /\ trace (liveness_loop 2 m) = trace (liveness_tick m)
  /\ outcome (liveness_loop 2 m) <> Starved.
Proof.
  intros m.
  assert (h1 : is_running (st m) = true) by reflexivity.
  assert (h2 : restart_requested (st m) = false) by reflexivity.
  assert (h3 : existsb (dispatched ends_loop) (trace (liveness_tick m)) = true)
    by reflexivity.
  destruct (loop_ends_after_request 0 m h1 h2 h3) as (_ & c2 & _ & c4).
  conjs; assumption.
Defined.

(** Witness of X2: a 401 arrives while the first pass reads the title; the
    pass falls through, and the second pass of the loop is the refresh. *)
Lemma rejection_reaches_refresh_branch_witness :
  let m := Build_Machine live (arriving (cb_response rejected_response)) in
  let m' := final (liveness_tick m) in
  refresh_needed (st m) = false
  /\ existsb (dispatched is_rejection) (trace (liveness_tick m)) = true
  /\ is_running (st m) = true
  /\ restart_requested (st m) = false
  /\ loop_on (st m') = true
  /\ outcome (liveness_tick m) = Normal Fallthrough
  /\ refresh_needed (st m') = true
  /\ liveness_loop 2 m
     = prefixed (trace (liveness_tick m) ++ trace (case_refresh m'))
                (liveness_loop 0 (final (case_refresh m'))).
Proof.
  intros m m'.
  assert (h1 : refresh_needed (st m) = false) by reflexivity.
  assert (h2 : existsb (dispatched is_rejection) (trace (liveness_tick m)) = true)
    by reflexivity.
  assert (h3 : is_running (st m) = true) by reflexivity.
  assert (h4 : restart_requested (st m) = false) by reflexivity.
  assert (h5 : loop_on (st m') = true) by reflexivity.
  assert (h6 : outcome (liveness_tick m) = Normal Fallthrough) by reflexivity.
  destruct (rejection_reaches_refresh_branch 0 m h1 h2) as (c1 & _ & Hloop).
  destruct (Hloop h3 h4) as (Hgo & _).
  pose proof (Hgo h5 (or_intror h6)) as c2.
  conjs; assumption.
Defined.

(** Witness of X3: the owner stops the harvester during the backoff that
    follows a failed launch. *)
Lemma stop_ends_session_loop_witness :
  let m := Build_Machine live no_browser in
  is_running (st m) = true
  /\ existsb (dispatched is_stop) (trace (session_iteration 1 m)) = true
  /\ outcome (session_iteration 1 m) <> Starved
  /\ is_running (st (final (session_iteration 1 m))) = false
  /\ session_loop 2 m
     = Build_Run (Normal tt) (final (session_iteration 1 m))
                 (trace (session_iteration 1 m)).
Proof.
  intros m.
  assert (h1 : is_running (st m) = true) by reflexivity.
  assert (h2 : existsb (dispatched is_stop) (trace (session_iteration 1 m)) = true)
    by reflexivity.
  assert (h3 : outcome (session_iteration 1 m) <> Starved) by discriminate.
  destruct (stop_ends_session_loop 0 m h1 h2 h3) as (c1 & c2).
  conjs; assumption.
Defined.

(** Witness of X5: an iteration whose browser does not launch. *)
Lemma playwright_left_once_witness :
  let m := Build_Machine live no_browser in
  outcome (session_iteration 1 m) <> Starved
  /\ exists r,
       filter enters_playwright (trace (session_iteration 1 m))
       = [a_call playwright_start r]
       /\ match r with
          | Ok _ =>
              exists r',
                filter leaves_playwright (trace (session_iteration 1 m))
                = [a_call playwright_stop r']
          | Err _ => filter leaves_playwright (trace (session_iteration 1 m)) = []
          end.
Proof.
  intros m.
  assert (h : outcome (session_iteration 1 m) <> Starved) by discriminate.
  split; [exact h|]. exact (playwright_left_once 1 m h).
Defined.

(** Witness of X6: [start] on a fresh controller, stopped during the first
    backoff. *)
Lemma start_returns_only_when_stopped_witness :
  let m := Build_Machine fresh no_browser in
  is_running (st m) = false
  /\ outcome (start 2 m) = Normal tt
  /\ existsb (dispatched is_stop) (trace (start 2 m)) = true.
Proof.
  intros m.
  assert (h1 : is_running (st m) = false) by reflexivity.
  assert (h2 : outcome (start 2 m) = Normal tt) by reflexivity.
  pose proof (start_returns_only_when_stopped 2 m h1 h2) as c.
  conjs; assumption.
Defined.

(** Witness of X7: a liveness loop that ends on expired cookies. *)
Lemma liveness_loop_exit_reasons_witness :
  let m := Build_Machine retried on_login in
  is_running (st m) = true
  /\ restart_requested (st m) = false
  /\ outcome (liveness_loop 1 m) = Normal tt
  /\ (In (a_print msg_cookies_expired) (trace (liveness_loop 1 m))
      \/ existsb (dispatched ends_loop) (trace (liveness_loop 1 m)) = true).
Proof.
  intros m.
  assert (h1 : is_running (st m) = true) by reflexivity.
  assert (h2 : restart_requested (st m) = false) by reflexivity.
  assert (h3 : outcome (liveness_loop 1 m) = Normal tt) by reflexivity.
  pose proof (liveness_loop_exit_reasons 1 m h1 h2 h3) as c.
  conjs; assumption.
Defined.

(** Witness of X8: a run of [start] that intercepts nothing. *)
Lemma harvest_time_moves_only_on_capture_witness :
  let m := Build_Machine fresh no_browser in
  existsb (dispatched is_capture) (trace (start 2 m)) = false
  /\ last_harvest_time (st (final (start 2 m))) = 0.
Proof.
  intros m.
  assert (h : existsb (dispatched is_capture) (trace (start 2 m)) = false)
    by reflexivity.
  pose proof (harvest_time_moves_only_on_capture 2 m h) as c.
  conjs; assumption.
Defined.

(** Witness of X11: the interaction on a calm page. *)
Lemma perform_harvest_reaches_editor_witness :
  let m := Build_Machine live calm in
  page (st m) = true
  /\ ((exists r,
          In (a_call (page_wait_for_selector editor_selector Visible 5000) r)
             (trace (perform_harvest m)))
      \/ (exists e a pre,
             In a (trace (perform_harvest m)) /\ terms_failure e a
             /\ trace (perform_harvest m) = pre ++ [a_print (msg_interaction_failed e)]
             /\ filter editor_wait (trace (perform_harvest m)) = [])).
Proof.
  intros m.
  assert (h : page (st m) = true) by reflexivity.
  split; [exact h|]. exact (perform_harvest_reaches_editor m h).
Defined.

(** Witness of X12: the same run presses Enter. *)
Lemma perform_harvest_submits_in_order_witness :
  let m := Build_Machine live calm in
  In (a_call (page_press editor_selector "Enter") (Ok tt)) (trace (perform_harvest m))
  /\ exists pre,
       own (trace (perform_harvest m))
       = pre
         ++ [a_call (page_wait_for_selector editor_selector Visible 5000) (Ok tt);
             a_call (page_click editor_selector true) (Ok tt);
             a_call (page_evaluate js_clear_editor) (Ok tt);
             a_call (page_fill editor_selector "Hello") (Ok tt);
             a_sleep 500; a_print msg_sending_hello;
             a_call (page_press editor_selector "Enter") (Ok tt)]
         ++ [a_sleep 3000]
       /\ forallb (fun a => negb (submits a)) pre = true.
Proof.
  intros m.
  assert (h : In (a_call (page_press editor_selector "Enter") (Ok tt))
                 (trace (perform_harvest m))) by in_record.
  destruct (perform_harvest_submits_in_order m editor_selector "Enter" (Ok tt) h)
    as (_ & _ & c).
  split; [exact h | exact c].
Defined.

(** Witness of X14: cookies that are an empty list. *)
Lemma load_cookies_injects_parsed_witness :
  let m := Build_Machine live calm in
  In (a_call (add_cookies (JArray [])) (Ok tt)) (trace (load_cookies m))
  /\ exists c,
       current_cookies (st m) = Some c /\ c <> "" /\ json_loads c = Ok (JArray []).
Proof.
  intros m.
  assert (h : In (a_call (add_cookies (JArray [])) (Ok tt)) (trace (load_cookies m)))
    by in_record.
  destruct (load_cookies_injects_parsed m) as (_ & c).
  split; [exact h | exact (c _ _ h)].
Defined.

(** Witness of X15: cookies that are a JSON number; the context takes them
    and [len] raises. *)
Lemma load_cookies_other_failure_witness :
  let m := Build_Machine numeric_cookies calm in
  outcome (load_cookies m) = Raised TypeError
  /\ callbacks (trace (load_cookies m)) = []
  /\ filter reports_invalid_json (trace (load_cookies m)) = []
  /\ current_cookies (st (final (load_cookies m))) = Some "5".
Proof.
  intros m.
  assert (h : outcome (load_cookies m) = Raised TypeError) by reflexivity.
  assert (h' : callbacks (trace (load_cookies m)) = []) by reflexivity.
  destruct (load_cookies_other_failure m TypeError h) as (_ & c2 & _ & _ & c5).
  pose proof (c5 h') as c6.
  conjs; assumption.
Defined.

(** Witness of X16: a page whose title cannot be read. *)
Lemma only_the_title_ends_a_session_witness :
  let m := Build_Machine live no_title in
  outcome (liveness_loop 1 m) = Raised (EngineError "title")
  /\ In (a_title (Err (EngineError "title"))) (trace (liveness_loop 1 m))
  /\ outcome (live_loop 1 m) = Raised (EngineError "title").
Proof.
  intros m.
  assert (h : outcome (liveness_loop 1 m) = Raised (EngineError "title"))
    by reflexivity.
  destruct (only_the_title_ends_a_session 1 m (EngineError "title") h) as (c1 & c2 & _).
  assert (c3 : outcome (live_loop 1 m) = Raised (EngineError "title"))
    by (rewrite c2; reflexivity).
  conjs; assumption.
Defined.

(** Witness of X17: the login page when navigating away from it raises. *)
Lemma login_retry_navigation_failure_witness :
  let m := Build_Machine live stuck_on_login in
  refresh_needed (st m) = false
  /\ outcome (on_login_page m) = Normal true
  /\ In (a_call (page_goto VERTEX_URL None) (Err (EngineError "engine")))
        (trace (liveness_tick m))
  /\ outcome (liveness_tick m) = Normal Fallthrough.
Proof.
  intros m.
  assert (h1 : refresh_needed (st m) = false) by reflexivity.
  assert (h2 : outcome (on_login_page m) = Normal true) by reflexivity.
  assert (h3 : In (a_call (page_goto VERTEX_URL None) (Err (EngineError "engine")))
                  (trace (liveness_tick m))) by in_record.
  destruct (login_retry_navigation_failure m (EngineError "engine") h1 h2 h3)
    as (_ & c2 & _).
  conjs; assumption.
Defined.

(** Witness of X18: the teardown after expired cookies. *)
Lemma live_session_teardown_witness :
  let m := Build_Machine retried on_login in
  outcome (liveness_loop 1 m) = Normal tt
  /\ exists rc,
       own (trace (live_loop 1 m))
       = own (trace (liveness_loop 1 m))
         ++ [a_call browser_close rc]
         ++ match rc with
            | Ok _ =>
                if restart_requested (st (final (live_loop 1 m)))
                then [a_print msg_restarting] else []
            | Err _ => []
            end
       /\ outcome (live_loop 1 m)
          = match rc with Ok _ => Normal tt | Err e => Raised e end.
Proof.
  intros m.
  assert (h : outcome (liveness_loop 1 m) = Normal tt) by reflexivity.
  split; [exact h|]. exact (live_session_teardown 1 m h).
Defined.

(** Witness of X19: a cookie update during the first pass. *)
Lemma cookie_update_restarts_session_witness :
  let m := Build_Machine live (arriving (cb_update_cookies "[]")) in
  is_running (st m) = true
  /\ restart_requested (st m) = false
  /\ existsb (dispatched is_update) (trace (liveness_tick m)) = true
  /\ (forall e, outcome (liveness_tick m) <> Raised e)
  /\ exists rc,
       own (trace (live_loop 2 m))
       = own (trace (liveness_tick m))
         ++ [a_call browser_close rc]
         ++ match rc with Ok _ => [a_print msg_restarting] | Err _ => [] end
       /\ outcome (live_loop 2 m)
          = match rc with Ok _ => Normal tt | Err e => Raised e end
       /\ restart_requested (st (final (live_loop 2 m))) = true.
Proof.
  intros m.
  assert (h1 : is_running (st m) = true) by reflexivity.
  assert (h2 : restart_requested (st m) = false) by reflexivity.
  assert (h3 : existsb (dispatched is_update) (trace (liveness_tick m)) = true)
    by reflexivity.
  assert (h4 : forall e, outcome (liveness_tick m) <> Raised e)
    by (intros e He; vm_compute in He; discriminate).
  pose proof (cookie_update_restarts_session 0 m h1 h2 h3 h4) as c.
  conjs; assumption.
Defined.

(** * The branches of the liveness loop and the outer loop, in full *)

(** ** What lasts through a computation *)

Section Lasts.
Context {W : Type} {E : Engine W}.
Variable G : SessionState -> bool.
Variable Q : action -> bool.

Lemma lasts_still {A} (p : M W A) :
  (forall m, st (final (p m)) = st m) -> lasts G Q p.
Proof. intros H m Hg _. now rewrite H. Qed.

Lemma lasts_ret {A} (a : A) : lasts G Q (@ret W A a).
Proof. now apply lasts_still. Qed.

Lemma lasts_raise {A} (e : exn) : lasts G Q (@raise W A e).
Proof. now apply lasts_still. Qed.

Lemma lasts_get : lasts G Q (@get W).
Proof. now apply lasts_still. Qed.

Lemma lasts_emit (a : action) : lasts G Q (@emit W a).
Proof. now apply lasts_still. Qed.

Lemma lasts_print (msg : message) : lasts G Q (@print W msg).
Proof. now apply lasts_still. Qed.

Lemma lasts_assign (w : write) :
  (forall s, G s = true -> G (apply_write w s) = true) -> lasts G Q (@assign W w).
Proof. intros H m Hg _. apply H, Hg. Qed.

Lemma lasts_time : lasts G Q time.
Proof.
  apply lasts_still. intros m. unfold time.
  now destruct (time_time (world m)) as [t w].
Qed.

Lemma lasts_page_url : lasts G Q page_url.
Proof.
  apply lasts_still. intros m. unfold page_url.
  now destruct (url (world m)) as [u w].
Qed.

Lemma lasts_latest_harvest : lasts G Q cred_manager_latest_harvest.
Proof.
  apply lasts_still. intros m. unfold cred_manager_latest_harvest.
  now destruct (latest_harvest (world m)) as [b w].
Qed.

Lemma lasts_engine_call (c : call) : lasts G Q (engine_call c).
Proof.
  apply lasts_still. intros m. unfold engine_call.
  now destruct (perform c (world m)) as [r w].
Qed.

Lemma lasts_bind {A B} (p : M W A) (f : A -> M W B) :
  lasts G Q p -> (forall a, lasts G Q (f a)) -> lasts G Q (bind p f).
Proof.
  intros Hp Hf m Hg H. rewrite bind_run in *. specialize (Hp m Hg).
  destruct (outcome (p m)) as [a|e|]; cbn [final trace] in *; auto.
  rewrite final_prefixed. rewrite trace_prefixed, existsb_app in H.
  apply orb_false_elim in H. destruct H as [H1 H2]. apply Hf; auto.
Qed.

Lemma lasts_try_except {A} (p : M W A) (h : exn -> M W A) :
  lasts G Q p -> (forall e, lasts G Q (h e)) -> lasts G Q (try_except p h).
Proof.
  intros Hp Hh m Hg H. rewrite try_except_run in *. specialize (Hp m Hg).
  destruct (outcome (p m)) as [a|e|]; auto.
  rewrite final_prefixed. rewrite trace_prefixed, existsb_app in H.
  apply orb_false_elim in H. destruct H as [H1 H2]. apply Hh; auto.
Qed.

Hypothesis HG : Lasting (W := W) G Q.

Lemma lasts_deliver (cb : callback) : lasts G Q (deliver cb).
Proof.
  intros m Hg H. unfold deliver in *. specialize (HG cb m).
  destruct (run_callback cb m) as [o m' inner]. cbn [final trace existsb] in *.
  rewrite orb_false_r in H. auto.
Qed.

Lemma lasts_deliver_all (cbs : list callback) : lasts G Q (deliver_all cbs).
Proof.
  induction cbs as [|cb rest IH]; cbn [deliver_all].
  - apply lasts_ret.
  - apply lasts_bind; [apply lasts_deliver | intros; exact IH].
Qed.

Lemma lasts_suspend : lasts G Q suspend.
Proof.
  intros m Hg H. unfold suspend in *. destruct (dispatch (world m)) as [cbs w].
  now apply (lasts_deliver_all cbs (Build_Machine (st m) w)).
Qed.

Lemma lasts_await (c : call) : lasts G Q (await c).
Proof.
  unfold await. apply lasts_bind; [apply lasts_suspend | intros].
  apply lasts_engine_call.
Qed.

Lemma lasts_sleep (ms : Z) : lasts G Q (sleep ms).
Proof.
  unfold sleep. apply lasts_bind; [apply lasts_suspend | intros].
  apply lasts_emit.
Qed.

Lemma lasts_page_is_visible (sel : selector) : lasts G Q (page_is_visible sel).
Proof.
  unfold page_is_visible. apply lasts_bind; [apply lasts_suspend | intros].
  apply lasts_still. intros m. now destruct (is_visible sel (world m)) as [r w].
Qed.

Lemma lasts_page_title : lasts G Q page_title.
Proof.
  unfold page_title. apply lasts_bind; [apply lasts_suspend | intros].
  apply lasts_still. intros m. now destruct (title (world m)) as [r w].
Qed.

Lemma lasts_for_each {A} (xs : list A) (body : A -> M W unit) :
  (forall x, lasts G Q (body x)) -> lasts G Q (for_each xs body).
Proof.
  intros Hb. induction xs as [|x rest IH]; cbn [for_each].
  - apply lasts_ret.
  - apply lasts_bind; [apply Hb | intros; exact IH].
Qed.
End Lasts.

(** One step of a proof that [G] lasts through a computation; what ends
    [G] is taken from the context, and an assignment must leave [G]. *)
Ltac last_step :=
  match goal with
  | |- lasts _ _ (bind _ _) => apply lasts_bind; [|intros]
  | |- lasts _ _ (try_except _ _) => apply lasts_try_except; [|intros]
  | |- lasts _ _ (ret _) => apply lasts_ret
  | |- lasts _ _ (raise _) => apply lasts_raise
  | |- lasts _ _ get => apply lasts_get
  | |- lasts _ _ (print _) => apply lasts_print
  | |- lasts _ _ (emit _) => apply lasts_emit
  | |- lasts _ _ (assign _) => apply lasts_assign; intros ? Hs; exact Hs
  | |- lasts _ _ time => apply lasts_time
  | |- lasts _ _ page_url => apply lasts_page_url
  | |- lasts _ _ cred_manager_latest_harvest => apply lasts_latest_harvest
  | |- lasts _ _ (engine_call _) => apply lasts_engine_call
  | |- lasts _ _ (await _) => apply lasts_await; assumption
  | |- lasts _ _ (sleep _) => apply lasts_sleep; assumption
  | |- lasts _ _ (page_is_visible _) => apply lasts_page_is_visible; assumption
  | |- lasts _ _ page_title => apply lasts_page_title; assumption
  | |- lasts _ _ suspend => apply lasts_suspend; assumption
  | |- lasts _ _ (for_each _ _) => apply lasts_for_each; intros
  | |- lasts _ _ (if ?b then _ else _) => destruct b
  | |- lasts _ _ (match ?x with _ => _ end) => destruct x
  | |- lasts _ _ (let _ := _ in _) => cbv zeta
  end.

(** ** Case A: the refresh *)

Section Refresh.
Context {W : Type} {E : Engine W}.

(** Only a rejected response sets [refresh_needed]. *)
Lemma no_refresh_guard :
  Guarded (W := W) (fun s => negb (refresh_needed s)) is_rejection.
Proof.
  intros cb m Ht H. destruct cb as [request|response|c|]; unfold run_callback.
  - unfold handle_route.
    destruct (req_post_data request) as [[body|]|e]; run_py; exact H.
  - cbn [is_rejection] in Ht. unfold handle_response.
    destruct (contains ENDPOINT (resp_url response));
      destruct ((resp_status response =? 401)%Z || (resp_status response =? 403)%Z);
      first [discriminate | exact H].
  - exact H.
  - exact H.
Qed.

(** C2: a tick that starts with [refresh_needed] set is case A and nothing
    else.  It ends by [continue]; it never reads the URL, the title, the
    clock or the sink and never navigates, whatever the harvest interval,
    so cases B and C do not run in it.  What it does is decided by the
    reload, which is performed after one suspension.  When the reload
    returns, the tick is exactly: the log line, the reload, the log line,
    the clearing of [refresh_needed], the sleep of five seconds and then
    the interaction procedure, once, whose record and final state end the
    tick; [refresh_needed] is false at the end unless a rejected response
    was observed after it was cleared.  When the reload raises, the tick
    is exactly: the log line, the failed reload and the log line of the
    failure; the interaction procedure is not called, nothing is
    assigned, [self] is the initial one as changed by the callbacks
    dispatched during the reload, and [refresh_needed] is still set. *)
Theorem refresh_branch_runs_alone (m : Machine W) :
  refresh_needed (st m) = true ->
  let r := liveness_tick m in
  let s := suspend m in
  outcome r = Normal Continue
  /\ forallb (fun a => negb (later_branch a)) (trace r) = true
  /\ match perform page_reload (world (final s)) with
     | (Ok _, w) =>
         let s' := suspend (Build_Machine
                              (apply_write (w_refresh_needed false) (st (final s))) w) in
         let h := perform_harvest (final s') in
         trace r
         = [a_print msg_refreshing] ++ trace s
           ++ [a_call page_reload (Ok tt); a_print msg_page_reloaded;
               a_assign (w_refresh_needed false)]
           ++ trace s' ++ [a_sleep 5000] ++ trace h
         /\ final r = final h
         /\ own (trace r)
            = [a_print msg_refreshing; a_call page_reload (Ok tt);
               a_print msg_page_reloaded; a_assign (w_refresh_needed false);
               a_sleep 5000]
              ++ own (trace h)
         /\ invocations (trace r) = 1%nat
         /\ (existsb (dispatched is_rejection) (trace s' ++ trace h) = false ->
             refresh_needed (st (final r)) = false)
     | (Err e, w) =>
         trace r
         = [a_print msg_refreshing] ++ trace s
           ++ [a_call page_reload (Err e); a_print (msg_refresh_failed e)]
         /\ final r = Build_Machine (st (final s)) w
         /\ own (trace r)
            = [a_print msg_refreshing; a_call page_reload (Err e);
               a_print (msg_refresh_failed e)]
         /\ invocations (trace r) = 0%nat
         /\ st (final r) = replay (callbacks (trace r)) (st m)
         /\ refresh_needed (st (final r)) = true
     end.
Proof.
  intros H r s. subst r s. rewrite (liveness_tick_refresh m H).
  pose proof (case_refresh_run m) as Hrun. cbv zeta in Hrun.
  pose proof (suspend_keeps_refresh m H) as Hk.
  pose proof (suspend_replay m) as Hrep.
  destruct (perform page_reload (world (final (suspend m)))) as [[[]|e] w];
    rewrite Hrun; clear Hrun; cbn [outcome final trace].
  - split; [reflexivity|]. split.
    + rewrite !forallb_app, !suspend_no_later_branch, perform_harvest_no_later_branch.
      reflexivity.
    + cbv zeta. set (m1 := Build_Machine _ w). conjs; try reflexivity.
      * rewrite !own_app, !suspend_own. reflexivity.
      * rewrite !invocations_app, !suspend_invocations, perform_harvest_invocations.
        reflexivity.
      * rewrite existsb_app. intros Hd. apply orb_false_elim in Hd.
        destruct Hd as [Hd1 Hd2]. apply negb_true_iff.
        apply (keeps_perform_harvest _ _ no_refresh_guard (final (suspend m1)));
          [|exact Hd2].
        apply (keeps_suspend _ _ no_refresh_guard m1); [reflexivity | exact Hd1].
  - split; [reflexivity|]. split.
    + rewrite !forallb_app, !suspend_no_later_branch. reflexivity.
    + conjs; try reflexivity.
      * rewrite !own_app, !suspend_own. reflexivity.
      * rewrite !invocations_app, !suspend_invocations. reflexivity.
      * rewrite !callbacks_app, suspend_callbacks_all. cbn.
        rewrite app_nil_r. exact Hrep.
      * exact Hk.
Qed.
End Refresh.

(** ** Case C: the harvest *)

Section Harvest.
Context {W : Type} {E : Engine W}.

(** C5, as the code has it: a tick in which [refresh_needed] is not set
    and the page is not the login page.  [now] is the clock reading of
    case C, [elapsed] says that more than 2700 seconds separate it from
    [last_harvest_time], and [stocked] is the sink's [latest_harvest],
    which the code reads only when [elapsed] is false.  When [elapsed]
    holds or the sink holds no harvest, the tick is the page test, these
    readings, then the interaction procedure itself, once, and the sleep
    of five seconds; otherwise it is the page test, the two readings and
    the sleep, and the interaction procedure is not called.  So the
    procedure is called exactly when [now] exceeds [last_harvest_time] by
    more than 2700 or the sink holds no harvest, and with
    [last_harvest_time] still 0 it is called as soon as the clock reads
    more than 2700 or the sink is empty. *)
Theorem harvest_branch_trigger (m : Machine W) :
  refresh_needed (st m) = false ->
  outcome (on_login_page m) = Normal false ->
  let m1 := final (on_login_page m) in
  let now := fst (time_time (world m1)) in
  let w1 := snd (time_time (world m1)) in
  let stocked := fst (latest_harvest w1) in
  let w2 := snd (latest_harvest w1) in
  let elapsed := now - last_harvest_time (st m1) >? 2700 in
  let h := perform_harvest (Build_Machine (st m1) (if elapsed then w1 else w2)) in
  let idle := suspend (Build_Machine (st m1) w2) in
  let r := liveness_tick m in
  outcome r = Normal Fallthrough
  /\ (if elapsed || negb stocked then
        trace r
        = trace (on_login_page m)
          ++ [a_time now] ++ (if elapsed then [] else [a_latest_harvest stocked])
          ++ trace h ++ trace (suspend (final h)) ++ [a_sleep 5000]
        /\ final r = final (suspend (final h))
      else
        trace r
        = trace (on_login_page m)
          ++ [a_time now; a_latest_harvest stocked] ++ trace idle ++ [a_sleep 5000]
        /\ final r = final idle)
  /\ (invocations (trace r) = 1%nat
      <-> now - last_harvest_time (st m1) > 2700 \/ stocked = false)
  /\ (invocations (trace r) = 0%nat
      <-> ~ (now - last_harvest_time (st m1) > 2700 \/ stocked = false))
  /\ (last_harvest_time (st m1) = 0 -> now > 2700 \/ stocked = false ->
      invocations (trace r) = 1%nat
      /\ exists pre post, trace r = pre ++ trace h ++ post).
Proof.
  intros Hr Hl m1 now w1 stocked w2 elapsed h idle r.
  assert (Hiff : elapsed || negb stocked = true
                 <-> now - last_harvest_time (st m1) > 2700 \/ stocked = false).
  { unfold elapsed. rewrite orb_true_iff, negb_true_iff, Z.gtb_gt. reflexivity. }
  assert (Hinv : invocations (trace r) = if elapsed || negb stocked then 1%nat else 0%nat).
  { subst r. rewrite (liveness_tick_harvest m Hr Hl). cbn [trace]. fold m1.
    destruct (on_login_page_quiet m) as (Hq & _ & _).
    destruct (case_harvest_facts m1) as (_ & Hi & _).
    rewrite !invocations_app, Hq, Hi, suspend_invocations. cbn [invocations].
    fold now w1 stocked. unfold HARVEST_INTERVAL. fold elapsed.
    destruct (elapsed || negb stocked); reflexivity. }
  assert (Hshape :
            if elapsed || negb stocked then
              trace r
              = trace (on_login_page m)
                ++ [a_time now] ++ (if elapsed then [] else [a_latest_harvest stocked])
                ++ trace h ++ trace (suspend (final h)) ++ [a_sleep 5000]
              /\ final r = final (suspend (final h))
            else
              trace r
              = trace (on_login_page m)
                ++ [a_time now; a_latest_harvest stocked] ++ trace idle ++ [a_sleep 5000]
              /\ final r = final idle).
  { subst r. rewrite (liveness_tick_harvest m Hr Hl). cbn [trace final]. fold m1.
    pose proof (case_harvest_run m1) as Hrun. cbv zeta in Hrun.
    fold now w1 stocked w2 in Hrun. unfold HARVEST_INTERVAL in Hrun.
    fold elapsed in Hrun. rewrite Hrun. clear Hrun. subst h idle.
    destruct elapsed; cbn [orb].
    - rewrite trace_prefixed, final_prefixed. split; [traces_equal | reflexivity].
    - destruct (negb stocked).
      + rewrite trace_prefixed, final_prefixed. split; [traces_equal | reflexivity].
      + cbn [trace final]. split; [traces_equal | reflexivity]. }
  split.
  { subst r. now rewrite (liveness_tick_harvest m Hr Hl). }
  split; [exact Hshape|].
  rewrite Hinv.
  destruct (elapsed || negb stocked) eqn:Hdue.
  - split; [split; [intros _; now apply Hiff | reflexivity]|].
    split; [split; [discriminate | intros Hn; exfalso; apply Hn; now apply Hiff]|].
    intros _ _. split; [reflexivity|].
    destruct Hshape as [Ht _]. rewrite Ht.
    exists (trace (on_login_page m)
            ++ [a_time now] ++ (if elapsed then [] else [a_latest_harvest stocked])),
           (trace (suspend (final h)) ++ [a_sleep 5000]).
    now rewrite <- !app_assoc.
  - assert (Hno : ~ (now - last_harvest_time (st m1) > 2700 \/ stocked = false)).
    { intros Hc. apply Hiff in Hc. discriminate. }
    split; [split; [discriminate | intros Hc; exfalso; exact (Hno Hc)]|].
    split; [split; [intros _; exact Hno | reflexivity]|].
    intros H0 Hc. exfalso. apply Hno.
    destruct Hc as [Hc|Hc]; [left; rewrite H0; lia | right; exact Hc].
Qed.
End Harvest.

(** ** Case B: the login redirect *)

(** Split what is known to be absent from a record over its parts. *)
Ltac absent_parts :=
  rewrite ?existsb_app in *;
  repeat match goal with
         | H : _ || _ = false |- _ => apply orb_false_elim in H; destruct H
         end.

Section Redirect.
Context {W : Type} {E : Engine W}.

(** The page test returns [true] exactly on a page that shows the login. *)
Lemma shows_login_run (m : Machine W) :
  outcome (on_login_page m) = Normal true <-> shows_login m = true.
Proof.
  pose proof (on_login_page_run m) as Hrun. cbv zeta in Hrun. rewrite Hrun.
  unfold shows_login.
  destruct (contains LOGIN_DOMAIN (fst (url (world m)))); cbn [orb outcome].
  - split; reflexivity.
  - destruct (title _) as [[t|e] w']; cbn [fst outcome];
      split; intros H; congruence.
Qed.

(** Only a capture moves [last_login_retry_time] from outside the loop. *)
Lemma retry_lasting (v : Z) : Lasting (W := W) (retry_at v) captures.
Proof.
  intros cb m Hq H. unfold retry_at.
  now rewrite (run_callback_keeps_retry cb m Hq).
Qed.

Section RetryTime.
Variable v : Z.

Lemma lasts_retry_perform_harvest : lasts (retry_at v) captures (perform_harvest (W := W)).
Proof.
  pose proof (retry_lasting v) as HG.
  unfold perform_harvest. repeat last_step.
Qed.

Lemma lasts_retry_case_refresh : lasts (retry_at v) captures (case_refresh (W := W)).
Proof.
  pose proof (retry_lasting v) as HG.
  pose proof lasts_retry_perform_harvest as Hh.
  unfold case_refresh. repeat first [exact Hh | last_step].
Qed.

Lemma lasts_retry_on_login_page : lasts (retry_at v) captures (on_login_page (W := W)).
Proof.
  pose proof (retry_lasting v) as HG.
  unfold on_login_page. repeat last_step.
Qed.

(** Case C and the sleep that ends the pass. *)
Lemma lasts_retry_harvest_pass :
  lasts (retry_at v) captures (case_harvest (W := W) ;; sleep 5000 ;; ret Fallthrough).
Proof.
  pose proof (retry_lasting v) as HG.
  pose proof lasts_retry_perform_harvest as Hh.
  unfold case_harvest. repeat first [exact Hh | last_step].
Qed.
End RetryTime.

(** A pass that is no redirect detection and sees no capture leaves
    [last_login_retry_time] as it is. *)
Lemma quiet_pass_keeps_retry (m : Machine W) :
  detects m = false ->
  existsb captures (trace (liveness_tick m)) = false ->
  last_login_retry_time (st (final (liveness_tick m))) = last_login_retry_time (st m).
Proof.
  intros Hd Hc. apply Z.eqb_eq.
  change (retry_at (last_login_retry_time (st m)) (st (final (liveness_tick m))) = true).
  revert Hc. unfold detects in Hd.
  destruct (refresh_needed (st m)) eqn:Hr.
  - rewrite (liveness_tick_refresh m Hr). intros Hc.
    apply (lasts_retry_case_refresh (last_login_retry_time (st m)) m);
      [apply Z.eqb_refl | exact Hc].
  - cbn [negb andb] in Hd.
    assert (Hl : outcome (on_login_page m) <> Normal true).
    { intros Hl. apply shows_login_run in Hl. congruence. }
    pose proof (lasts_retry_on_login_page (last_login_retry_time (st m)) m
                  (Z.eqb_refl _)) as Hp.
    rewrite (liveness_tick_no_refresh m Hr).
    destruct (outcome (on_login_page m)) as [[|]|e|]; [congruence| | |];
      cbn [final trace]; try exact Hp.
    rewrite trace_prefixed, final_prefixed, existsb_app, bind_ret. intros Hc.
    apply orb_false_elim in Hc. destruct Hc as [Hc1 Hc2].
    apply (lasts_retry_harvest_pass (last_login_retry_time (st m)));
      [apply Hp, Hc1 | exact Hc2].
Qed.

Lemma uneventful_keeps_retry (n : nat) (m : Machine W) :
  uneventful n m = true ->
  last_login_retry_time (st (after_passes n m)) = last_login_retry_time (st m).
Proof.
  revert m. induction n as [|n IH]; intros m H; [reflexivity|].
  cbn [uneventful after_passes] in *.
  apply andb_prop in H. destruct H as [H H3].
  apply andb_prop in H. destruct H as [H1 H2].
  apply negb_true_iff in H1, H2.
  rewrite (IH _ H3). now apply quiet_pass_keeps_retry.
Qed.

(** The retry of case B as an equation: what follows the navigation
    depends on whether it raised. *)
Lemma login_retry_run (m : Machine W) :
  refresh_needed (st m) = false ->
  outcome (on_login_page m) = Normal true ->
  let m1 := final (on_login_page m) in
  let now := fst (time_time (world m1)) in
  let goto := page_goto VERTEX_URL None in
  now - last_login_retry_time (st m1) > 60 ->
  let s := suspend (Build_Machine (apply_write (w_last_login_retry_time now) (st m1))
                                  (snd (time_time (world m1)))) in
  let m2 := Build_Machine (st (final s)) (snd (perform goto (world (final s)))) in
  let pre := trace (on_login_page m)
             ++ [a_time now; a_print msg_redirected_retry;
                 a_assign (w_last_login_retry_time now)]
             ++ trace s in
  liveness_tick m
  = match fst (perform goto (world (final s))) with
    | Ok _ =>
        Build_Run (Normal Continue) (final (suspend m2))
          (pre ++ [a_call goto (Ok tt)] ++ trace (suspend m2) ++ [a_sleep 5000])
    | Err e =>
        prefixed (pre ++ [a_call goto (Err e)])
          ((case_harvest ;; sleep 5000 ;; ret Fallthrough) m2)
    end.
Proof.
  intros Hr Hl m1 now goto Hcool s m2 pre.
  rewrite (liveness_tick_login m Hr Hl). fold m1.
  pose proof (case_login_run m1) as Hrun. cbv zeta in Hrun.
  fold now goto in Hrun.
  assert (Hgt : (now - last_login_retry_time (st m1) >? LOGIN_COOLDOWN) = true)
    by (unfold LOGIN_COOLDOWN; apply Z.gtb_gt; exact Hcool).
  rewrite Hgt in Hrun. fold s in Hrun. subst pre m2.
  destruct (perform goto (world (final s))) as [[[]|e] w];
    rewrite Hrun; clear Hrun; cbn [outcome final trace fst snd].
  - traces_equal.
  - traces_equal.
Qed.

(** C1, as the code has it: a tick in which [refresh_needed] is not set
    and the page shows the login (its URL holds the identity-provider
    domain or its title says sign in); the page test then returns [true].
    [now] is the clock reading of case B.

    Retry.  If [now] exceeds [last_login_retry_time] by more than 60, the
    tick logs the retry, records [now] as [last_login_retry_time] and,
    after one suspension, navigates to the target URL: its record starts
    with the page test followed by exactly these.  When the navigation
    returns, the tick sleeps five seconds and continues, and nothing else:
    the interaction procedure is not called.  When the navigation raises,
    the tick does not continue: it goes on to case C and the sleep that
    ends a pass.  Unless the interceptor
    captured a request during the tick, [last_login_retry_time] is [now]
    when it ends.  And then the next detection is terminal when it comes
    within the cooldown: after any number of passes in which the login
    page is not detected and nothing is captured, a pass that again finds
    the login page at most 60 seconds after [now], with no capture before
    its clock reading, breaks without navigating, and the loop returns.

    Expiry.  If [now] exceeds [last_login_retry_time] by 60 or less, the
    tick logs the expiry and breaks without navigating, and the liveness
    loop returns at once. *)
Theorem login_redirect_branch (m : Machine W) :
  refresh_needed (st m) = false ->
  shows_login m = true ->
  let m1 := final (on_login_page m) in
  let now := fst (time_time (world m1)) in
  let goto := page_goto VERTEX_URL None in
  let r := liveness_tick m in
  outcome (on_login_page m) = Normal true
  /\ (now - last_login_retry_time (st m1) > 60 ->
      let s := suspend (Build_Machine
                          (apply_write (w_last_login_retry_time now) (st m1))
                          (snd (time_time (world m1)))) in
      let g := fst (perform goto (world (final s))) in
      let m2 := Build_Machine (st (final s)) (snd (perform goto (world (final s)))) in
      (exists rest,
          trace r
          = trace (on_login_page m)
            ++ [a_time now; a_print msg_redirected_retry;
                a_assign (w_last_login_retry_time now)]
            ++ trace s ++ [a_call goto g] ++ rest)
      /\ (g = Ok tt ->
          outcome r = Normal Continue
          /\ trace r
             = trace (on_login_page m)
               ++ [a_time now; a_print msg_redirected_retry;
                   a_assign (w_last_login_retry_time now)]
               ++ trace s ++ [a_call goto (Ok tt)]
               ++ trace (suspend m2) ++ [a_sleep 5000]
          /\ final r = final (suspend m2)
          /\ own (trace r)
             = own (trace (on_login_page m))
               ++ [a_time now; a_print msg_redirected_retry;
                   a_assign (w_last_login_retry_time now);
                   a_call goto (Ok tt); a_sleep 5000]
          /\ invocations (trace r) = 0%nat)
      /\ (forall e : exn,
             g = Err e ->
             let c := case_harvest m2 in
             outcome r = Normal Fallthrough
             /\ trace r
                = trace (on_login_page m)
                  ++ [a_time now; a_print msg_redirected_retry;
                      a_assign (w_last_login_retry_time now)]
                  ++ trace s ++ [a_call goto (Err e)]
                  ++ trace c ++ trace (suspend (final c)) ++ [a_sleep 5000])
      /\ (existsb captures (trace r) = false ->
          last_login_retry_time (st (final r)) = now)
      /\ (forall n : nat,
             existsb captures (trace r) = false ->
             uneventful n (final r) = true ->
             let m' := after_passes n (final r) in
             refresh_needed (st m') = false ->
             shows_login m' = true ->
             existsb captures (trace (on_login_page m')) = false ->
             fst (time_time (world (final (on_login_page m')))) - now <= 60 ->
             outcome (liveness_tick m') = Normal Break
             /\ filter navigates (trace (liveness_tick m')) = []
             /\ (forall fuel : nat,
                    is_running (st m') = true -> restart_requested (st m') = false ->
                    liveness_loop (S fuel) m'
                    = Build_Run (Normal tt) (final (liveness_tick m'))
                                (trace (liveness_tick m')))))
  /\ (now - last_login_retry_time (st m1) <= 60 ->
      outcome r = Normal Break
      /\ own (trace r)
         = own (trace (on_login_page m))
           ++ [a_time now; a_print msg_cookies_expired; a_print msg_export_fresh]
      /\ filter navigates (trace r) = []
      /\ (forall fuel : nat,
             is_running (st m) = true -> restart_requested (st m) = false ->
             liveness_loop (S fuel) m = Build_Run (Normal tt) (final r) (trace r))).
Proof.
  intros Hr Hs m1 now goto r. subst r.
  assert (Hl : outcome (on_login_page m) = Normal true) by now apply shows_login_run.
  split; [exact Hl|]. split.
  - intros Hcool s g m2.
    pose proof (login_retry_run m Hr Hl Hcool) as Hrun. cbv zeta in Hrun.
    fold m1 now goto in Hrun. fold s in Hrun. fold g m2 in Hrun.
    destruct (on_login_page_quiet m) as (Hq & _ & _).
    (* the retry time at the end of the tick *)
    assert (Hkeep : existsb captures (trace (liveness_tick m)) = false ->
                    last_login_retry_time (st (final (liveness_tick m))) = now).
    { pose proof (retry_lasting now) as HG.
      assert (Hs1 : existsb captures (trace s) = false ->
                    retry_at now (st (final s)) = true).
      { intros Hc. unfold s.
        apply (lasts_suspend _ _ HG); [apply Z.eqb_refl | exact Hc]. }
      rewrite Hrun. intros Hc. apply Z.eqb_eq.
      destruct g as [[]|e]; cbn [final trace] in *.
      - absent_parts.
        apply (lasts_suspend _ _ HG m2); [apply Hs1; assumption | assumption].
      - rewrite trace_prefixed, final_prefixed in *. absent_parts.
        apply (lasts_retry_harvest_pass now m2); [apply Hs1; assumption | assumption]. }
    split; [|split; [|split; [|split; [exact Hkeep|]]]].
    + rewrite Hrun. destruct g as [[]|e].
      * eexists. cbn [trace]. rewrite <- !app_assoc. reflexivity.
      * eexists. rewrite trace_prefixed, <- !app_assoc. reflexivity.
    + intros Hg. rewrite Hrun, Hg. cbn [outcome final trace].
      conjs; try reflexivity.
      * now rewrite <- !app_assoc.
      * rewrite !own_app. unfold s. rewrite !suspend_own. cbn.
        rewrite ?app_nil_r, <- ?app_assoc. reflexivity.
      * rewrite !invocations_app, Hq. unfold s.
        rewrite !suspend_invocations. reflexivity.
    + intros e Hg c. rewrite Hrun, Hg.
      destruct (case_harvest_facts m2) as (Hn & _ & _).
      rewrite (bind_normal _ _ _ tt Hn), bind_sleep.
      rewrite !outcome_prefixed, !trace_prefixed. cbn [ret outcome trace].
      split; [reflexivity|]. subst c. rewrite app_nil_r, <- !app_assoc. reflexivity.
    + intros n Hcap Hun m' Hr' Hs' Hcap' Hnext.
      assert (Hl' : outcome (on_login_page m') = Normal true)
        by now apply shows_login_run.
      assert (Hlast : last_login_retry_time (st (final (on_login_page m'))) = now).
      { rewrite (on_login_page_keeps_retry _ Hcap'). unfold m'.
        rewrite (uneventful_keeps_retry n _ Hun). exact (Hkeep Hcap). }
      assert (Hle : fst (time_time (world (final (on_login_page m'))))
                    - last_login_retry_time (st (final (on_login_page m'))) <= 60)
        by (rewrite Hlast; exact Hnext).
      pose proof (login_expired_tick m' Hr' Hl' Hle) as Hexp. cbv zeta in Hexp.
      assert (Hb : outcome (liveness_tick m') = Normal Break) by now rewrite Hexp.
      split; [exact Hb|]. split.
      * rewrite Hexp. cbn [trace].
        destruct (on_login_page_quiet m') as (_ & Hnav & _).
        rewrite filter_app, Hnav. reflexivity.
      * intros fuel Hrun' Hres. apply liveness_loop_break; assumption.
  - intros Hcool.
    pose proof (login_expired_tick m Hr Hl Hcool) as Hrun. cbv zeta in Hrun.
    fold m1 now in Hrun.
    assert (Hb : outcome (liveness_tick m) = Normal Break) by now rewrite Hrun.
    split; [exact Hb|]. split; [|split].
    + rewrite Hrun. cbn [trace]. rewrite own_app. reflexivity.
    + rewrite Hrun. cbn [trace].
      destruct (on_login_page_quiet m) as (_ & Hnav & _).
      rewrite filter_app, Hnav. reflexivity.
    + intros fuel Hrun' Hres. apply liveness_loop_break; assumption.
Qed.
End Redirect.

(** ** The outer loop *)

Section OuterLoop.
Context {W : Type} {E : Engine W}.


End OuterLoop.

(** ** Concrete runs of the branches *)

(** C5 as stated fails on the code, in both directions, because the code
    asks the sink and not its own history.  First run: two passes on the
    console with a sink that accepts every artifact and holds none when it
    is asked (it has passed the artifact on, or dropped it); the
    first pass harvests and its request is captured at second 1700000003,
    yet the second pass, seven seconds later, calls the interaction
    procedure again.  Second run: the first pass of a session that has
    captured nothing, with a sink that already holds a harvest and a clock
    that reads 100; the interaction procedure is not called. *)
Lemma harvest_branch_counterexample :
  let m := Build_Machine live (Build_Forgetful answered) in
  let m' := final (liveness_tick m) in
  let cold := Build_Machine live unset_clock in
  (existsb captures (trace (liveness_tick m)) = true
   /\ last_harvest_time (st m') = 1700000003
   /\ refresh_needed (st m') = false
   /\ outcome (on_login_page m') = Normal false
   /\ fst (time_time (world (final (on_login_page m'))))
      - last_harvest_time (st (final (on_login_page m'))) = 7
   /\ invocations (trace (liveness_tick m')) = 1%nat)
  /\ (last_harvest_time (st cold) = 0
      /\ refresh_needed (st cold) = false
      /\ outcome (on_login_page cold) = Normal false
      /\ existsb captures (trace (liveness_tick cold)) = false
      /\ outcome (liveness_tick cold) = Normal Fallthrough
      /\ invocations (trace (liveness_tick cold)) = 0%nat).
Proof.
  intros m m' cold.
  conjs; vm_compute; reflexivity.
Qed.

(** Witness of C2: a pending refresh in a calm world, and one in a world
    whose reload raises. *)
Lemma refresh_branch_runs_alone_witness :
  let m := Build_Machine stale calm in
  let mf := Build_Machine stale no_reload in
  (refresh_needed (st m) = true
   /\ outcome (liveness_tick m) = Normal Continue
   /\ forallb (fun a => negb (later_branch a)) (trace (liveness_tick m)) = true
   /\ invocations (trace (liveness_tick m)) = 1%nat
   /\ refresh_needed (st (final (liveness_tick m))) = false)
  /\ (refresh_needed (st mf) = true
      /\ own (trace (liveness_tick mf))
         = [a_print msg_refreshing; a_call page_reload (Err (EngineError "engine"));
            a_print (msg_refresh_failed (EngineError "engine"))]
      /\ invocations (trace (liveness_tick mf)) = 0%nat
      /\ refresh_needed (st (final (liveness_tick mf))) = true).
Proof.
  intros m mf.
  assert (h : refresh_needed (st m) = true) by reflexivity.
  assert (hf : refresh_needed (st mf) = true) by reflexivity.
  assert (p : perform page_reload (world (final (suspend m))) = (Ok tt, calm))
    by reflexivity.
  assert (pf : perform page_reload (world (final (suspend mf)))
               = (Err (EngineError "engine"), no_reload))
    by reflexivity.
  pose proof (refresh_branch_runs_alone m h) as c. cbv zeta in c.
  destruct c as (c1 & c2 & c3). rewrite p in c3.
  destruct c3 as (_ & _ & _ & c4 & c5).
  pose proof (refresh_branch_runs_alone mf hf) as d. cbv zeta in d.
  destruct d as (_ & _ & d3). rewrite pf in d3.
  destruct d3 as (_ & _ & d4 & d5 & _ & d6).
  pose proof (c5 eq_refl) as c6.
  conjs; assumption.
Defined.

(** Witness of C5: the first tick of a fresh session on the console, and a
    tick a thousand seconds after a capture with a sink that holds the
    harvest. *)
Lemma harvest_branch_trigger_witness :
  let m := Build_Machine live calm in
  let mi := Build_Machine harvested stocked_sink in
  (refresh_needed (st m) = false
   /\ outcome (on_login_page m) = Normal false
   /\ last_harvest_time (st (final (on_login_page m))) = 0
   /\ fst (time_time (world (final (on_login_page m)))) > 2700
   /\ outcome (liveness_tick m) = Normal Fallthrough
   /\ invocations (trace (liveness_tick m)) = 1%nat)
  /\ (refresh_needed (st mi) = false
      /\ outcome (on_login_page mi) = Normal false
      /\ outcome (liveness_tick mi) = Normal Fallthrough
      /\ invocations (trace (liveness_tick mi)) = 0%nat).
Proof.
  intros m mi.
  assert (h1 : refresh_needed (st m) = false) by reflexivity.
  assert (h2 : outcome (on_login_page m) = Normal false) by reflexivity.
  assert (h3 : last_harvest_time (st (final (on_login_page m))) = 0) by reflexivity.
  assert (h4 : fst (time_time (world (final (on_login_page m)))) > 2700)
    by (vm_compute; reflexivity).
  assert (g1 : refresh_needed (st mi) = false) by reflexivity.
  assert (g2 : outcome (on_login_page mi) = Normal false) by reflexivity.
  destruct (harvest_branch_trigger m h1 h2) as (c1 & _ & _ & _ & c4).
  destruct (c4 h3 (or_introl h4)) as (c5 & _).
  destruct (harvest_branch_trigger mi g1 g2) as (d1 & _ & _ & d3 & _).
  assert (d4 : invocations (trace (liveness_tick mi)) = 0%nat).
  { apply d3. intros [Hc|Hc]; vm_compute in Hc; discriminate. }
  conjs; assumption.
Defined.

(** Witness of C1: on the login page with no retry yet, the first tick
    retries; the second finds the console and harvests; the third, thirty
    seconds after the retry, finds the login page again and is terminal.
    And a tick ten seconds after a retry is terminal. *)
Lemma login_redirect_branch_witness :
  let m := Build_Machine live redirected_again in
  let r := liveness_tick m in
  let m' := after_passes 1 (final r) in
  let mb := Build_Machine retried on_login in
  (refresh_needed (st m) = false
   /\ shows_login m = true
   /\ fst (time_time (world (final (on_login_page m))))
      - last_login_retry_time (st (final (on_login_page m))) > 60
   /\ existsb captures (trace r) = false
   /\ uneventful 1 (final r) = true
   /\ refresh_needed (st m') = false
   /\ shows_login m' = true
   /\ existsb captures (trace (on_login_page m')) = false
   /\ fst (time_time (world (final (on_login_page m')))) - 1700000000 <= 60
   /\ outcome r = Normal Continue
   /\ invocations (trace r) = 0%nat
   /\ last_login_retry_time (st (final r)) = 1700000000
   /\ outcome (liveness_tick m') = Normal Break
   /\ filter navigates (trace (liveness_tick m')) = [])
  /\ (refresh_needed (st mb) = false
      /\ shows_login mb = true
      /\ fst (time_time (world (final (on_login_page mb))))
         - last_login_retry_time (st (final (on_login_page mb))) <= 60
      /\ is_running (st mb) = true
      /\ restart_requested (st mb) = false
      /\ outcome (liveness_tick mb) = Normal Break
      /\ filter navigates (trace (liveness_tick mb)) = []
      /\ liveness_loop 1 mb
         = Build_Run (Normal tt) (final (liveness_tick mb)) (trace (liveness_tick mb))).
Proof.
  intros m r m' mb.
  assert (h1 : refresh_needed (st m) = false) by reflexivity.
  assert (h2 : shows_login m = true) by reflexivity.
  assert (h3 : fst (time_time (world (final (on_login_page m))))
               - last_login_retry_time (st (final (on_login_page m))) > 60)
    by (vm_compute; reflexivity).
  assert (h5 : existsb captures (trace r) = false) by reflexivity.
  assert (h6 : uneventful 1 (final r) = true) by (vm_compute; reflexivity).
  assert (h7 : refresh_needed (st m') = false) by (vm_compute; reflexivity).
  assert (h8 : shows_login m' = true) by (vm_compute; reflexivity).
  assert (h9 : existsb captures (trace (on_login_page m')) = false)
    by (vm_compute; reflexivity).
  assert (h10 : fst (time_time (world (final (on_login_page m')))) - 1700000000 <= 60)
    by (vm_compute; discriminate).
  assert (g1 : refresh_needed (st mb) = false) by reflexivity.
  assert (g2 : shows_login mb = true) by reflexivity.
  assert (g3 : fst (time_time (world (final (on_login_page mb))))
               - last_login_retry_time (st (final (on_login_page mb))) <= 60)
    by (vm_compute; discriminate).
  destruct (login_redirect_branch m h1 h2) as (_ & Hretry & _).
  destruct (Hretry h3) as (_ & Hok & _ & Hkeep & Hnext).
  destruct (Hok eq_refl) as (c1 & _ & _ & _ & c2).
  pose proof (Hkeep h5) as c3.
  destruct (Hnext 1%nat h5 h6 h7 h8 h9 h10) as (c4 & c5 & _).
  destruct (login_redirect_branch mb g1 g2) as (_ & _ & Hexp).
  destruct (Hexp g3) as (d1 & _ & d3 & Hloop).
  assert (g4 : is_running (st mb) = true) by reflexivity.
  assert (g5 : restart_requested (st mb) = false) by reflexivity.
  pose proof (Hloop 0%nat g4 g5) as d4.
  conjs; assumption.
Defined.

